(** * Glone: clipboard-driven git clone (src/extension.ts)

    A shallow embedding of the core of the extension: the URL
    classifier/normaliser ([GitUrlValidator]), the workspace inspector
    ([ProjectFileDetector]), the placement resolver
    ([CloneLocationResolver]), the clone executor ([GitCloneService]) and
    the clipboard watcher ([ClipboardMonitor]).

    JavaScript strings are sequences of UTF-16 code units; they are modelled
    as lists of [N].  Regular-expression literals are kept as syntax trees
    and run by a backtracking matcher that follows the priority order of
    the ECMAScript semantics on the fragment the source uses. *)

From Stdlib Require Import String Ascii DecimalString.
From Stdlib Require Import List Bool Arith NArith ZArith Lia.
Import ListNotations.

Set Implicit Arguments.

(* ================================================================== *)
(** * JavaScript strings *)
(* ================================================================== *)

Module JS.

Definition char := N.
Definition str := list char.

(** A source-code character (ASCII only) as a code unit. *)
Definition ch (a : ascii) : char := N_of_ascii a.

(** A source-code string literal (ASCII only) as code units. *)
Definition lit (s : string) : str :=
  List.map N_of_ascii (list_ascii_of_string s).

Fixpoint str_eqb (a b : str) : bool :=
  match a, b with
  | [], [] => true
  | x :: a', y :: b' => N.eqb x y && str_eqb a' b'
  | _, _ => false
  end.

(** [s] is the empty string: the only falsy string. *)
Definition falsy (s : str) : bool :=
  match s with [] => true | _ => false end.

(** [String.prototype.startsWith]. *)
Fixpoint startsWith (s p : str) {struct p} : bool :=
  match p with
  | [] => true
  | c :: p' =>
      match s with
      | [] => false
      | x :: s' => N.eqb c x && startsWith s' p'
      end
  end.

(** [String.prototype.endsWith]. *)
Definition endsWith (s p : str) : bool := startsWith (rev s) (rev p).

(** [String.prototype.includes]. *)
Fixpoint includes (s p : str) : bool :=
  startsWith s p ||
  match s with
  | [] => false
  | _ :: s' => includes s' p
  end.

(** [Array.prototype.includes] on an array of strings. *)
Definition array_includes (items : list str) (x : str) : bool :=
  existsb (str_eqb x) items.

(** WhiteSpace and LineTerminator code units of ECMAScript, the ones
    [String.prototype.trim] removes. *)
Definition is_ws (c : char) : bool :=
  ((9 <=? c) && (c <=? 13) || (c =? 32) || (c =? 160) || (c =? 5760)
   || (8192 <=? c) && (c <=? 8202) || (c =? 8232) || (c =? 8233)
   || (c =? 8239) || (c =? 8287) || (c =? 12288) || (c =? 65279))%N.

Fixpoint trimStart (s : str) : str :=
  match s with
  | [] => []
  | c :: s' => if is_ws c then trimStart s' else s
  end.

Definition trimEnd (s : str) : str := rev (trimStart (rev s)).

(** [String.prototype.trim]. *)
Definition trim (s : str) : str := trimEnd (trimStart s).

(** Decimal rendering of a non-negative integer, as a template literal
    renders a counter. *)
Definition decimal (n : nat) : str :=
  lit (NilEmpty.string_of_uint (Nat.to_uint n)).

(** [x] occurs in [s] as a contiguous substring. *)
Definition Contains (s x : str) : Prop :=
  exists pre post, s = pre ++ x ++ post.

End JS.
Import JS.

(* ================================================================== *)
(** * Regular expressions *)
(* ================================================================== *)

Module RegExp.

(** Members of a character class. [CWord] is the escape [\w]. *)
Inductive cset_item :=
| CChar (c : char)
| CWord.

Record cset := { negated : bool; items : list cset_item }.

Definition is_word (c : char) : bool :=
  ((65 <=? c) && (c <=? 90) || (97 <=? c) && (c <=? 122)
   || (48 <=? c) && (c <=? 57) || (c =? 95))%N.

Definition item_mem (it : cset_item) (c : char) : bool :=
  match it with
  | CChar x => N.eqb x c
  | CWord => is_word c
  end.

Definition cset_mem (cs : cset) (c : char) : bool :=
  xorb (negated cs) (existsb (fun it => item_mem it c) (items cs)).

Inductive quant := Greedy | Lazy.

(** The fragment of the pattern language the source uses: literal text,
    sequencing, the optional quantifier [?] (greedy), the quantifiers [+]
    and [+?] on a character class, capturing groups and the two anchors.
    A non-capturing group [(?:r)] is just [r]. *)
Inductive regex :=
| Lit (l : str)
| Seq (a b : regex)
| Opt (a : regex)
| Plus (q : quant) (cs : cset)
| Group (g : nat) (a : regex)
| Bos
| Eos.

Fixpoint cat (l : list regex) : regex :=
  match l with
  | [] => Lit []
  | [r] => r
  | r :: l' => Seq r (cat l')
  end.

(** Capture registers: group number to captured text, or undefined. *)
Definition caps := nat -> option str.
Definition no_caps : caps := fun _ => None.
Definition set_cap (g : nat) (x : str) (c : caps) : caps :=
  fun j => if Nat.eqb j g then Some x else c j.

Definition cont := str -> caps -> option caps.

Fixpoint lit_match (l s : str) {struct l} : option str :=
  match l with
  | [] => Some s
  | c :: l' =>
      match s with
      | [] => None
      | x :: s' => if N.eqb c x then lit_match l' s' else None
      end
  end.

(** [cs*], longest first. *)
Fixpoint star_greedy (cs : cset) (s : str) (c : caps) (k : cont) : option caps :=
  match s with
  | [] => k [] c
  | x :: s' =>
      if cset_mem cs x then
        match star_greedy cs s' c k with
        | Some v => Some v
        | None => k s c
        end
      else k s c
  end.

(** [cs*?], shortest first. *)
Fixpoint star_lazy (cs : cset) (s : str) (c : caps) (k : cont) : option caps :=
  match k s c with
  | Some v => Some v
  | None =>
      match s with
      | [] => None
      | x :: s' => if cset_mem cs x then star_lazy cs s' c k else None
      end
  end.

(** The backtracking matcher, in continuation-passing style.  [n] is the
    length of the whole input, [s] what is left of it, so the current
    position is [n - length s]; [k] is what must match afterwards.
    Alternatives are tried in the order ECMAScript tries them, and the
    first success is the answer. *)
Fixpoint m (n : nat) (r : regex) (s : str) (c : caps) (k : cont) : option caps :=
  match r with
  | Lit l =>
      match lit_match l s with
      | Some s' => k s' c
      | None => None
      end
  | Seq a b => m n a s c (fun s1 c1 => m n b s1 c1 k)
  | Opt a =>
      match m n a s c k with
      | Some v => Some v
      | None => k s c
      end
  | Plus q cs =>
      match s with
      | [] => None
      | x :: s' =>
          if cset_mem cs x then
            match q with
            | Greedy => star_greedy cs s' c k
            | Lazy => star_lazy cs s' c k
            end
          else None
      end
  | Group g a =>
      m n a s c
        (fun s1 c1 => k s1 (set_cap g (firstn (length s - length s1) s) c1))
  | Bos => if Nat.eqb (length s) n then k s c else None
  | Eos =>
      match s with
      | [] => k [] c
      | _ :: _ => None
      end
  end.

(** Result of a successful [exec]: where the match starts, and the
    captures, register 0 holding the whole match. *)
Record MatchResult := { index : nat; groups : caps }.

(** [mr[g]]. An unset register, [undefined] in JavaScript, reads as the
    empty text here. *)
Definition group (mr : MatchResult) (g : nat) : str :=
  match groups mr g with
  | Some x => x
  | None => []
  end.

(** The continuation that ends a match begun at [s]: register 0 takes
    the text matched. *)
Definition whole (s : str) : cont :=
  fun s' c' => Some (set_cap 0 (firstn (length s - length s') s) c').

(** Try every start position from the current one, leftmost first. *)
Fixpoint exec_from (n : nat) (r : regex) (s : str) : option MatchResult :=
  match m n r s no_caps (whole s) with
  | Some c => Some {| index := n - length s; groups := c |}
  | None =>
      match s with
      | [] => None
      | _ :: s' => exec_from n r s'
      end
  end.

(** [RegExp.prototype.exec] and [String.prototype.match] for a pattern
    without flags. *)
Definition exec (r : regex) (s : str) : option MatchResult :=
  exec_from (length s) r s.

(** [RegExp.prototype.test]. *)
Definition test (r : regex) (s : str) : bool :=
  match exec r s with Some _ => true | None => false end.

(** [String.prototype.replace] with a pattern without flags and a
    replacement text without [$] references. *)
Definition replace (s : str) (r : regex) (by_ : str) : str :=
  match exec r s with
  | None => s
  | Some mr =>
      firstn (index mr) s ++ by_ ++ skipn (index mr + length (group mr 0)) s
  end.

(** Declarative reading of a pattern: [den n r s c s' c'] says that [r],
    started with [s] left of an input of length [n] and captures [c], can
    stop with [s'] left and captures [c']. *)
Fixpoint den (n : nat) (r : regex) (s : str) (c : caps) (s' : str) (c' : caps) : Prop :=
  match r with
  | Lit l => s = l ++ s' /\ c' = c
  | Seq a b => exists t c1, den n a s c t c1 /\ den n b t c1 s' c'
  | Opt a => den n a s c s' c' \/ (s' = s /\ c' = c)
  | Plus _ cs =>
      exists x, x <> [] /\ forallb (cset_mem cs) x = true /\ s = x ++ s' /\ c' = c
  | Group g a =>
      exists c1, den n a s c s' c1 /\
                 c' = set_cap g (firstn (length s - length s') s) c1
  | Bos => length s = n /\ s' = s /\ c' = c
  | Eos => s = [] /\ s' = [] /\ c' = c
  end.

End RegExp.
Import RegExp.

(* ================================================================== *)
(** * Types and interfaces *)
(* ================================================================== *)

Record GitRepository := {
  url : str;
  name : str;
  normalizedUrl : str
}.

Record CloneLocation := {
  targetPath : str;
  cloneToRoot : bool;
  message : str
}.

Record ProjectFileDetectionResult := {
  hasCommonFiles : bool;
  detectedFiles : list str
}.

(** The fields [message] and [targetPath] of the source are
    [resultMessage] and [resultTargetPath] here, [CloneLocation] having
    fields of the same names. *)
Record CloneResult := {
  success : bool;
  resultMessage : str;
  resultTargetPath : option str
}.

(** A call either returns a value or throws an exception (with its
    message). *)
Inductive result (A : Type) :=
| Ok (a : A)
| Throw (e : str).
Arguments Ok {A} a.
Arguments Throw {A} e.

Definition bind {A B} (x : result A) (f : A -> result B) : result B :=
  match x with
  | Ok a => f a
  | Throw e => Throw e
  end.

Definition try_catch {A} (body : result A) (handler : str -> result A) : result A :=
  match body with
  | Ok a => Ok a
  | Throw e => handler e
  end.

(** What a spawned child process emits, in order. The exit code of
    ['close'] is absent when the process was killed by a signal. *)
Inductive ProcEvent :=
| StdoutData (data : str)
| StderrData (data : str)
| Close (code : option Z)
| ProcError (errMessage : str).

Record Stats := { isDirectory : bool }.

(** The host environment the core consumes: the file system ([fs]), the
    [path] and [os] modules and [child_process.spawn]. [spawn] returns a
    child process, represented by the events it will emit, or throws
    before there is one (it does so for the errors it does not report
    through an [error] event, such as [ENOTDIR] for the working
    directory). *)
Record Host := {
  readdirSync : str -> result (list str);
  statSync : str -> result Stats;
  existsSync : str -> bool;
  path_join : str -> str -> str;
  path_basename : str -> str;
  path_dirname : str -> str;
  homedir : str;
  spawn : str -> list str -> str -> result (list ProcEvent)
}.

(* ================================================================== *)
(** * Constants and configuration *)
(* ================================================================== *)

Module ProjectFilePatterns.

Definition COMMON_FILES : list str := List.map lit [
  "package.json"; "package-lock.json"; "pnpm-lock.yaml"; "yarn.lock";
  "composer.json"; "Gemfile"; "requirements.txt"; "Pipfile";
  "Cargo.toml"; "go.mod"; "pom.xml"; "build.gradle";
  "Makefile"; "CMakeLists.txt"; "tsconfig.json"; "jsconfig.json";
  ".gitignore"; "README.md"; "README.rst"; "README.txt";
  "LICENSE"; "LICENSE.txt"; "LICENSE.md";
  ".env"; ".env.example"; "docker-compose.yml"; "Dockerfile"; ".git"
]%string.

Definition COMMON_DIRECTORIES : list str := List.map lit [
  "src"; "lib"; "dist"; "build"; "out"; "target"; "bin";
  "node_modules"; ".git"; ".vscode"; "test"; "tests"; "spec";
  "docs"; "public"; "assets"; "static"
]%string.

End ProjectFilePatterns.

Module GitProviderPatterns.

(** The character class of word characters, hyphen and dot:
    [[\w\-\.]]. *)
Definition wdd : cset :=
  {| negated := false; items := [CWord; CChar (ch "-"); CChar (ch ".")] |}.

(** The same class with the slash added: [[\w\-\.\/]]. *)
Definition wdds : cset :=
  {| negated := false; items := [CWord; CChar (ch "-"); CChar (ch "."); CChar (ch "/")] |}.

(** [[^\/]]. *)
Definition not_slash : cset :=
  {| negated := true; items := [CChar (ch "/")] |}.

(** [[^\/\:]]. *)
Definition not_slash_colon : cset :=
  {| negated := true; items := [CChar (ch "/"); CChar (ch ":")] |}.

Definition L (s : string) : regex := Lit (lit s).

(** [^https?:\/\/]. *)
Definition https : list regex := [Bos; L "http"; Opt (L "s"); L "://"].

(** [(?:\.git)?\/?$]. *)
Definition git_slash_end : list regex := [Opt (L ".git"); Opt (L "/"); Eos].

(** [^https?:\/\/HOST\/[\w\-\.]+\/[\w\-\.]+(?:\.git)?\/?$]. *)
Definition hosted (host : string) : regex :=
  cat (https ++ [L host; L "/"; Plus Greedy wdd; L "/"; Plus Greedy wdd]
         ++ git_slash_end).

(** [^https?:\/\/PREFIX[\w\-\.]+\/[\w\-\.\/]+(?:\.git)?\/?$]. *)
Definition self_hosted (prefix : string) : regex :=
  cat (https ++ [L prefix; Plus Greedy wdd; L "/"; Plus Greedy wdds]
         ++ git_slash_end).

(** [^https?:\/\/[\w\-\.]+DIR[\w\-\.\/]+(?:\.git)?\/?$], [DIR] a list of
    pattern pieces such as [\/git\/]. *)
Definition generic (dir : list regex) : regex :=
  cat (https ++ [Plus Greedy wdd] ++ dir ++ [Plus Greedy wdds]
         ++ git_slash_end).

(** [^git@HOST:[\w\-\.]+\/[\w\-\.]+\.git$]. *)
Definition ssh_hosted (host : string) : regex :=
  cat [Bos; L "git@"; L host; L ":"; Plus Greedy wdd; L "/";
       Plus Greedy wdd; L ".git"; Eos].

Definition PATTERNS : list regex := [
  (* Popular hosted providers *)
  hosted "github.com";
  hosted "gitlab.com";
  hosted "bitbucket.org";
  (* Self-hosted Git instances (common patterns) *)
  self_hosted "git.";
  self_hosted "gitlab.";
  self_hosted "gitea.";
  self_hosted "gitiles.";
  self_hosted "cgit.";
  (* Generic self-hosted patterns *)
  cat (https ++ [Plus Greedy wdd; L "/"; Plus Greedy wdds; L ".git";
                 Opt (L "/"); Eos]);
  generic [L "/git/"];
  generic [L "/repo"; Opt (L "s"); L "/"];
  generic [L "/scm/"];
  generic [L "/projects/"];
  (* SSH URLs for popular providers *)
  ssh_hosted "github.com";
  ssh_hosted "gitlab.com";
  ssh_hosted "bitbucket.org";
  (* SSH URLs for self-hosted *)
  cat [Bos; L "git@"; Plus Greedy wdd; L ":"; Plus Greedy wdds; L ".git"; Eos];
  cat [Bos; Plus Greedy wdd; L "@"; Plus Greedy wdd; L ":"; Plus Greedy wdds;
       L ".git"; Eos];
  (* Alternative SSH formats *)
  cat ([Bos; L "ssh://git@"; Plus Greedy wdd; L "/"; Plus Greedy wdds]
         ++ git_slash_end);
  cat ([Bos; L "ssh://"; Plus Greedy wdd; L "@"; Plus Greedy wdd; L "/";
        Plus Greedy wdds] ++ git_slash_end);
  (* Git protocol *)
  cat ([Bos; L "git://"; Plus Greedy wdd; L "/"; Plus Greedy wdds]
         ++ git_slash_end)
]%string.

End GitProviderPatterns.
Import GitProviderPatterns.

(* ================================================================== *)
(** * Core services *)
(* ================================================================== *)

Module GitUrlValidator.

Definition isValid (url : str) : bool :=
  if falsy (trim url) then false
  else existsb (fun pattern => test pattern (trim url)) PATTERNS.

(** [^https?:\/\/HOST\/[\w\-\.]+\/[\w\-\.]+$]. *)
Definition provider (host : string) : regex :=
  cat (https ++ [L host; L "/"; Plus Greedy wdd; L "/"; Plus Greedy wdd; Eos]).

Definition knownProviders : list regex :=
  [provider "github.com"; provider "gitlab.com"; provider "bitbucket.org"]%string.

Definition isKnownProvider (url : str) : bool :=
  existsb (fun pattern => test pattern url) knownProviders.

(** [^https?:\/\/[\w\-\.]+DIR[\w\-\.]+$]. *)
Definition repoPattern (dir : list regex) : regex :=
  cat (https ++ [Plus Greedy wdd] ++ dir ++ [Plus Greedy wdd; Eos]).

Definition repoPatterns : list regex := [
  repoPattern [L "/"; Plus Greedy wdd; L "/"];   (* domain.com/user/repo *)
  repoPattern [L "/git/"];                       (* domain.com/git/repo *)
  repoPattern [L "/repo"; Opt (L "s"); L "/"];   (* domain.com/repo/name *)
  repoPattern [L "/scm/"];                       (* domain.com/scm/repo *)
  repoPattern [L "/projects/"]                   (* domain.com/projects/repo *)
]%string.

Definition looksLikeRepositoryUrl (url : str) : bool :=
  existsb (fun pattern => test pattern url) repoPatterns.

(** [\/$]. *)
Definition trailing_slash : regex := cat [L "/"; Eos].

Definition normalize (url : str) : str :=
  let trimmedUrl := trim url in
  (* SSH URLs and git:// URLs are already in correct format *)
  if startsWith trimmedUrl (lit "git@")
     || startsWith trimmedUrl (lit "ssh://")
     || startsWith trimmedUrl (lit "git://")
  then trimmedUrl
  else
    (* Handle HTTPS URLs *)
    if startsWith trimmedUrl (lit "http://")
       || startsWith trimmedUrl (lit "https://")
    then
      (* Remove trailing slash *)
      let cleanUrl := replace trimmedUrl trailing_slash [] in
      (* If it already ends with .git, return as is *)
      if endsWith cleanUrl (lit ".git") then cleanUrl
      (* For known providers without .git, add it *)
      else if isKnownProvider cleanUrl then cleanUrl ++ lit ".git"
      (* For self-hosted repos, check if it looks like a repository URL *)
      else if looksLikeRepositoryUrl cleanUrl then cleanUrl ++ lit ".git"
      (* Return as is for other patterns (might already be correct) *)
      else cleanUrl
    else trimmedUrl.

(** [:([^\/]+\/)?([^\/]+?)(?:\.git)?$]. *)
Definition ssh_name : regex :=
  cat [L ":"; Opt (Group 1 (Seq (Plus Greedy not_slash) (L "/")));
       Group 2 (Plus Lazy not_slash); Opt (L ".git"); Eos].

(** [\/([^\/]+?)(?:\.git)?(?:\/)?$]. *)
Definition url_name : regex :=
  cat [L "/"; Group 1 (Plus Lazy not_slash); Opt (L ".git"); Opt (L "/"); Eos].

(** [([^\/\:]+?)(?:\.git)?$]. *)
Definition path_name : regex :=
  cat [Group 1 (Plus Lazy not_slash_colon); Opt (L ".git"); Eos].

Definition extractRepositoryName (url : str) : str :=
  (* Handle SSH URLs like git@domain:user/repo.git *)
  let sshMatch :=
    if includes url (lit "@") && includes url (lit ":")
       && negb (includes url (lit "://"))
    then exec ssh_name url
    else None in
  match sshMatch with
  | Some sshMatch => group sshMatch 2
  | None =>
      (* Handle standard URLs *)
      match exec url_name url with
      | Some match_ => group match_ 1
      | None =>
          (* Fallback: try to extract from any path-like structure *)
          match exec path_name url with
          | Some pathMatch => group pathMatch 1
          | None => lit "repository"
          end
      end
  end.

Definition createRepository (url : str) : GitRepository :=
  {| url := url;
     name := extractRepositoryName url;
     normalizedUrl := normalize url |}.

End GitUrlValidator.

Module ProjectFileDetector.
Import ProjectFilePatterns.

Section WithHost.
Variable host : Host.

(** The loop over [COMMON_FILES]: a name listed in the directory is
    pushed. *)
Definition checkFiles (items detected : list str) : list str :=
  fold_left
    (fun detected file =>
       if array_includes items file then detected ++ [file] else detected)
    COMMON_FILES detected.

(** The loop over [COMMON_DIRECTORIES]: a listed name is pushed, with a
    slash appended, when [statSync] says it is a directory; an error of
    [statSync] is ignored. *)
Definition checkDirectories (workspacePath : str) (items detected : list str)
  : list str :=
  fold_left
    (fun detected dir =>
       if array_includes items dir then
         let fullPath := path_join host workspacePath dir in
         match statSync host fullPath with
         | Ok stat =>
             if isDirectory stat then detected ++ [dir ++ lit "/"] else detected
         | Throw _ => detected
         end
       else detected)
    COMMON_DIRECTORIES detected.

Definition detect (workspacePath : str) : result ProjectFileDetectionResult :=
  try_catch
    (bind (readdirSync host workspacePath) (fun items =>
       let detectedFiles := checkFiles items [] in
       let detectedFiles := checkDirectories workspacePath items detectedFiles in
       Ok {| hasCommonFiles := 0 <? length detectedFiles;
             detectedFiles := detectedFiles |}))
    (fun error =>
       Ok {| hasCommonFiles := true;  (* Default to safe behavior *)
             detectedFiles := [] |}).

End WithHost.
End ProjectFileDetector.

Module CloneLocationResolver.

Section WithHost.
Variable host : Host.

Definition resolveForNoWorkspace (repository : GitRepository) : CloneLocation :=
  {| targetPath := path_join host (homedir host) (name repository);
     cloneToRoot := false;
     message := lit "Clone " ++ name repository
                  ++ lit " to new folder in home directory?" |}.

(** The [while (fs.existsSync(targetPath))] loop. [fuel] bounds the number
    of tests of the condition; [None] means the bound was reached with
    the loop still running. *)
Fixpoint probe (fuel : nat) (repository : GitRepository) (workspacePath : str)
    (targetPath : str) (counter : nat) : option str :=
  match fuel with
  | 0 => None
  | S fuel' =>
      if existsSync host targetPath then
        probe fuel' repository workspacePath
          (path_join host workspacePath
             (name repository ++ lit "-" ++ decimal counter))
          (S counter)
      else Some targetPath
  end.

Definition resolveForExistingProject (fuel : nat) (repository : GitRepository)
    (workspacePath : str) : option CloneLocation :=
  match probe fuel repository workspacePath
          (path_join host workspacePath (name repository)) 1 with
  | None => None
  | Some targetPath =>
      Some {| targetPath := targetPath;
              cloneToRoot := false;
              message := lit "Cloning " ++ name repository
                           ++ lit " to new folder (avoiding conflicts)" |}
  end.

Definition resolveForCleanWorkspace (repository : GitRepository)
    (workspacePath : str) : CloneLocation :=
  {| targetPath := workspacePath;
     cloneToRoot := true;
     message := lit "Clone " ++ name repository
                  ++ lit " contents to current workspace root? (No project files detected)" |}.

(** [workspaceFolders] is the list of the folders' [uri.fsPath], or
    [None] for [undefined]. The outer [option] is the fuel of the loop. *)
Definition resolve (fuel : nat) (repository : GitRepository)
    (workspaceFolders : option (list str)) : option (result CloneLocation) :=
  match workspaceFolders with
  | None | Some [] => Some (Ok (resolveForNoWorkspace repository))
  | Some (workspacePath :: _) =>
      match ProjectFileDetector.detect host workspacePath with
      | Throw e => Some (Throw e)
      | Ok detection =>
          if hasCommonFiles detection then
            match resolveForExistingProject fuel repository workspacePath with
            | None => None
            | Some location => Some (Ok location)
            end
          else Some (Ok (resolveForCleanWorkspace repository workspacePath))
      end
  end.

End WithHost.
End CloneLocationResolver.

Module GitCloneService.

(** State of a promise. *)
Inductive promise (A : Type) :=
| Pending
| Fulfilled (v : A)
| Rejected (e : str).
Arguments Pending {A}.
Arguments Fulfilled {A} v.
Arguments Rejected {A} e.

(** [resolve(v)] settles a pending promise and does nothing to a settled
    one. *)
Definition settle {A} (p : promise A) (v : A) : promise A :=
  match p with
  | Pending => Fulfilled v
  | _ => p
  end.

Section WithHost.
Variable host : Host.

Definition prepareGitCommand (repository : GitRepository)
    (location : CloneLocation) (targetPath_ : str) : list str * str :=
  if cloneToRoot location && str_eqb targetPath_ (targetPath location) then
    ([lit "clone"; normalizedUrl repository; lit "."], targetPath_)
  else
    ([lit "clone"; normalizedUrl repository; path_basename host targetPath_],
     path_dirname host targetPath_).

Definition createSuccessResult (repository : GitRepository)
    (location : CloneLocation) (targetPath_ : str) : CloneResult :=
  let message :=
    if cloneToRoot location
    then lit "Successfully cloned " ++ name repository
           ++ lit " to workspace root (no conflicts detected)"
    else lit "Successfully cloned " ++ name repository ++ lit " to new folder" in
  {| success := true; resultMessage := message;
     resultTargetPath := Some targetPath_ |}.

(** The closure state of [clone]: the text gathered from standard error
    and the promise. *)
Record CloneState := { errorOutput : str; settled : promise CloneResult }.

(** [errorOutput || 'Unknown error']. *)
Definition orUnknown (errorOutput : str) : str :=
  if falsy errorOutput then lit "Unknown error" else errorOutput.

(** The four event handlers. *)
Definition handle (repository : GitRepository) (location : CloneLocation)
    (targetPath_ : str) (st : CloneState) (ev : ProcEvent) : CloneState :=
  match ev with
  | StdoutData _ => st
  | StderrData data =>
      {| errorOutput := errorOutput st ++ data; settled := settled st |}
  | Close code =>
      {| errorOutput := errorOutput st;
         settled :=
           settle (settled st)
             (match code with
              | Some 0%Z => createSuccessResult repository location targetPath_
              | _ =>
                  {| success := false;
                     resultMessage := lit "Failed to clone repository: "
                                        ++ orUnknown (errorOutput st);
                     resultTargetPath := None |}
              end) |}
  | ProcError errMessage =>
      {| errorOutput := errorOutput st;
         settled :=
           settle (settled st)
             {| success := false;
                resultMessage := lit "Failed to start git process: " ++ errMessage;
                resultTargetPath := None |} |}
  end.

(** The promise [clone] returns, once the child process has emitted all
    its events. The executor has no [try]: what [spawn] throws rejects
    the promise. *)
Definition clone (repository : GitRepository) (location : CloneLocation)
    (targetPath_ : str) : promise CloneResult :=
  let '(gitArgs, workingDir) := prepareGitCommand repository location targetPath_ in
  match spawn host (lit "git") gitArgs workingDir with
  | Throw e => Rejected e
  | Ok gitProcess =>
      settled
        (fold_left (handle repository location targetPath_) gitProcess
           {| errorOutput := []; settled := Pending |})
  end.

End WithHost.
End GitCloneService.

(* ================================================================== *)
(** * Main extension components *)
(* ================================================================== *)

Record StatusBarItem := {
  text : str;
  tooltip : str;
  command : str;
  visible : bool
}.

Module StatusBarManager.

Definition create : StatusBarItem :=
  {| text := []; tooltip := []; command := lit "glone.cloneFromClipboard";
     visible := false |}.

Definition updateForRepository (item : StatusBarItem) (repository : GitRepository)
  : StatusBarItem :=
  {| text := lit "$(repo-clone) Clone: " ++ name repository;
     tooltip := lit "Click to clone: " ++ url repository;
     command := command item;
     visible := true |}.

Definition hide (item : StatusBarItem) : StatusBarItem :=
  {| text := text item; tooltip := tooltip item; command := command item;
     visible := false |}.

End StatusBarManager.

(** A callback invocation made by the watcher. *)
Inductive Notification :=
| RepositoryDetected (repo : GitRepository)
| NoRepository.

Module ClipboardMonitor.

Section WithCallbacks.

(** State of whoever supplies the callbacks. A callback changes it and
    returns or throws. *)
Variable St : Type.
Variable onRepositoryDetected : GitRepository -> St -> St * result unit.
Variable onNoRepository : St -> St * result unit.

(** Outcome of a piece of the watcher: the callbacks invoked, in order,
    the state they leave, and how the piece completed. *)
Definition run_ := (list Notification * St * result unit)%type.

Definition callDetected (repository : GitRepository) (st : St) : run_ :=
  let '(st', r) := onRepositoryDetected repository st in
  ([RepositoryDetected repository], st', r).

Definition callNone (st : St) : run_ :=
  let '(st', r) := onNoRepository st in
  ([NoRepository], st', r).

(** One tick. [clipboard] is what [readText] produced: a text, or a
    failure. *)
Definition checkClipboard (clipboard : result str) (st : St) : run_ :=
  let tryBlock : run_ :=
    match clipboard with
    | Throw e => ([], st, Throw e)
    | Ok clipboardText =>
        if negb (falsy clipboardText) && GitUrlValidator.isValid clipboardText
        then
          let repository := GitUrlValidator.createRepository clipboardText in
          callDetected repository st
        else callNone st
    end in
  match tryBlock with
  | (calls, st1, Ok _) => (calls, st1, Ok tt)
  | (calls, st1, Throw error) =>
      let '(calls', st2, r) := callNone st1 in
      (calls ++ calls', st2, r)
  end.

(** [start]: one immediate check, then one per interval; [ticks] are the
    successive results of reading the clipboard, each tick taken to
    complete before the next. A tick that throws out of [checkClipboard]
    rejects only that tick's promise. *)
Fixpoint start (ticks : list (result str)) (st : St) : list Notification * St :=
  match ticks with
  | [] => ([], st)
  | clipboard :: ticks' =>
      let '(calls, st1, _) := checkClipboard clipboard st in
      let '(calls', st2) := start ticks' st1 in
      (calls ++ calls', st2)
  end.

End WithCallbacks.
End ClipboardMonitor.

(** What the editor is asked to do, in order. [Spawn] is the call of
    [spawn] for git. *)
Inductive UiAction :=
| InputBox (prompt value : str) (valueSelection : option (nat * nat))
| ErrorMessage (msg : str)
| InformationMessage (msg action : str)
| Progress (title : str)
| Spawn (gitArgs : list str) (workingDir : str)
| Command (command_ : str) (argument : option str).

(** The editor and the person in front of it: what is typed in the input
    box ([None] when it is dismissed), whether the button of an
    information message is pressed, and the message of the [TypeError]
    the engine raises when a property of [undefined] is read. *)
Record Editor := {
  showInputBox : str -> str -> option (nat * nat) -> option str;
  showInformationMessage : str -> str -> bool;
  typeErrorMessage : str
}.

Module UserInteractionService.

Section WithEditor.
Variable host : Host.
Variable editor : Editor.

(** [workspaceFolders ? workspaceFolders[0].uri.fsPath : homedir()]. An
    empty array is truthy and its element 0 is [undefined]. *)
Definition defaultPath (workspaceFolders : option (list str)) : result str :=
  match workspaceFolders with
  | None => Ok (homedir host)
  | Some [] => Throw (typeErrorMessage editor)
  | Some (fsPath :: _) => Ok fsPath
  end.

(** The input box shown, and the answer. *)
Definition confirmCloneLocation (workspaceFolders : option (list str))
    (location : CloneLocation) (repository : GitRepository)
  : result (UiAction * option str) :=
  bind (defaultPath workspaceFolders) (fun defaultPath =>
    let valueSelection :=
      if cloneToRoot location then None
      else Some (length defaultPath + 1,
                 length defaultPath + 1 + length (name repository)) in
    Ok (InputBox (message location) (targetPath location) valueSelection,
        showInputBox editor (message location) (targetPath location)
          valueSelection)).

Definition showCloneResult (result_ : CloneResult) (location : CloneLocation)
  : list UiAction :=
  if negb (success result_) then [ErrorMessage (resultMessage result_)]
  else
    let action :=
      if cloneToRoot location then lit "Reload Window" else lit "Open Folder" in
    let selection :=
      if showInformationMessage editor (resultMessage result_) action
      then Some action else None in
    InformationMessage (resultMessage result_) action ::
    match selection with
    | None => []
    | Some selection =>
        match resultTargetPath result_ with
        | Some path =>
            if str_eqb selection (lit "Open Folder") && negb (falsy path)
            then [Command (lit "vscode.openFolder") (Some path)]
            else if str_eqb selection (lit "Reload Window")
            then [Command (lit "workbench.action.reloadWindow") None]
            else []
        | None =>
            if str_eqb selection (lit "Reload Window")
            then [Command (lit "workbench.action.reloadWindow") None]
            else []
        end
    end.

End WithEditor.
End UserInteractionService.

Module GitCloneExtension.

Record State := {
  statusBarManager : StatusBarItem;
  currentRepository : option GitRepository
}.

Definition init : State :=
  {| statusBarManager := StatusBarManager.create; currentRepository := None |}.

Definition onRepositoryDetected (repository : GitRepository) (this : State)
  : State * result unit :=
  ({| statusBarManager :=
        StatusBarManager.updateForRepository (statusBarManager this) repository;
      currentRepository := Some repository |}, Ok tt).

Definition onNoRepository (this : State) : State * result unit :=
  ({| statusBarManager := StatusBarManager.hide (statusBarManager this);
      currentRepository := None |}, Ok tt).

(** The watcher as the constructor wires it. *)
Definition checkClipboard :=
  ClipboardMonitor.checkClipboard onRepositoryDetected onNoRepository.

Definition clipboardMonitor :=
  ClipboardMonitor.start onRepositoryDetected onNoRepository.

(** How a piece of [executeClone] ends: it returns, it throws, or it
    is still waiting (the loop of the resolver has not ended within the
    fuel, or the promise of [clone] is pending). *)
Inductive completion :=
| Returned
| Thrown (e : str)
| Waiting.

Section WithHost.
Variable host : Host.
Variable editor : Editor.

(** The body of the [try] block. [clipboard] is what [readText]
    produces, [workspaceFolders] the folders at that moment. *)
Definition tryClone (fuel : nat) (clipboard : result str)
    (workspaceFolders : option (list str)) : list UiAction * completion :=
  match clipboard with
  | Throw e => ([], Thrown e)
  | Ok clipboardText =>
      if falsy clipboardText || negb (GitUrlValidator.isValid clipboardText)
      then ([ErrorMessage (lit "No valid git repository URL found in clipboard")],
            Returned)
      else
        let repository := GitUrlValidator.createRepository clipboardText in
        match CloneLocationResolver.resolve host fuel repository workspaceFolders with
        | None => ([], Waiting)
        | Some (Throw e) => ([], Thrown e)
        | Some (Ok location) =>
            match UserInteractionService.confirmCloneLocation host editor
                    workspaceFolders location repository with
            | Throw e => ([], Thrown e)
            | Ok (box, confirmedPath) =>
                match confirmedPath with
                | None => ([box], Returned)   (* User cancelled *)
                | Some confirmedPath =>
                    if falsy confirmedPath then ([box], Returned)
                    else
                      let '(gitArgs, workingDir) :=
                        GitCloneService.prepareGitCommand host repository
                          location confirmedPath in
                      let started :=
                        [box;
                         Progress (lit "Cloning " ++ name repository ++ lit "...");
                         Spawn gitArgs workingDir] in
                      match GitCloneService.clone host repository location
                              confirmedPath with
                      | GitCloneService.Pending => (started, Waiting)
                      | GitCloneService.Rejected e => (started, Thrown e)
                      | GitCloneService.Fulfilled result_ =>
                          (started ++
                           UserInteractionService.showCloneResult editor result_
                             location,
                           Returned)
                      end
                end
            end
        end
  end.

(** [executeClone]: the [try] block, and the [catch] block that reports
    what was thrown. What is thrown is an [Error] here, and [Thrown]
    carries its message. *)
Definition executeClone (fuel : nat) (clipboard : result str)
    (workspaceFolders : option (list str)) : list UiAction * completion :=
  match tryClone fuel clipboard workspaceFolders with
  | (actions, Thrown errorMessage) =>
      (actions ++ [ErrorMessage (lit "Clone failed: " ++ errorMessage)], Returned)
  | done => done
  end.

End WithHost.

End GitCloneExtension.

(* ================================================================== *)
(** * Vocabulary of the statements *)
(* ================================================================== *)

Module Shapes.

(** A non-empty run of word characters, dots and hyphens. *)
Definition word_run (x : str) : Prop :=
  x <> [] /\ forallb (cset_mem wdd) x = true.

Definition is_scheme (sch : str) : Prop :=
  sch = lit "http" \/ sch = lit "https".

(** [scheme://host/a/b]: a host and exactly two path segments. *)
Definition TwoSegment (u : str) : Prop :=
  exists sch host a b,
    is_scheme sch /\ word_run host /\ word_run a /\ word_run b /\
    u = sch ++ lit "://" ++ host ++ lit "/" ++ a ++ lit "/" ++ b.

(** [s] without its last code unit when that is a slash. *)
Fixpoint chop (s : str) : str :=
  match s with
  | [] => []
  | [c] => if N.eqb c (ch "/") then [] else [c]
  | c :: s' => c :: chop s'
  end.

(** [s] is not empty and its last code unit satisfies [p]. *)
Definition last_is (p : char -> bool) (s : str) : bool :=
  match rev s with
  | [] => false
  | c :: _ => p c
  end.

(** [https://github.com/{owner}/{repo}]. *)
Definition github_url (owner repo : str) : str :=
  lit "https://github.com/" ++ owner ++ lit "/" ++ repo.

Definition is_http (s : str) : bool :=
  startsWith s (lit "http://") || startsWith s (lit "https://").

Definition is_ssh_or_git (s : str) : bool :=
  startsWith s (lit "git@") || startsWith s (lit "ssh://")
  || startsWith s (lit "git://").

Definition is_slash (c : char) : bool := N.eqb c (ch "/").

(** The first code unit of [s], if any, is not white space. *)
Definition head_ok (s : str) : bool :=
  match s with
  | [] => true
  | c :: _ => negb (is_ws c)
  end.

(** No white space at either end: what [trim] leaves alone. *)
Definition clean (s : str) : bool := head_ok s && head_ok (rev s).

End Shapes.
Import Shapes.

Module Texts.

(** The code units of the recognised texts: word characters, hyphen,
    dot, slash, colon and at-sign. *)
Definition url_char (c : char) : bool :=
  cset_mem wdds c || N.eqb c (ch ":") || N.eqb c (ch "@").

(** The hosts of the three hosted patterns. *)
Definition providers : list string :=
  ["github.com"; "gitlab.com"; "bitbucket.org"]%string.

(** No text occurs twice in the list. *)
Fixpoint distinct (l : list str) : bool :=
  match l with
  | [] => true
  | x :: l' => negb (array_includes l' x) && distinct l'
  end.

(** [String.prototype.substring] for [a <= b]. *)
Definition substring (s : str) (a b : nat) : str := firstn (b - a) (skipn a s).

End Texts.
Import Texts.

Module Placement.

(** The paths [resolveForExistingProject] tries, in order:
    [{root}/{name}], then [{root}/{name}-1], [{root}/{name}-2], ... *)
Definition candidate (host : Host) (workspacePath : str) (repository : GitRepository)
    (k : nat) : str :=
  match k with
  | 0 => path_join host workspacePath (name repository)
  | S _ =>
      path_join host workspacePath (name repository ++ lit "-" ++ decimal k)
  end.

(** [statSync] succeeds on [p] and reports a directory. *)
Definition is_directory (host : Host) (p : str) : bool :=
  match statSync host p with
  | Ok stat => isDirectory stat
  | Throw _ => false
  end.

(** The host with another content of the directories. *)
Definition with_listing (host : Host) (listing : str -> result (list str))
  : Host :=
  {| readdirSync := listing;
     statSync := statSync host;
     existsSync := existsSync host;
     path_join := path_join host;
     path_basename := path_basename host;
     path_dirname := path_dirname host;
     homedir := homedir host;
     spawn := spawn host |}.

End Placement.
Import Placement.

Module Process.

(** Events that carry output only: the process has neither closed nor
    failed. *)
Definition is_data (ev : ProcEvent) : bool :=
  match ev with
  | StdoutData _ | StderrData _ => true
  | Close _ | ProcError _ => false
  end.

(** The text the events wrote to standard error. *)
Fixpoint stderr_of (evs : list ProcEvent) : str :=
  match evs with
  | [] => []
  | StderrData data :: evs' => data ++ stderr_of evs'
  | _ :: evs' => stderr_of evs'
  end.

(** The events that report a failure: an exit with a code other than 0
    (or by a signal), and a failure to start. *)
Definition is_failure (ev : ProcEvent) : bool :=
  match ev with
  | Close (Some 0%Z) => false
  | Close _ => true
  | ProcError _ => true
  | StdoutData _ | StderrData _ => false
  end.

End Process.
Import Process.

Module Watcher.

(** What a clipboard read amounts to for the watcher: a recognised text,
    or nothing. *)
Definition recognized (clipboard : result str) : bool :=
  match clipboard with
  | Ok clipboardText =>
      negb (falsy clipboardText) && GitUrlValidator.isValid clipboardText
  | Throw _ => false
  end.

(** The callback a tick is expected to invoke. *)
Definition notification_of (clipboard : result str) : Notification :=
  match clipboard with
  | Ok clipboardText =>
      if negb (falsy clipboardText) && GitUrlValidator.isValid clipboardText
      then RepositoryDetected (GitUrlValidator.createRepository clipboardText)
      else NoRepository
  | Throw _ => NoRepository
  end.

(** A callback invocation returned; it did not throw. *)
Definition returns {St} (r : St * result unit) : bool :=
  match snd r with
  | Ok _ => true
  | Throw _ => false
  end.

(** The callbacks invoked during a tick. *)
Definition calls {St} (r : list Notification * St * result unit)
  : list Notification := fst (fst r).

(** The status bar shows what the extension holds: hidden when it holds
    no repository, visible with the name and the URL of the repository it
    holds otherwise. *)
Definition consistent (st : GitCloneExtension.State) : Prop :=
  match GitCloneExtension.currentRepository st with
  | None => visible (GitCloneExtension.statusBarManager st) = false
  | Some repository =>
      visible (GitCloneExtension.statusBarManager st) = true /\
      text (GitCloneExtension.statusBarManager st)
        = lit "$(repo-clone) Clone: " ++ name repository /\
      tooltip (GitCloneExtension.statusBarManager st)
        = lit "Click to clone: " ++ url repository
  end.

(** The repository a notification carries. *)
Definition repository_of (n : Notification) : option GitRepository :=
  match n with
  | RepositoryDetected repository => Some repository
  | NoRepository => None
  end.

End Watcher.
Import Watcher.

(* ================================================================== *)
(** * A small concrete host *)
(* ================================================================== *)

Module Demo.

Definition join (a b : str) : str := a ++ lit "/" ++ b.

Fixpoint until_slash (s : str) : str :=
  match s with
  | [] => []
  | c :: s' => if N.eqb c (ch "/") then [] else c :: until_slash s'
  end.

Fixpoint after_slash (s : str) : str :=
  match s with
  | [] => []
  | c :: s' => if N.eqb c (ch "/") then s' else after_slash s'
  end.

(** The text after the last slash, and the text before it. *)
Definition basename (p : str) : str := rev (until_slash (rev p)).
Definition dirname (p : str) : str := rev (after_slash (rev p)).

Definition entry_at (root : str) (entries : list (str * bool)) (p : str)
  : option (str * bool) :=
  find (fun e => str_eqb p (join root (fst e))) entries.

(** One workspace directory [root] with the given entries (name, and
    whether it is a directory); every other path is absent.
    [events] is what a spawned process emits. *)
Definition host (root : str) (entries : list (str * bool))
    (events : list ProcEvent) : Host :=
  {| readdirSync := fun p =>
       if str_eqb p root then Ok (List.map fst entries)
       else Throw (lit "ENOENT: no such file or directory");
     statSync := fun p =>
       match entry_at root entries p with
       | Some e => Ok {| isDirectory := snd e |}
       | None => Throw (lit "ENOENT: no such file or directory")
       end;
     existsSync := fun p =>
       match entry_at root entries p with
       | Some _ => true
       | None => false
       end;
     path_join := join;
     path_basename := basename;
     path_dirname := dirname;
     homedir := lit "/home/user";
     spawn := fun _ _ _ => Ok events |}.

(** The same host, except that [spawn] throws an error of message
    [e]. *)
Definition no_spawn (host : Host) (e : str) : Host :=
  {| readdirSync := readdirSync host;
     statSync := statSync host;
     existsSync := existsSync host;
     path_join := path_join host;
     path_basename := path_basename host;
     path_dirname := path_dirname host;
     homedir := homedir host;
     spawn := fun _ _ _ => Throw e |}.

(** Callbacks that write down each invocation in the state they are
    given, and then return, or throw when [throws] is set. *)
Definition log_detected (throws : bool) (repository : GitRepository)
    (log : list Notification) : list Notification * result unit :=
  (log ++ [RepositoryDetected repository],
   if throws then Throw (lit "callback failed") else Ok tt).

Definition log_none (throws : bool) (log : list Notification)
  : list Notification * result unit :=
  (log ++ [NoRepository],
   if throws then Throw (lit "callback failed") else Ok tt).

(** An editor whose user gives the same answers each time. *)
Definition editor (answer : option str) (pressed : bool) : Editor :=
  {| showInputBox := fun _ _ _ => answer;
     showInformationMessage := fun _ _ => pressed;
     typeErrorMessage :=
       lit "Cannot read properties of undefined (reading 'uri')" |}.

Definition root : str := lit "/work".

Definition repo_b : GitRepository :=
  {| url := lit "https://github.com/a/b";
     name := lit "b";
     normalizedUrl := lit "https://github.com/a/b.git" |}.

Definition repo_foo : GitRepository :=
  {| url := lit "https://github.com/a/foo";
     name := lit "foo";
     normalizedUrl := lit "https://github.com/a/foo.git" |}.

End Demo.

(* ================================================================== *)
(** * Properties of the string primitives *)
(* ================================================================== *)

Module JSFacts.

Lemma str_eqb_eq (a b : str) : str_eqb a b = true <-> a = b.
Proof.
  revert b; induction a as [|x a IH]; intros [|y b]; simpl; split;
    try congruence; try reflexivity.
  - rewrite andb_true_iff, N.eqb_eq, IH. intros [-> ->]; reflexivity.
  - intros [= -> ->]. rewrite N.eqb_refl. simpl. apply IH. reflexivity.
Qed.

Lemma startsWith_iff (s p : str) :
  startsWith s p = true <-> exists r, s = p ++ r.
Proof.
  revert s; induction p as [|c p IH]; intros s; simpl.
  - split; eauto.
  - destruct s as [|x s].
    + split; [discriminate | intros [r [=]]].
    + rewrite andb_true_iff, N.eqb_eq, IH. split.
      * intros [-> [r ->]]. eauto.
      * intros [r [= -> ->]]. eauto.
Qed.

Lemma endsWith_iff (s p : str) :
  endsWith s p = true <-> exists r, s = r ++ p.
Proof.
  unfold endsWith. rewrite startsWith_iff. split.
  - intros [r H]. exists (rev r).
    rewrite <- (rev_involutive s), H, rev_app_distr, rev_involutive.
    reflexivity.
  - intros [r ->]. exists (rev r). apply rev_app_distr.
Qed.

Lemma array_includes_In (items : list str) (x : str) :
  array_includes items x = true <-> In x items.
Proof.
  unfold array_includes. rewrite existsb_exists. split.
  - intros [y [Hy E]]. apply str_eqb_eq in E. subst. assumption.
  - intros H. exists x. split; [assumption | apply str_eqb_eq; reflexivity].
Qed.

End JSFacts.
Import JSFacts.

(* ================================================================== *)
(** * The matcher agrees with the declarative reading *)
(* ================================================================== *)

Module RegExpFacts.

Lemma lit_match_iff (l s s' : str) : lit_match l s = Some s' <-> s = l ++ s'.
Proof.
  revert s; induction l as [|c l IH]; intros s; simpl.
  - split; congruence.
  - destruct s as [|x s]; [split; discriminate|].
    destruct (N.eqb_spec c x) as [->|N].
    + rewrite IH. split; congruence.
    + split; [discriminate | congruence].
Qed.

Lemma lit_match_app (l s : str) : lit_match l (l ++ s) = Some s.
Proof. apply lit_match_iff. reflexivity. Qed.

Lemma star_greedy_sound cs s c k v :
  star_greedy cs s c k = Some v ->
  exists x s', s = x ++ s' /\ forallb (cset_mem cs) x = true /\ k s' c = Some v.
Proof.
  induction s as [|a s IH]; simpl; intros H.
  - exists [], []. auto.
  - destruct (cset_mem cs a) eqn:Ha.
    + destruct (star_greedy cs s c k) eqn:E.
      * injection H as ->. destruct (IH eq_refl) as (x & s' & -> & Hx & Hk).
        exists (a :: x), s'. simpl. rewrite Ha, Hx. auto.
      * exists [], (a :: s). auto.
    + exists [], (a :: s). auto.
Qed.

Lemma star_lazy_sound cs s c k v :
  star_lazy cs s c k = Some v ->
  exists x s', s = x ++ s' /\ forallb (cset_mem cs) x = true /\ k s' c = Some v.
Proof.
  induction s as [|a s IH]; simpl; intros H.
  - destruct (k [] c) eqn:E; [|discriminate]. injection H as ->.
    exists [], []. auto.
  - destruct (k (a :: s) c) eqn:E.
    + injection H as ->. exists [], (a :: s). auto.
    + destruct (cset_mem cs a) eqn:Ha; [|discriminate].
      destruct (IH H) as (x & s' & -> & Hx & Hk).
      exists (a :: x), s'. simpl. rewrite Ha, Hx. auto.
Qed.

Lemma star_greedy_complete cs x s' c k :
  forallb (cset_mem cs) x = true -> k s' c <> None ->
  star_greedy cs (x ++ s') c k <> None.
Proof.
  induction x as [|a x IH]; simpl; intros Hx Hk.
  - destruct s' as [|b s']; simpl; [assumption|].
    destruct (cset_mem cs b); [|assumption].
    destruct (star_greedy cs s' c k); [discriminate | assumption].
  - apply andb_true_iff in Hx as [Ha Hx]. rewrite Ha.
    specialize (IH Hx Hk).
    destruct (star_greedy cs (x ++ s') c k); [discriminate | contradiction].
Qed.

Lemma star_lazy_complete cs x s' c k :
  forallb (cset_mem cs) x = true -> k s' c <> None ->
  star_lazy cs (x ++ s') c k <> None.
Proof.
  induction x as [|a x IH]; simpl; intros Hx Hk.
  - destruct s' as [|b s']; simpl.
    + destruct (k [] c); [discriminate | contradiction].
    + destruct (k (b :: s') c); [discriminate | contradiction].
  - apply andb_true_iff in Hx as [Ha Hx]. rewrite Ha.
    destruct (k (a :: x ++ s') c); [discriminate|]. apply IH; assumption.
Qed.

(** Whatever the matcher finds is a match in the declarative sense. *)
Lemma m_sound n r : forall s c k v,
  m n r s c k = Some v ->
  exists s' c', den n r s c s' c' /\ k s' c' = Some v.
Proof.
  induction r as [l|a IHa b IHb|a IHa|q cs|g a IHa| |]; simpl; intros s c k v H.
  - destruct (lit_match l s) as [s'|] eqn:E; [|discriminate].
    apply lit_match_iff in E. eauto.
  - apply IHa in H as (t & c1 & Da & H). apply IHb in H as (s' & c' & Db & H).
    exists s', c'. eauto.
  - destruct (m n a s c k) eqn:E.
    + injection H as ->. apply IHa in E as (s' & c' & D & H). eauto.
    + exists s, c. auto.
  - destruct s as [|x s]; [discriminate|].
    destruct (cset_mem cs x) eqn:Hx; [|discriminate].
    assert (exists y s', s = y ++ s' /\ forallb (cset_mem cs) y = true
                         /\ k s' c = Some v) as (y & s' & -> & Hy & Hk).
    { destruct q; [eapply star_greedy_sound | eapply star_lazy_sound]; eassumption. }
    exists s', c. split; [|assumption].
    exists (x :: y). simpl. rewrite Hx, Hy. repeat split; congruence.
  - apply IHa in H as (s' & c1 & D & H).
    exists s', (set_cap g (firstn (length s - length s') s) c1). eauto.
  - destruct (Nat.eqb_spec (length s) n); [|discriminate]. exists s, c. auto.
  - destruct s; [|discriminate]. exists [], c. auto.
Qed.

(** Whenever a declarative match exists after which the continuation
    succeeds, the matcher succeeds (possibly on a match of higher
    priority). *)
Lemma m_complete n r : forall s c s' c' k,
  den n r s c s' c' -> k s' c' <> None -> m n r s c k <> None.
Proof.
  induction r as [l|a IHa b IHb|a IHa|q cs|g a IHa| |]; simpl;
    intros s c s' c' k D Hk.
  - destruct D as [-> ->]. rewrite lit_match_app. assumption.
  - destruct D as (t & c1 & Da & Db). eapply IHa; [eassumption|].
    eapply IHb; eassumption.
  - destruct (m n a s c k) eqn:E; [discriminate|].
    destruct D as [D | [-> ->]]; [|assumption].
    exfalso. eapply IHa; eassumption.
  - destruct D as (x & Hne & Hx & -> & ->).
    destruct x as [|a x]; [contradiction|]. simpl in *.
    apply andb_true_iff in Hx as [Ha Hx]. rewrite Ha.
    destruct q; [apply star_greedy_complete | apply star_lazy_complete];
      assumption.
  - destruct D as (c1 & D & ->). eapply IHa; [eassumption|]. assumption.
  - destruct D as (<- & -> & ->). rewrite Nat.eqb_refl. assumption.
  - destruct D as (-> & -> & ->). assumption.
Qed.

(** A match consumes a prefix of what is left. *)
Lemma den_suffix n r : forall s c s' c',
  den n r s c s' c' -> exists x, s = x ++ s'.
Proof.
  induction r as [l|a IHa b IHb|a IHa|q cs|g a IHa| |]; simpl;
    intros s c s' c' D.
  - destruct D as [-> _]. eauto.
  - destruct D as (t & c1 & Da & Db).
    apply IHa in Da as [x ->]. apply IHb in Db as [y ->].
    exists (x ++ y). apply app_assoc.
  - destruct D as [D | [-> _]]; [eauto | exists []; reflexivity].
  - destruct D as (x & _ & _ & -> & _). eauto.
  - destruct D as (c1 & D & _). eauto.
  - destruct D as (_ & -> & _). exists []. reflexivity.
  - destruct D as (-> & -> & _). exists []. reflexivity.
Qed.

Lemma exec_from_sound n r : forall s mr,
  exec_from n r s = Some mr ->
  exists p t s' c',
    s = p ++ t /\ den n r t no_caps s' c' /\
    index mr = n - length t /\
    groups mr = set_cap 0 (firstn (length t - length s') t) c'.
Proof.
  induction s as [|a s IH]; intros mr; simpl.
  - destruct (m n r [] no_caps _) eqn:E; [|discriminate].
    intros [= <-]. apply m_sound in E as (s' & c' & D & [= <-]).
    exists [], [], s', c'. auto.
  - destruct (m n r (a :: s) no_caps _) eqn:E.
    + intros [= <-]. apply m_sound in E as (s' & c' & D & [= <-]).
      exists [], (a :: s), s', c'. auto.
    + intros H. apply IH in H as (p & t & s' & c' & -> & D & Hi & Hg).
      exists (a :: p), t, s', c'. auto.
Qed.

Lemma exec_from_complete n r : forall p t s' c',
  den n r t no_caps s' c' -> exec_from n r (p ++ t) <> None.
Proof.
  induction p as [|a p IH]; intros t s' c' D.
  - simpl.
    assert (H : m n r t no_caps (whole t) <> None)
      by (eapply m_complete; [eassumption | discriminate]).
    destruct t; simpl in *; destruct (m n r _ no_caps _); congruence.
  - simpl. destruct (m n r _ no_caps _); [discriminate|]. eapply IH; eassumption.
Qed.

(** [test] decides the existence of a match somewhere in the input. *)
Theorem test_iff r s :
  test r s = true <->
  exists p t s' c', s = p ++ t /\ den (length s) r t no_caps s' c'.
Proof.
  unfold test, exec. split.
  - destruct (exec_from (length s) r s) eqn:E; [|discriminate]. intros _.
    apply exec_from_sound in E as (p & t & s' & c' & -> & D & _).
    exists p, t, s', c'. auto.
  - intros (p & t & s' & c' & -> & D).
    apply exec_from_complete with (p := p) in D.
    destruct (exec_from _ r (p ++ t)); congruence.
Qed.

End RegExpFacts.
Import RegExpFacts.

(* ================================================================== *)
(** * What the patterns of the validator accept *)
(* ================================================================== *)

Module PatternFacts.
Import GitUrlValidator.

Ltac break :=
  repeat match goal with
         | H : exists _, _ |- _ => destruct H
         | H : _ /\ _ |- _ => destruct H
         | H : _ \/ _ |- _ => destruct H
         end.

(** A pattern that begins with [^] matches only from the start. *)
Lemma test_anchored (r : regex) (s : str) :
  test (Seq Bos r) s = true <-> exists s' c', den (length s) r s no_caps s' c'.
Proof.
  rewrite test_iff. simpl. split.
  - intros (p & t & s' & c' & -> & t0 & c1 & (L & -> & ->) & D).
    rewrite length_app in L. assert (length p = 0) by lia.
    destruct p; [|discriminate]. eauto.
  - intros (s' & c' & D). exists [], s, s', c'. split; [reflexivity|].
    exists s, no_caps. auto.
Qed.

Section Build.
Variable n : nat.

Lemma den_lit l r s c s' c' :
  den n r s c s' c' -> den n (Seq (Lit l) r) (l ++ s) c s' c'.
Proof. intros D. exists s, c. simpl. auto. Qed.

Lemma den_plus q cs x r s c s' c' :
  x <> [] -> forallb (cset_mem cs) x = true ->
  den n r s c s' c' -> den n (Seq (Plus q cs) r) (x ++ s) c s' c'.
Proof. intros N F D. exists s, c. split; [exists x|]; auto. Qed.

Lemma den_opt_skip a r s c s' c' :
  den n r s c s' c' -> den n (Seq (Opt a) r) s c s' c'.
Proof. intros D. exists s, c. simpl. auto. Qed.

Lemma den_opt_lit l r s c s' c' :
  den n r s c s' c' -> den n (Seq (Opt (Lit l)) r) (l ++ s) c s' c'.
Proof. intros D. exists s, c. simpl. auto. Qed.

Lemma den_eos c : den n Eos [] c [] c.
Proof. simpl. auto. Qed.

End Build.

Lemma word_run_lit (s : string) :
  lit s <> [] -> forallb (cset_mem wdd) (lit s) = true -> word_run (lit s).
Proof. split; assumption. Qed.

Ltac word_lit := apply word_run_lit; [discriminate | reflexivity].

Lemma TwoSegment_intro sch host a b u :
  u = sch ++ lit "://" ++ host ++ lit "/" ++ a ++ lit "/" ++ b ->
  is_scheme sch -> word_run host -> word_run a -> word_run b -> TwoSegment u.
Proof. intros. exists sch, host, a, b. auto. Qed.

Ltac scheme := first [left; reflexivity | right; reflexivity].
Ltac word := first [split; assumption | word_lit].

(** Close [TwoSegment u] for [u] in the shape an inverted match leaves
    it, given the scheme and, when it is literal, the first segment. *)
Ltac two_segment sch :=
  eapply (@TwoSegment_intro sch);
  [simpl; rewrite ?app_nil_r; reflexivity | scheme | word | word | word].
Ltac two_segment_at sch dir :=
  eapply (@TwoSegment_intro sch _ dir);
  [simpl; rewrite ?app_nil_r; reflexivity | scheme | word | word | word].

Lemma looksLike_TwoSegment u : looksLikeRepositoryUrl u = true -> TwoSegment u.
Proof.
  unfold looksLikeRepositoryUrl. rewrite existsb_exists.
  intros (r & Hr & T). simpl in Hr.
  destruct Hr as [<-|[<-|[<-|[<-|[<-|[]]]]]];
    apply test_anchored in T as (s' & c' & D); simpl in D; break; subst.
  - two_segment (lit "https").
  - two_segment (lit "http").
  - two_segment_at (lit "https") (lit "git").
  - two_segment_at (lit "http") (lit "git").
  - two_segment_at (lit "https") (lit "repos").
  - two_segment_at (lit "http") (lit "repos").
  - two_segment_at (lit "https") (lit "repo").
  - two_segment_at (lit "http") (lit "repo").
  - two_segment_at (lit "https") (lit "scm").
  - two_segment_at (lit "http") (lit "scm").
  - two_segment_at (lit "https") (lit "projects").
  - two_segment_at (lit "http") (lit "projects").
Qed.

Lemma TwoSegment_looksLike u : TwoSegment u -> looksLikeRepositoryUrl u = true.
Proof.
  intros (sch & host & a & b & Hs & (Nh & Fh) & (Na & Fa) & (Nb & Fb) & ->).
  unfold looksLikeRepositoryUrl, repoPatterns.
  cbn [existsb]. apply orb_true_iff. left.
  apply test_anchored.
  exists [], no_caps.
  rewrite <- (app_nil_r b).
  match goal with |- den _ _ ?u _ _ _ => set (input := u) end.
  cbv [repoPattern https cat app L tl]. subst input.
  destruct Hs as [-> | ->].
  - apply den_lit, den_opt_skip, den_lit, den_plus, den_lit, den_plus,
      den_lit, den_plus, den_eos; assumption.
  - change (lit "https") with (lit "http" ++ lit "s"). rewrite <- app_assoc.
    apply den_lit, den_opt_lit, den_lit, den_plus, den_lit, den_plus,
      den_lit, den_plus, den_eos; assumption.
Qed.

Lemma looksLike_iff u : looksLikeRepositoryUrl u = true <-> TwoSegment u.
Proof. split; [apply looksLike_TwoSegment | apply TwoSegment_looksLike]. Qed.

Lemma isKnownProvider_TwoSegment u : isKnownProvider u = true -> TwoSegment u.
Proof.
  unfold isKnownProvider. rewrite existsb_exists.
  intros (r & Hr & T). simpl in Hr.
  destruct Hr as [<-|[<-|[<-|[]]]];
    apply test_anchored in T as (s' & c' & D); simpl in D; break; subst.
  - eapply (@TwoSegment_intro (lit "https") (lit "github.com"));
      [simpl; rewrite ?app_nil_r; reflexivity | scheme | word | word | word].
  - eapply (@TwoSegment_intro (lit "http") (lit "github.com"));
      [simpl; rewrite ?app_nil_r; reflexivity | scheme | word | word | word].
  - eapply (@TwoSegment_intro (lit "https") (lit "gitlab.com"));
      [simpl; rewrite ?app_nil_r; reflexivity | scheme | word | word | word].
  - eapply (@TwoSegment_intro (lit "http") (lit "gitlab.com"));
      [simpl; rewrite ?app_nil_r; reflexivity | scheme | word | word | word].
  - eapply (@TwoSegment_intro (lit "https") (lit "bitbucket.org"));
      [simpl; rewrite ?app_nil_r; reflexivity | scheme | word | word | word].
  - eapply (@TwoSegment_intro (lit "http") (lit "bitbucket.org"));
      [simpl; rewrite ?app_nil_r; reflexivity | scheme | word | word | word].
Qed.

Lemma isKnownProvider_github owner repo :
  word_run owner -> word_run repo ->
  isKnownProvider (lit "https://github.com/" ++ owner ++ lit "/" ++ repo) = true.
Proof.
  intros (No & Fo) (Nr & Fr).
  unfold isKnownProvider, knownProviders.
  cbn [existsb]. apply orb_true_iff. left.
  apply test_anchored.
  exists [], no_caps.
  rewrite <- (app_nil_r repo).
  change (lit "https://github.com/")
    with (lit "http" ++ lit "s" ++ lit "://" ++ lit "github.com" ++ lit "/").
  rewrite <- !app_assoc.
  match goal with |- den _ _ ?u _ _ _ => set (input := u) end.
  cbv [provider https cat app L tl]. subst input.
  apply den_lit, den_opt_lit, den_lit, den_lit, den_lit, den_plus, den_lit,
    den_plus, den_eos; assumption.
Qed.

End PatternFacts.
Import PatternFacts.

(* ================================================================== *)
(** * Trimming and the removal of the trailing slash *)
(* ================================================================== *)

Module TrimFacts.
Import GitUrlValidator.

Lemma trimStart_fix s : head_ok s = true -> trimStart s = s.
Proof.
  destruct s as [|c s]; simpl; [reflexivity|].
  destruct (is_ws c); [discriminate | reflexivity].
Qed.

Lemma trimStart_head s : head_ok (trimStart s) = true.
Proof.
  induction s as [|c s IH]; simpl; [reflexivity|].
  destruct (is_ws c) eqn:E; [assumption|]. simpl. rewrite E. reflexivity.
Qed.

Lemma trimStart_suffix s : exists p, s = p ++ trimStart s.
Proof.
  induction s as [|c s [p IH]]; simpl.
  - exists []. reflexivity.
  - destruct (is_ws c).
    + exists (c :: p). simpl. congruence.
    + exists []. reflexivity.
Qed.

Lemma head_ok_prefix a b : a <> [] -> head_ok (a ++ b) = head_ok a.
Proof. destruct a; [contradiction | reflexivity]. Qed.

Lemma trim_fix s : clean s = true -> trim s = s.
Proof.
  unfold clean, trim, trimEnd. intros H. apply andb_true_iff in H as [H1 H2].
  rewrite (trimStart_fix _ H1), (trimStart_fix _ H2). apply rev_involutive.
Qed.

Lemma trim_clean s : clean (trim s) = true.
Proof.
  unfold clean, trim, trimEnd.
  set (u := trimStart s). set (w := trimStart (rev u)).
  rewrite rev_involutive. apply andb_true_iff. split.
  - destruct (trimStart_suffix (rev u)) as [p Hp]. fold w in Hp.
    assert (E : u = rev w ++ rev p).
    { rewrite <- (rev_involutive u), Hp, rev_app_distr. reflexivity. }
    destruct (rev w) as [|a r] eqn:Er; [reflexivity|].
    pose proof (trimStart_head s) as Hu. fold u in Hu. rewrite E in Hu.
    exact Hu.
  - apply trimStart_head.
Qed.

Lemma trim_idem s : trim (trim s) = trim s.
Proof. apply trim_fix, trim_clean. Qed.

(** The last code unit. *)
Lemma last_is_app p a c : last_is p (a ++ [c]) = p c.
Proof. unfold last_is. rewrite rev_app_distr. reflexivity. Qed.

Lemma last_is_app2 p a b : b <> [] -> last_is p (a ++ b) = last_is p b.
Proof.
  intros N. unfold last_is. rewrite rev_app_distr.
  destruct (rev b) eqn:E; [|reflexivity].
  apply (f_equal (@rev _)) in E. rewrite rev_involutive in E. contradiction.
Qed.

Lemma clean_ends s c r :
  s = c :: r -> is_ws c = false -> last_is is_ws s = false -> clean s = true.
Proof.
  intros -> Hc Hl. unfold clean, last_is in *. simpl in *. rewrite Hc. simpl.
  destruct (rev r ++ [c]) eqn:E; [reflexivity|]. simpl. rewrite Hl. reflexivity.
Qed.

Lemma chop_last s : last_is is_slash s = false -> chop s = s.
Proof.
  induction s as [|a s IH]; [reflexivity|].
  destruct s as [|b s].
  - unfold last_is, is_slash. simpl. intros ->. reflexivity.
  - intros H. change (chop (a :: b :: s)) with (a :: chop (b :: s)).
    rewrite IH; [reflexivity|].
    change (a :: b :: s) with ([a] ++ b :: s) in H.
    rewrite last_is_app2 in H by discriminate. assumption.
Qed.

Lemma chop_cases s : chop s = s \/ s = chop s ++ [ch "/"].
Proof.
  induction s as [|a s IH]; [left; reflexivity|].
  destruct s as [|b s].
  - cbn [chop]. destruct (N.eqb_spec a (ch "/")) as [->|]; [right|left]; reflexivity.
  - change (chop (a :: b :: s)) with (a :: chop (b :: s)).
    destruct IH as [-> | E]; [left; reflexivity|].
    right. cbn [app]. f_equal. exact E.
Qed.

Lemma exec_from_cons n r a s :
  exec_from n r (a :: s) =
  match m n r (a :: s) no_caps (whole (a :: s)) with
  | Some c => Some {| index := n - length (a :: s); groups := c |}
  | None => exec_from n r s
  end.
Proof. reflexivity. Qed.

Lemma m_trailing_slash n s c k :
  m n trailing_slash s c k =
  match s with
  | [x] => if N.eqb (ch "/") x then k [] c else None
  | _ => None
  end.
Proof.
  destruct s as [|x [|y s]]; try reflexivity;
    cbn [m trailing_slash cat L lit List.map list_ascii_of_string lit_match];
    change (N_of_ascii "/") with (ch "/");
    destruct (N.eqb (ch "/") x); reflexivity.
Qed.

(** What the pattern [\/$] finds. *)
Lemma exec_from_trailing_slash n s :
  exec_from n trailing_slash s =
  if last_is is_slash s
  then Some {| index := n - 1; groups := set_cap 0 [ch "/"] no_caps |}
  else None.
Proof.
  induction s as [|a s IH]; [reflexivity|].
  rewrite exec_from_cons, m_trailing_slash, IH.
  destruct s as [|b s].
  - unfold last_is, is_slash. cbn [rev app].
    rewrite N.eqb_sym. destruct (N.eqb_spec a (ch "/")) as [->|]; reflexivity.
  - change (a :: b :: s) with ([a] ++ b :: s).
    rewrite last_is_app2 by discriminate. reflexivity.
Qed.

Lemma firstn_all_but_last (s : str) c :
  firstn (length (s ++ [c]) - 1) (s ++ [c]) = s.
Proof.
  rewrite length_app. simpl. replace (length s + 1 - 1) with (length s) by lia.
  rewrite firstn_app, Nat.sub_diag, firstn_all. simpl. apply app_nil_r.
Qed.

Lemma chop_slash s : last_is is_slash s = true -> s = chop s ++ [ch "/"].
Proof.
  induction s as [|a s IH]; [discriminate|].
  destruct s as [|b s].
  - unfold last_is, is_slash. cbn [rev app chop].
    destruct (N.eqb_spec a (ch "/")) as [->|]; [reflexivity | discriminate].
  - intros H. change (a :: b :: s) with ([a] ++ b :: s) in H.
    rewrite last_is_app2 in H by discriminate.
    change (chop (a :: b :: s)) with (a :: chop (b :: s)).
    cbn [app]. f_equal. apply IH. assumption.
Qed.

(** [replace(/\/$/, '')] removes one trailing slash. *)
Lemma replace_trailing_slash s : replace s trailing_slash [] = chop s.
Proof.
  unfold replace, exec. rewrite exec_from_trailing_slash.
  destruct (last_is is_slash s) eqn:E.
  - apply chop_slash in E.
    unfold group. cbn [index groups set_cap Nat.eqb app length].
    rewrite skipn_all2 by lia. rewrite app_nil_r.
    rewrite E at 1 2. apply firstn_all_but_last.
  - symmetry. apply chop_last. assumption.
Qed.

End TrimFacts.
Import TrimFacts.

(* ================================================================== *)
(** * GitUrlValidator.normalize *)
(* ================================================================== *)

Module NormalizeFacts.
Import GitUrlValidator.

Lemma normalize_unfold x :
  normalize x =
  let t := trim x in
  if is_ssh_or_git t then t
  else if is_http t then
         let c := chop t in
         if endsWith c (lit ".git") then c
         else if isKnownProvider c then c ++ lit ".git"
         else if looksLikeRepositoryUrl c then c ++ lit ".git"
         else c
       else t.
Proof.
  unfold normalize, is_ssh_or_git, is_http.
  rewrite replace_trailing_slash. reflexivity.
Qed.

Lemma is_http_head t :
  is_http t = true -> exists r, t = ch "h" :: ch "t" :: r.
Proof.
  unfold is_http. intros H. apply orb_true_iff in H.
  destruct H as [H | H]; apply startsWith_iff in H as [r ->]; eexists;
    reflexivity.
Qed.

Lemma head_h_not_ssh r : is_ssh_or_git (ch "h" :: r) = false.
Proof. reflexivity. Qed.

Lemma last_is_or p q s :
  last_is (fun c => p c || q c) s = last_is p s || last_is q s.
Proof. unfold last_is. destruct (rev s); reflexivity. Qed.

Lemma last_is_dot_git p a : last_is p (a ++ lit ".git") = p (ch "t").
Proof. rewrite last_is_app2 by discriminate. reflexivity. Qed.

(** A text that [normalize] leaves as it is. *)
Lemma normalize_fix y r :
  y = ch "h" :: r ->
  last_is is_ws y = false -> last_is is_slash y = false ->
  endsWith y (lit ".git") = true \/
  (isKnownProvider y = false /\ looksLikeRepositoryUrl y = false) ->
  normalize y = y.
Proof.
  intros Hy Hw Hs Hc. rewrite normalize_unfold.
  rewrite (trim_fix y) by (eapply clean_ends; [exact Hy | reflexivity | exact Hw]).
  cbv zeta. rewrite (chop_last _ Hs).
  rewrite Hy at 1. rewrite head_h_not_ssh.
  destruct (is_http y); [|reflexivity].
  destruct Hc as [-> | [-> ->]]; [reflexivity|].
  destruct (endsWith y (lit ".git")); reflexivity.
Qed.

Lemma normalize_of_trimmed t :
  clean t = true -> (is_ssh_or_git t = true \/ is_http t = false) ->
  normalize t = t.
Proof.
  intros Hc H. rewrite normalize_unfold, (trim_fix _ Hc). cbv zeta.
  destruct (is_ssh_or_git t); [reflexivity|].
  destruct H as [H | ->]; [discriminate | reflexivity].
Qed.

(** The only texts that start with [http://] or [https://] and lose
    that start with their final slash. *)
Lemma chop_keeps_prefix p t :
  startsWith t p = true -> startsWith (chop t) p = false -> t = p.
Proof.
  intros Ht Hc. destruct (chop_cases t) as [E | E]; [congruence|].
  apply startsWith_iff in Ht as [q Hq].
  destruct q as [|z q _] using rev_ind; [rewrite Hq; apply app_nil_r|].
  exfalso. rewrite Hq in E at 1. rewrite app_assoc in E.
  apply app_inj_tail in E as [E _].
  assert (X : startsWith (chop t) p = true)
    by (apply startsWith_iff; exists q; symmetry; exact E).
  congruence.
Qed.

Lemma chop_http t :
  is_http t = true -> is_http (chop t) = false ->
  chop t = lit "http:/" \/ chop t = lit "https:/".
Proof.
  unfold is_http. intros Ht Hc. apply orb_false_iff in Hc as [Hc1 Hc2].
  apply orb_true_iff in Ht as [Ht | Ht].
  - left. rewrite (chop_keeps_prefix _ _ Ht Hc1). reflexivity.
  - right. rewrite (chop_keeps_prefix _ _ Ht Hc2). reflexivity.
Qed.

(** [normalize] applied twice is [normalize], unless the first pass
    leaves an [http] or [https] URL with a slash or white space at the
    end. *)
Lemma normalize_twice x :
  is_http (normalize x)
  && last_is (fun c => is_slash c || is_ws c) (normalize x) = false ->
  normalize (normalize x) = normalize x.
Proof.
  rewrite (normalize_unfold x). cbv zeta.
  pose proof (trim_clean x) as Hc. set (t := trim x) in *.
  destruct (is_ssh_or_git t) eqn:Es.
  { intros _. apply normalize_of_trimmed; auto. }
  destruct (is_http t) eqn:Eh.
  2:{ intros _. apply normalize_of_trimmed; auto. }
  destruct (is_http_head _ Eh) as [r Ht].
  assert (Hchop : chop t = ch "h" :: chop (ch "t" :: r)) by (rewrite Ht; reflexivity).
  pose proof (chop_http t Eh) as Hlost.
  set (c := chop t) in *.
  destruct (endsWith c (lit ".git")) eqn:Eg.
  { intros _. pose proof Eg as Eg'. apply endsWith_iff in Eg' as [q Hq].
    eapply normalize_fix; [exact Hchop | | | left; exact Eg];
      rewrite Hq; apply last_is_dot_git. }
  assert (Hgit : forall r', c ++ lit ".git" = ch "h" :: r' ->
                 normalize (c ++ lit ".git") = c ++ lit ".git").
  { intros r' Hr'. eapply normalize_fix; [exact Hr' | | | left].
    - apply last_is_dot_git.
    - apply last_is_dot_git.
    - apply endsWith_iff. eauto. }
  destruct (isKnownProvider c) eqn:Ek.
  { intros _. eapply Hgit. rewrite Hchop. reflexivity. }
  destruct (looksLikeRepositoryUrl c) eqn:El.
  { intros _. eapply Hgit. rewrite Hchop. reflexivity. }
  intros H. apply andb_false_iff in H as [H | H].
  - destruct (Hlost H) as [-> | ->]; vm_compute; reflexivity.
  - rewrite last_is_or in H. apply orb_false_iff in H as [Hs Hw].
    eapply normalize_fix; eauto.
Qed.

Lemma trimStart_length s : length (trimStart s) <= length s.
Proof.
  induction s as [|c s IH]; simpl; [lia|]. destruct (is_ws c); simpl; lia.
Qed.

Lemma trim_length s : length (trim s) <= length s.
Proof.
  unfold trim, trimEnd. rewrite length_rev.
  pose proof (trimStart_length (rev (trimStart s))) as H1.
  pose proof (trimStart_length s) as H2. rewrite length_rev in H1. lia.
Qed.

(** [trim] shortens a text that ends in white space. *)
Lemma trim_shorter s : last_is is_ws s = true -> length (trim s) < length s.
Proof.
  intros H. unfold trim, trimEnd. rewrite length_rev.
  destruct (trimStart_suffix s) as [p Hp].
  pose proof (trimStart_length s) as Hle.
  destruct (trimStart s) as [|a u] eqn:Eu.
  - simpl. destruct s; [discriminate H | simpl; lia].
  - assert (Hl : last_is is_ws (a :: u) = true).
    { rewrite Hp in H. rewrite last_is_app2 in H by discriminate. exact H. }
    unfold last_is in Hl. destruct (rev (a :: u)) as [|z w] eqn:Er;
      [discriminate Hl|].
    assert (Hlen : length (z :: w) = length (a :: u))
      by (rewrite <- Er; apply length_rev).
    cbn [trimStart]. rewrite Hl.
    pose proof (trimStart_length w) as Hw. simpl in Hlen. simpl in Hle. lia.
Qed.

Lemma chop_length s : length (chop s) <= length s.
Proof.
  destruct (chop_cases s) as [-> | E]; [lia|].
  rewrite E at 2. rewrite length_app. lia.
Qed.

(** An [http] or [https] URL that ends in a slash or in white space is
    changed by [normalize]. *)
Lemma normalize_moves r :
  is_http r = true ->
  last_is (fun c => is_slash c || is_ws c) r = true ->
  normalize r <> r.
Proof.
  intros Hh Hl. rewrite last_is_or in Hl.
  destruct (last_is is_ws r) eqn:Hw.
  - (* white space at the end: the result is shorter, or ends in [t] *)
    pose proof (trim_shorter r Hw) as Hlen.
    pose proof (chop_length (trim r)) as Hc.
    rewrite normalize_unfold. cbv zeta.
    assert (Hgit : chop (trim r) ++ lit ".git" <> r).
    { intros E. rewrite <- E, last_is_dot_git in Hw. discriminate Hw. }
    assert (Ht : trim r <> r) by (intros E; rewrite E in Hlen; lia).
    assert (Hch : chop (trim r) <> r) by (intros E; rewrite E in Hc; lia).
    destruct (is_ssh_or_git (trim r)); [exact Ht|].
    destruct (is_http (trim r)); [|exact Ht].
    destruct (endsWith _ _); [exact Hch|].
    destruct (isKnownProvider _); [exact Hgit|].
    destruct (looksLikeRepositoryUrl _); [exact Hgit | exact Hch].
  - (* a slash at the end: it is removed *)
    rewrite orb_false_r in Hl.
    destruct (is_http_head _ Hh) as [q Hq].
    rewrite normalize_unfold. cbv zeta.
    rewrite (trim_fix r) by (eapply clean_ends; [exact Hq | reflexivity | exact Hw]).
    rewrite Hq at 1. rewrite head_h_not_ssh, Hh.
    pose proof (chop_slash r Hl) as E.
    assert (Hch : chop r <> r).
    { intros E'. rewrite E' in E. apply (f_equal (@length _)) in E.
      rewrite length_app in E. simpl in E. lia. }
    assert (Hgit : chop r ++ lit ".git" <> r).
    { intros E'. rewrite E in E' at 2. apply app_inv_head in E'.
      discriminate E'. }
    destruct (endsWith _ _); [exact Hch|].
    destruct (isKnownProvider _); [exact Hgit|].
    destruct (looksLikeRepositoryUrl _); [exact Hgit | exact Hch].
Qed.

Lemma wdd_cases c :
  cset_mem wdd c = true ->
  ((65 <= c <= 90) \/ (97 <= c <= 122) \/ (48 <= c <= 57) \/ c = 95
   \/ c = 45 \/ c = 46)%N.
Proof.
  unfold cset_mem, wdd. cbn [negated items existsb item_mem xorb].
  change (ch "-") with 45%N. change (ch ".") with 46%N. unfold is_word.
  rewrite !orb_true_iff, !andb_true_iff, !N.leb_le, !N.eqb_eq.
  intros [[[[H | H] | H] | H] | [H | [H | H]]]; try discriminate; lia.
Qed.

Lemma wdd_not_ws c : cset_mem wdd c = true -> is_ws c = false.
Proof.
  intros H. apply wdd_cases in H. apply not_true_is_false. unfold is_ws.
  rewrite !orb_true_iff, !andb_true_iff, !N.leb_le, !N.eqb_eq. lia.
Qed.

Lemma wdd_not_slash c : cset_mem wdd c = true -> is_slash c = false.
Proof.
  intros H. apply wdd_cases in H. apply not_true_is_false.
  unfold is_slash. change (ch "/") with 47%N. rewrite N.eqb_eq. lia.
Qed.

Lemma word_run_last p x :
  word_run x -> (forall c, cset_mem wdd c = true -> p c = false) ->
  last_is p x = false.
Proof.
  intros [N F] H. unfold last_is.
  destruct (rev x) as [|c r] eqn:E; [reflexivity|].
  apply H. rewrite forallb_forall in F. apply F.
  apply in_rev. rewrite E. left. reflexivity.
Qed.

Lemma normalize_github_url owner repo :
  word_run owner -> word_run repo ->
  endsWith (github_url owner repo) (lit ".git") = false ->
  normalize (github_url owner repo) = github_url owner repo ++ lit ".git".
Proof.
  intros Ho Hr Hg. rewrite normalize_unfold.
  assert (Hw : last_is is_ws (github_url owner repo) = false).
  { unfold github_url. rewrite !app_assoc. rewrite last_is_app2 by apply Hr.
    apply word_run_last; [assumption | apply wdd_not_ws]. }
  assert (Hs : last_is is_slash (github_url owner repo) = false).
  { unfold github_url. rewrite !app_assoc. rewrite last_is_app2 by apply Hr.
    apply word_run_last; [assumption | apply wdd_not_slash]. }
  rewrite (trim_fix (github_url owner repo))
    by (eapply clean_ends; [reflexivity | reflexivity | exact Hw]).
  cbv zeta. rewrite (chop_last _ Hs), Hg.
  change (is_ssh_or_git (github_url owner repo)) with false.
  change (is_http (github_url owner repo)) with true. cbv iota.
  unfold github_url at 1. rewrite isKnownProvider_github by assumption.
  reflexivity.
Qed.

End NormalizeFacts.
Import NormalizeFacts.

(* ================================================================== *)
(** * GitUrlValidator.extractRepositoryName *)
(* ================================================================== *)

Module NameFacts.
Import GitUrlValidator.

Lemma not_slash_iff c : cset_mem not_slash c = true <-> c <> ch "/".
Proof.
  unfold cset_mem, not_slash. cbn [negated items existsb item_mem].
  rewrite xorb_true_l, orb_false_r, negb_true_iff, N.eqb_neq. split; congruence.
Qed.

Lemma not_slash_colon_not_slash c :
  cset_mem not_slash_colon c = true -> c <> ch "/".
Proof.
  unfold cset_mem, not_slash_colon. cbn [negated items existsb item_mem].
  rewrite xorb_true_l, negb_true_iff, !orb_false_iff, N.eqb_neq.
  intros [H _]. congruence.
Qed.

Lemma slash_free_iff x :
  forallb (cset_mem not_slash) x = true <-> ~ In (ch "/") x.
Proof.
  rewrite forallb_forall. split.
  - intros H I. apply H in I. apply not_slash_iff in I. congruence.
  - intros H c I. apply not_slash_iff. intros ->. contradiction.
Qed.

Lemma firstn_consumed (x s' : str) :
  firstn (length (x ++ s') - length s') (x ++ s') = x.
Proof.
  rewrite length_app. replace (length x + length s' - length s') with (length x) by lia.
  rewrite firstn_app, Nat.sub_diag, firstn_all. simpl. apply app_nil_r.
Qed.

(** A match of [url_name] is a slash, a non-empty run without slash (the
    captured name), then [.git] or not, then a slash or not, at the end. *)
Lemma url_name_shape url mr :
  exec url_name url = Some mr ->
  exists p x g sl,
    url = p ++ lit "/" ++ x ++ g ++ sl /\
    x <> [] /\ ~ In (ch "/") x /\
    (g = [] \/ g = lit ".git") /\ (sl = [] \/ sl = lit "/") /\
    group mr 1 = x.
Proof.
  unfold exec. intros H.
  apply exec_from_sound in H as (p & t & s' & c' & -> & D & Hi & Hg).
  unfold group. rewrite Hg. clear Hg Hi. simpl in D. break; subst;
    cbn [set_cap Nat.eqb]; rewrite firstn_consumed;
    match goal with
    | Hn : ?x <> [], Hf : forallb _ ?x = true |- _ =>
        apply slash_free_iff in Hf;
        first [ solve [exists p, x, (lit ".git"), (lit "/"); repeat split; auto]
              | solve [exists p, x, [], (lit "/"); repeat split; auto]
              | solve [exists p, x, (lit ".git"), []; repeat split; auto]
              | solve [exists p, x, [], []; repeat split; auto] ]
    end.
Qed.

(** The registers the source reads are set by every match of their
    pattern, so [group] never meets an unset one there. *)
Lemma name_groups_defined url mr :
  (exec ssh_name url = Some mr -> groups mr 2 <> None) /\
  (exec url_name url = Some mr -> groups mr 1 <> None) /\
  (exec path_name url = Some mr -> groups mr 1 <> None).
Proof.
  unfold exec. split; [|split]; intros H;
    apply exec_from_sound in H as (p & t & s' & c' & -> & D & Hi & Hg);
    rewrite Hg; clear Hg Hi; simpl in D; break; subst;
    cbn [set_cap Nat.eqb]; discriminate.
Qed.

Lemma ssh_name_no_slash url mr :
  exec ssh_name url = Some mr -> ~ In (ch "/") (group mr 2).
Proof.
  unfold exec. intros H.
  apply exec_from_sound in H as (p & t & s' & c' & -> & D & Hi & Hg).
  unfold group. rewrite Hg. clear Hg Hi. simpl in D. break; subst;
    cbn [set_cap Nat.eqb]; rewrite firstn_consumed;
    apply slash_free_iff; assumption.
Qed.

Lemma path_name_no_slash url mr :
  exec path_name url = Some mr -> ~ In (ch "/") (group mr 1).
Proof.
  unfold exec. intros H.
  apply exec_from_sound in H as (p & t & s' & c' & -> & D & Hi & Hg).
  unfold group. rewrite Hg. clear Hg Hi. simpl in D. break; subst;
    cbn [set_cap Nat.eqb]; rewrite firstn_consumed;
    match goal with H : forallb _ _ = true |- _ =>
      rewrite forallb_forall in H; intros I; apply H in I;
      apply not_slash_colon_not_slash in I; congruence end.
Qed.

(** The name never contains a slash. *)
Lemma extractRepositoryName_no_slash url :
  ~ In (ch "/") (extractRepositoryName url).
Proof.
  unfold extractRepositoryName.
  destruct (includes url (lit "@") && includes url (lit ":")
            && negb (includes url (lit "://"))).
  - destruct (exec ssh_name url) eqn:E1; [eapply ssh_name_no_slash; eassumption|].
    destruct (exec url_name url) eqn:E2.
    { apply url_name_shape in E2 as (p & x & g & sl & _ & _ & H & _ & _ & ->).
      assumption. }
    destruct (exec path_name url) eqn:E3; [eapply path_name_no_slash; eassumption|].
    simpl. intuition discriminate.
  - destruct (exec url_name url) eqn:E2.
    { apply url_name_shape in E2 as (p & x & g & sl & _ & _ & H & _ & _ & ->).
      assumption. }
    destruct (exec path_name url) eqn:E3; [eapply path_name_no_slash; eassumption|].
    simpl. intuition discriminate.
Qed.

Lemma first_split (c : char) : forall x y l l',
  ~ In c x -> ~ In c y -> x ++ c :: l = y ++ c :: l' -> x = y.
Proof.
  induction x as [|a x IH]; intros [|b y] l l' Hx Hy E; simpl in *.
  - reflexivity.
  - injection E as <- _. tauto.
  - injection E as -> _. tauto.
  - injection E as -> E. f_equal. eapply IH; eauto.
Qed.

(** The text after the last occurrence of [c] is determined. *)
Lemma last_split (c : char) a b a' b' :
  ~ In c b -> ~ In c b' -> a ++ c :: b = a' ++ c :: b' -> b = b'.
Proof.
  intros Hb Hb' E. apply (f_equal (@rev _)) in E.
  rewrite !rev_app_distr in E. simpl in E. rewrite <- !app_assoc in E.
  simpl in E. apply first_split in E.
  - rewrite <- (rev_involutive b), E. apply rev_involutive.
  - rewrite <- in_rev. assumption.
  - rewrite <- in_rev. assumption.
Qed.

Lemma includes_app a p b : includes (a ++ p ++ b) p = true.
Proof.
  induction a as [|x a IH].
  - assert (H : startsWith (p ++ b) p = true) by (apply startsWith_iff; eauto).
    simpl. destruct (p ++ b); simpl; rewrite H; reflexivity.
  - simpl. rewrite IH. apply orb_true_r.
Qed.

Lemma last_is_slash_free seg :
  ~ In (ch "/") seg -> last_is is_slash seg = false.
Proof.
  intros H. unfold last_is. destruct (rev seg) as [|c r] eqn:E; [reflexivity|].
  unfold is_slash. apply N.eqb_neq. intros ->. apply H, in_rev.
  rewrite E. left. reflexivity.
Qed.

Lemma url_name_den n seg :
  seg <> [] -> ~ In (ch "/") seg ->
  exists c', den n url_name (lit "/" ++ seg) no_caps [] c'.
Proof.
  intros Hne Hsf. eexists. cbv [url_name cat L].
  apply den_lit. exists [], (set_cap 1 (firstn (length seg - 0) seg) no_caps).
  split.
  - eexists. split; [|reflexivity]. exists seg.
    rewrite app_nil_r. repeat split; auto. apply slash_free_iff. assumption.
  - apply den_opt_skip, den_opt_skip, den_eos.
Qed.

(** For a URL with [://] whose text after the last slash is not empty
    and does not end in [.git], the name is that text. *)
Lemma extractRepositoryName_last_segment pre seg :
  includes (pre ++ lit "/" ++ seg) (lit "://") = true ->
  seg <> [] -> ~ In (ch "/") seg -> endsWith seg (lit ".git") = false ->
  extractRepositoryName (pre ++ lit "/" ++ seg) = seg.
Proof.
  intros Hi Hne Hsf Hg. unfold extractRepositoryName.
  rewrite Hi. cbn [negb]. rewrite andb_false_r.
  destruct (exec url_name (pre ++ lit "/" ++ seg)) as [mr|] eqn:E.
  - apply url_name_shape in E
      as (p & x & g & sl & E & Hx & Hxs & Hgs & Hsl & ->).
    assert (Hlast : last_is is_slash (pre ++ lit "/" ++ seg) = false).
    { rewrite app_assoc, last_is_app2 by assumption.
      apply last_is_slash_free. assumption. }
    destruct Hsl as [-> | ->].
    2:{ rewrite E in Hlast. change (lit "/") with [ch "/"] in Hlast.
        rewrite !app_assoc, last_is_app in Hlast. discriminate. }
    rewrite app_nil_r in E. change (lit "/") with [ch "/"] in E.
    cbn [app] in E. apply last_split in E; [| assumption |].
    + destruct Hgs as [-> | ->].
      * rewrite app_nil_r in E. congruence.
      * exfalso. assert (endsWith seg (lit ".git") = true)
          by (apply endsWith_iff; eauto). congruence.
    + destruct Hgs as [-> | ->].
      * rewrite app_nil_r. assumption.
      * intros I. apply in_app_or in I as [I | I]; [contradiction|].
        simpl in I. intuition discriminate.
  - exfalso. revert E. unfold exec.
    destruct (url_name_den (length (pre ++ lit "/" ++ seg)) Hne Hsf) as [c' D].
    eapply exec_from_complete. exact D.
Qed.

Lemma bare_host_name sch host :
  host <> [] -> ~ In (ch "/") host -> endsWith host (lit ".git") = false ->
  extractRepositoryName (sch ++ lit "://" ++ host) = host.
Proof.
  intros. change (lit "://") with (lit ":/" ++ lit "/").
  rewrite <- app_assoc, app_assoc.
  apply extractRepositoryName_last_segment; auto.
  rewrite <- !app_assoc. rewrite (app_assoc (lit ":/")).
  apply includes_app.
Qed.

End NameFacts.
Import NameFacts.

(* ================================================================== *)
(** * ProjectFileDetector.detect *)
(* ================================================================== *)

Module DetectFacts.
Import ProjectFilePatterns ProjectFileDetector.

Lemma fold_push {A} (keep : A -> bool) (f : A -> str) (l : list A) :
  forall acc : list str,
    fold_left (fun acc x => if keep x then acc ++ [f x] else acc) l acc =
    acc ++ List.map f (filter keep l).
Proof.
  induction l as [|x l IH]; intros acc; simpl.
  - symmetry. apply app_nil_r.
  - rewrite IH. destruct (keep x); [|reflexivity].
    simpl. rewrite <- app_assoc. reflexivity.
Qed.

Lemma fold_left_same {A B} (f g : A -> B -> A) (l : list B) :
  (forall a b, f a b = g a b) ->
  forall a, fold_left f l a = fold_left g l a.
Proof.
  intros E. induction l as [|x l IH]; intros a; simpl; [reflexivity|].
  rewrite E. apply IH.
Qed.

Lemma checkFiles_filter items acc :
  checkFiles items acc = acc ++ filter (array_includes items) COMMON_FILES.
Proof.
  unfold checkFiles.
  rewrite (fold_push (array_includes items) (fun f => f)), map_id. reflexivity.
Qed.

Lemma checkDirectories_filter host p items acc :
  checkDirectories host p items acc =
  acc ++ List.map (fun d => d ++ lit "/")
           (filter (fun d => array_includes items d
                             && is_directory host (path_join host p d))
              COMMON_DIRECTORIES).
Proof.
  unfold checkDirectories.
  rewrite <- (fold_push _ (fun d => d ++ lit "/")).
  apply fold_left_same. intros acc' d. unfold is_directory.
  destruct (array_includes items d); [|reflexivity].
  destruct (statSync host (path_join host p d)) as [st|]; [|reflexivity].
  destruct (isDirectory st); reflexivity.
Qed.

(** The markers [detect] reports for a directory it could list. *)
Lemma detect_listed host p items :
  readdirSync host p = Ok items ->
  detect host p =
  Ok (let found :=
        filter (array_includes items) COMMON_FILES ++
        List.map (fun d => d ++ lit "/")
          (filter (fun d => array_includes items d
                            && is_directory host (path_join host p d))
             COMMON_DIRECTORIES) in
      {| hasCommonFiles := 0 <? length found; detectedFiles := found |}).
Proof.
  intros H. unfold detect. rewrite H. cbn [bind try_catch].
  rewrite checkDirectories_filter, checkFiles_filter. reflexivity.
Qed.

Lemma detect_unlisted host p e :
  readdirSync host p = Throw e ->
  detect host p = Ok {| hasCommonFiles := true; detectedFiles := [] |}.
Proof. intros H. unfold detect. rewrite H. reflexivity. Qed.

(** [detect] never throws. *)
Lemma detect_returns host p : exists r, detect host p = Ok r.
Proof.
  destruct (readdirSync host p) as [items|e] eqn:E.
  - rewrite (detect_listed _ _ E). eauto.
  - rewrite (detect_unlisted _ _ E). eauto.
Qed.

End DetectFacts.
Import DetectFacts.

(* ================================================================== *)
(** * CloneLocationResolver *)
(* ================================================================== *)

Module ResolveFacts.
Import CloneLocationResolver.

(** The loop stops at the first candidate that does not exist, given
    fuel for that many tests. *)
Lemma probe_first_free host repository root : forall k j fuel,
  (forall i, j <= i < j + k ->
             existsSync host (candidate host root repository i) = true) ->
  existsSync host (candidate host root repository (j + k)) = false ->
  k < fuel ->
  probe host fuel repository root (candidate host root repository j) (S j) =
  Some (candidate host root repository (j + k)).
Proof.
  induction k as [|k IH]; intros j fuel Hex Hfree Hfuel;
    (destruct fuel as [|fuel]; [lia|]); cbn [probe].
  - rewrite Nat.add_0_r in Hfree. rewrite Hfree. rewrite Nat.add_0_r. reflexivity.
  - rewrite (Hex j) by lia.
    change (path_join host root (name repository ++ lit "-" ++ decimal (S j)))
      with (candidate host root repository (S j)).
    rewrite (IH (S j) fuel).
    + f_equal. f_equal. lia.
    + intros i Hi. apply Hex. lia.
    + replace (S j + k) with (j + S k) by lia. assumption.
    + lia.
Qed.

Lemma resolveForExistingProject_first_free host repository root k fuel :
  (forall i, i < k ->
             existsSync host (candidate host root repository i) = true) ->
  existsSync host (candidate host root repository k) = false ->
  k < fuel ->
  resolveForExistingProject host fuel repository root =
  Some {| targetPath := candidate host root repository k;
          cloneToRoot := false;
          message := lit "Cloning " ++ name repository
                       ++ lit " to new folder (avoiding conflicts)" |}.
Proof.
  intros Hex Hfree Hfuel. unfold resolveForExistingProject.
  change (path_join host root (name repository))
    with (candidate host root repository 0).
  rewrite (@probe_first_free host repository root k 0 fuel); auto.
  intros i Hi. apply Hex. lia.
Qed.

End ResolveFacts.
Import ResolveFacts.

(* ================================================================== *)
(** * GitCloneService.clone *)
(* ================================================================== *)

Module CloneFacts.
Import GitCloneService.

Lemma settle_not_rejected {A} (p : promise A) (v : A) e :
  (forall e', p <> Rejected e') -> settle p v <> Rejected e.
Proof.
  intros H. destruct p; simpl; try discriminate. apply H.
Qed.

Section Handlers.
Variables (repository : GitRepository) (location : CloneLocation) (tp : str).

(** While only output arrives, the promise stays pending and standard
    error accumulates. *)
Lemma fold_data : forall evs acc,
  forallb is_data evs = true ->
  fold_left (handle repository location tp) evs {| errorOutput := acc; settled := Pending |} =
  {| errorOutput := acc ++ stderr_of evs; settled := Pending |}.
Proof.
  induction evs as [|ev evs IH]; intros acc H; simpl.
  - rewrite app_nil_r. reflexivity.
  - simpl in H. apply andb_true_iff in H as [Hd H].
    destruct ev; try discriminate; cbn [handle errorOutput settled].
    + apply IH. assumption.
    + rewrite IH by assumption. rewrite <- app_assoc. reflexivity.
Qed.

(** A settled promise stays as it is. *)
Lemma settled_sticky : forall evs st v,
  settled st = Fulfilled v ->
  settled (fold_left (handle repository location tp) evs st) = Fulfilled v.
Proof.
  induction evs as [|ev evs IH]; intros st v H; simpl; [assumption|].
  apply IH. destruct ev; cbn [handle settled]; rewrite ?H; reflexivity.
Qed.

(** The promise is fulfilled or pending, never rejected. *)
Lemma never_rejected : forall evs st e,
  (forall e', settled st <> Rejected e') ->
  settled (fold_left (handle repository location tp) evs st) <> Rejected e.
Proof.
  induction evs as [|ev evs IH]; intros st e H; simpl; [apply H|].
  apply IH. intros e'.
  destruct ev; cbn [handle settled];
    first [apply H | apply settle_not_rejected; exact H].
Qed.

End Handlers.

Lemma clone_unfold host repository location tp :
  clone host repository location tp =
  match spawn host (lit "git")
          (fst (prepareGitCommand host repository location tp))
          (snd (prepareGitCommand host repository location tp)) with
  | Throw e => Rejected e
  | Ok gitProcess =>
      settled
        (fold_left (handle repository location tp) gitProcess
           {| errorOutput := []; settled := Pending |})
  end.
Proof.
  unfold clone. destruct (prepareGitCommand host repository location tp).
  reflexivity.
Qed.

(** Once [spawn] has returned a process, the promise is settled by the
    events alone. *)
Lemma clone_spawned host repository location tp events :
  spawn host (lit "git")
    (fst (prepareGitCommand host repository location tp))
    (snd (prepareGitCommand host repository location tp)) = Ok events ->
  clone host repository location tp =
  settled
    (fold_left (handle repository location tp) events
       {| errorOutput := []; settled := Pending |}).
Proof. intros H. rewrite clone_unfold, H. reflexivity. Qed.

Lemma clone_not_rejected host repository location tp events e :
  spawn host (lit "git")
    (fst (prepareGitCommand host repository location tp))
    (snd (prepareGitCommand host repository location tp)) = Ok events ->
  clone host repository location tp <> Rejected e.
Proof.
  intros H. rewrite (clone_spawned _ _ _ _ H). apply never_rejected.
  discriminate.
Qed.

Lemma Contains_suffix (a b : str) : Contains (a ++ b) b.
Proof. exists a, []. rewrite app_nil_r. reflexivity. Qed.

End CloneFacts.
Import CloneFacts.

(* ================================================================== *)
(** * ClipboardMonitor *)
(* ================================================================== *)

Module MonitorFacts.
Import GitUrlValidator.

Section AnyCallbacks.
Variable St : Type.
Variable onRepositoryDetected : GitRepository -> St -> St * result unit.
Variable onNoRepository : St -> St * result unit.

(** With callbacks that return normally, a tick invokes one callback. *)
Lemma tick_one_call clipboard st :
  (forall repository s, snd (onRepositoryDetected repository s) = Ok tt) ->
  (forall s, snd (onNoRepository s) = Ok tt) ->
  calls (ClipboardMonitor.checkClipboard onRepositoryDetected onNoRepository
           clipboard st) =
  [notification_of clipboard].
Proof.
  intros Hd Hn.
  unfold ClipboardMonitor.checkClipboard, ClipboardMonitor.callDetected,
    ClipboardMonitor.callNone, calls, notification_of.
  destruct clipboard as [clipboardText|e].
  - destruct (negb (falsy clipboardText) && isValid clipboardText).
    + specialize (Hd (createRepository clipboardText) st).
      destruct (onRepositoryDetected (createRepository clipboardText) st)
        as [st1 r]. simpl in Hd. subst r. reflexivity.
    + specialize (Hn st). destruct (onNoRepository st) as [st1 r].
      simpl in Hn. subst r. reflexivity.
  - specialize (Hn st). destruct (onNoRepository st) as [st1 r]. reflexivity.
Qed.

(** The call of the detection callback is inside the [try] block: when
    it throws, the [catch] block invokes the other callback as well. *)
Remark tick_detection_throws clipboardText st st1 e :
  negb (falsy clipboardText) && isValid clipboardText = true ->
  onRepositoryDetected (createRepository clipboardText) st = (st1, Throw e) ->
  calls (ClipboardMonitor.checkClipboard onRepositoryDetected onNoRepository
           (Ok clipboardText) st) =
  [RepositoryDetected (createRepository clipboardText); NoRepository].
Proof.
  intros Hr Ht.
  unfold ClipboardMonitor.checkClipboard, ClipboardMonitor.callDetected,
    ClipboardMonitor.callNone, calls.
  rewrite Hr, Ht. destruct (onNoRepository st1). reflexivity.
Qed.

(** What a tick does, for any callbacks. The callback the clipboard
    calls for is invoked on the current state; when that happens inside
    the [try] block and it throws, the [catch] block invokes
    [onNoRepository] on the state it left. *)
Lemma tick_run clipboard st :
  ClipboardMonitor.checkClipboard onRepositoryDetected onNoRepository
    clipboard st =
  match clipboard with
  | Ok clipboardText =>
      if negb (falsy clipboardText) && isValid clipboardText then
        if returns (onRepositoryDetected (createRepository clipboardText) st)
        then ([RepositoryDetected (createRepository clipboardText)],
              fst (onRepositoryDetected (createRepository clipboardText) st),
              Ok tt)
        else ([RepositoryDetected (createRepository clipboardText); NoRepository],
              fst (onNoRepository
                     (fst (onRepositoryDetected
                             (createRepository clipboardText) st))),
              snd (onNoRepository
                     (fst (onRepositoryDetected
                             (createRepository clipboardText) st))))
      else
        if returns (onNoRepository st)
        then ([NoRepository], fst (onNoRepository st), Ok tt)
        else ([NoRepository; NoRepository],
              fst (onNoRepository (fst (onNoRepository st))),
              snd (onNoRepository (fst (onNoRepository st))))
  | Throw _ =>
      ([NoRepository], fst (onNoRepository st), snd (onNoRepository st))
  end.
Proof.
  unfold ClipboardMonitor.checkClipboard, ClipboardMonitor.callDetected,
    ClipboardMonitor.callNone, returns.
  destruct clipboard as [clipboardText|e].
  - destruct (negb (falsy clipboardText) && isValid clipboardText).
    + destruct (onRepositoryDetected (createRepository clipboardText) st)
        as [st1 [u|e]]; cbn [fst snd]; [reflexivity|].
      destruct (onNoRepository st1) as [st2 r]. reflexivity.
    + destruct (onNoRepository st) as [st1 [u|e]]; cbn [fst snd]; [reflexivity|].
      destruct (onNoRepository st1) as [st2 r]. reflexivity.
  - destruct (onNoRepository st) as [st1 r]. reflexivity.
Qed.

Lemma start_cons clipboard ticks st :
  ClipboardMonitor.start onRepositoryDetected onNoRepository
    (clipboard :: ticks) st =
  (calls (ClipboardMonitor.checkClipboard onRepositoryDetected onNoRepository
            clipboard st)
   ++ fst (ClipboardMonitor.start onRepositoryDetected onNoRepository ticks
             (snd (fst (ClipboardMonitor.checkClipboard onRepositoryDetected
                          onNoRepository clipboard st)))),
   snd (ClipboardMonitor.start onRepositoryDetected onNoRepository ticks
          (snd (fst (ClipboardMonitor.checkClipboard onRepositoryDetected
                       onNoRepository clipboard st))))).
Proof.
  cbn [ClipboardMonitor.start]. unfold calls.
  destruct (ClipboardMonitor.checkClipboard onRepositoryDetected onNoRepository
              clipboard st) as [[cs st1] r].
  cbn [fst snd].
  destruct (ClipboardMonitor.start onRepositoryDetected onNoRepository ticks st1).
  reflexivity.
Qed.

(** Over ticks without a recognised text only [onNoRepository] is
    invoked, once or twice per tick. *)
Lemma idle_run ticks :
  forallb (fun clipboard => negb (recognized clipboard)) ticks = true ->
  forall st, exists n,
    length ticks <= n <= 2 * length ticks /\
    fst (ClipboardMonitor.start onRepositoryDetected onNoRepository ticks st)
    = repeat NoRepository n.
Proof.
  induction ticks as [|clipboard ticks IH]; intros H st.
  - exists 0. split; [simpl; lia | reflexivity].
  - simpl in H. apply andb_true_iff in H as [H1 H2].
    apply negb_true_iff in H1. unfold recognized in H1.
    rewrite start_cons, tick_run. cbn [fst].
    destruct clipboard as [clipboardText|e]; [rewrite H1|].
    + destruct (returns (onNoRepository st)); unfold calls; cbn [fst snd].
      * destruct (IH H2 (fst (onNoRepository st))) as (n & Hn & ->).
        exists (S n). split; [simpl; lia | reflexivity].
      * destruct (IH H2 (fst (onNoRepository (fst (onNoRepository st)))))
          as (n & Hn & ->).
        exists (S (S n)). split; [simpl; lia | reflexivity].
    + unfold calls; cbn [fst snd].
      destruct (IH H2 (fst (onNoRepository st))) as (n & Hn & ->).
      exists (S n). split; [simpl; lia | reflexivity].
Qed.

(** With an [onNoRepository] that returns, it is invoked once per such
    tick. *)
Lemma idle_run_once ticks :
  forallb (fun clipboard => negb (recognized clipboard)) ticks = true ->
  (forall s, returns (onNoRepository s) = true) ->
  forall st,
    ClipboardMonitor.start onRepositoryDetected onNoRepository ticks st
    = (repeat NoRepository (length ticks),
       Nat.iter (length ticks) (fun s => fst (onNoRepository s)) st).
Proof.
  intros H Hret. induction ticks as [|clipboard ticks IH]; intros st.
  - reflexivity.
  - simpl in H. apply andb_true_iff in H as [H1 H2].
    apply negb_true_iff in H1. unfold recognized in H1.
    rewrite start_cons, tick_run.
    destruct clipboard as [clipboardText|e]; [rewrite H1, Hret|];
      unfold calls; cbn [fst snd]; rewrite (IH H2); cbn [fst snd length repeat app];
      rewrite Nat.iter_succ_r; reflexivity.
Qed.

End AnyCallbacks.

(** The extension's callbacks return normally: a tick of its watcher
    invokes one callback. *)
Lemma extension_tick clipboard st :
  calls (GitCloneExtension.checkClipboard clipboard st) =
  [notification_of clipboard].
Proof. apply tick_one_call; reflexivity. Qed.

Lemma monitor_cons clipboard ticks st :
  fst (GitCloneExtension.clipboardMonitor (clipboard :: ticks) st) =
  calls (GitCloneExtension.checkClipboard clipboard st)
  ++ fst (GitCloneExtension.clipboardMonitor ticks
            (snd (fst (GitCloneExtension.checkClipboard clipboard st)))).
Proof.
  unfold GitCloneExtension.clipboardMonitor, calls. cbn [ClipboardMonitor.start].
  fold GitCloneExtension.checkClipboard.
  destruct (GitCloneExtension.checkClipboard clipboard st) as [[cs st1] r].
  cbn [fst snd].
  destruct (ClipboardMonitor.start GitCloneExtension.onRepositoryDetected
              GitCloneExtension.onNoRepository ticks st1).
  reflexivity.
Qed.

(** The callbacks invoked over a run of ticks: one per tick. *)
Lemma monitor_map ticks : forall st,
  fst (GitCloneExtension.clipboardMonitor ticks st) =
  List.map notification_of ticks.
Proof.
  induction ticks as [|clipboard ticks IH]; intros st; [reflexivity|].
  rewrite monitor_cons, extension_tick, IH. reflexivity.
Qed.

Lemma idle_notifications ticks :
  forallb (fun clipboard => negb (recognized clipboard)) ticks = true ->
  List.map notification_of ticks = repeat NoRepository (length ticks).
Proof.
  induction ticks as [|clipboard ticks IH]; intros H; [reflexivity|].
  simpl in H. apply andb_true_iff in H as [H1 H2].
  simpl. rewrite IH by assumption. f_equal.
  apply negb_true_iff in H1. unfold recognized in H1. unfold notification_of.
  destruct clipboard as [clipboardText|e]; [rewrite H1|]; reflexivity.
Qed.

End MonitorFacts.
Import MonitorFacts.

(* ================================================================== *)
(** * The model on concrete inputs *)
(* ================================================================== *)

Module Runs.
Import GitUrlValidator.

Example isValid_empty : isValid [] = false.
Proof. reflexivity. Qed.

Example isValid_blank : isValid (lit "   ") = false.
Proof. reflexivity. Qed.

Example isValid_prose : isValid (lit "not a url") = false.
Proof. vm_compute. reflexivity. Qed.

Example isValid_forms :
  List.map isValid
    [lit "https://github.com/a/b"; lit "https://gitlab.com/a/b.git/";
     lit "git@github.com:a/b.git"; lit "deploy@host.example:a/b.git";
     lit "ssh://git@h.example/a/b"; lit "git://h.example/a/b.git";
     lit "https://code.example/scm/project"; lit "  https://github.com/a/b  "]
  = [true; true; true; true; true; true; true; true].
Proof. vm_compute. reflexivity. Qed.

Example isValid_rejects :
  List.map isValid
    [lit "https://github.com"; lit "https://github.com/a";
     lit "https://example.com/a/b"; lit "ftp://example.com/a/b.git"]
  = [false; false; false; false].
Proof. vm_compute. reflexivity. Qed.

Example normalize_forms :
  List.map normalize
    [lit "https://github.com/a/b/"; lit "https://github.com/a/b.git";
     lit "git@github.com:a/b.git"; lit "https://example.com/repos/x";
     lit "https://example.com/a"; lit " ssh://git@h.example/a/b "]
  = [lit "https://github.com/a/b.git"; lit "https://github.com/a/b.git";
     lit "git@github.com:a/b.git"; lit "https://example.com/repos/x.git";
     lit "https://example.com/a"; lit "ssh://git@h.example/a/b"].
Proof. vm_compute. reflexivity. Qed.

Example extractRepositoryName_forms :
  List.map extractRepositoryName
    [lit "git@github.com:owner/repo.git"; lit "git@github.com:repo.git";
     lit "git@host.example:a/b/c.git"; lit "https://github.com/a/b.git/";
     lit "https://github.com/a/b?x=1"; lit "https://github.com//"; lit "x.git"]
  = [lit "repo"; lit "repo"; lit "c"; lit "b"; lit "b?x=1"; lit "repository";
     lit "x"].
Proof. vm_compute. reflexivity. Qed.

(** A workspace with [package.json]: a new subfolder named after the
    repository. *)
Example resolve_in_project :
  CloneLocationResolver.resolve
    (Demo.host Demo.root [(lit "package.json", false)] []) 3 Demo.repo_b
    (Some [Demo.root]) =
  Some (Ok {| targetPath := lit "/work/b";
              cloneToRoot := false;
              message := lit "Cloning b to new folder (avoiding conflicts)" |}).
Proof. vm_compute. reflexivity. Qed.

(** A workspace without marker: the root itself. *)
Example resolve_in_clean_workspace :
  CloneLocationResolver.resolve
    (Demo.host Demo.root [(lit "notes.txt", false)] []) 3 Demo.repo_b
    (Some [Demo.root]) =
  Some (Ok {| targetPath := lit "/work";
              cloneToRoot := true;
              message := lit "Clone b contents to current workspace root? (No project files detected)" |}).
Proof. vm_compute. reflexivity. Qed.

(** No workspace: a folder in the home directory. *)
Example resolve_without_workspace :
  CloneLocationResolver.resolve (Demo.host Demo.root [] []) 3 Demo.repo_b None =
  Some (Ok {| targetPath := lit "/home/user/b";
              cloneToRoot := false;
              message := lit "Clone b to new folder in home directory?" |}).
Proof. vm_compute. reflexivity. Qed.

(** Two names taken: the third candidate. *)
Example resolve_second_suffix :
  CloneLocationResolver.resolve
    (Demo.host Demo.root
       [(lit ".git", true); (lit "foo", true); (lit "foo-1", false)] [])
    5 Demo.repo_foo (Some [Demo.root]) =
  Some (Ok {| targetPath := lit "/work/foo-2";
              cloneToRoot := false;
              message := lit "Cloning foo to new folder (avoiding conflicts)" |}).
Proof. vm_compute. reflexivity. Qed.

(** The entry [.git] is in both lists. *)
Example detect_git_directory :
  ProjectFileDetector.detect (Demo.host Demo.root [(lit ".git", true)] [])
    Demo.root =
  Ok {| hasCommonFiles := true; detectedFiles := [lit ".git"; lit ".git/"] |}.
Proof. vm_compute. reflexivity. Qed.

Example clone_succeeds :
  GitCloneService.clone
    (Demo.host Demo.root [] [StderrData (lit "Cloning into 'b'..."); Close (Some 0%Z)])
    Demo.repo_b
    {| targetPath := lit "/work/b"; cloneToRoot := false; message := [] |}
    (lit "/work/b") =
  GitCloneService.Fulfilled
    {| success := true;
       resultMessage := lit "Successfully cloned b to new folder";
       resultTargetPath := Some (lit "/work/b") |}.
Proof. vm_compute. reflexivity. Qed.

Example clone_cannot_start :
  GitCloneService.clone
    (Demo.host Demo.root [] [ProcError (lit "spawn git ENOENT"); Close (Some (-2)%Z)])
    Demo.repo_b
    {| targetPath := lit "/work/b"; cloneToRoot := false; message := [] |}
    (lit "/work/b") =
  GitCloneService.Fulfilled
    {| success := false;
       resultMessage := lit "Failed to start git process: spawn git ENOENT";
       resultTargetPath := None |}.
Proof. vm_compute. reflexivity. Qed.

Example clone_silent_failure :
  GitCloneService.clone
    (Demo.host Demo.root [] [StdoutData (lit "..."); Close None])
    Demo.repo_b
    {| targetPath := lit "/work/b"; cloneToRoot := false; message := [] |}
    (lit "/work/b") =
  GitCloneService.Fulfilled
    {| success := false;
       resultMessage := lit "Failed to clone repository: Unknown error";
       resultTargetPath := None |}.
Proof. vm_compute. reflexivity. Qed.

Example prepareGitCommand_forms :
  GitCloneService.prepareGitCommand (Demo.host Demo.root [] []) Demo.repo_b
    {| targetPath := lit "/work"; cloneToRoot := true; message := [] |}
    (lit "/work") =
  ([lit "clone"; lit "https://github.com/a/b.git"; lit "."], lit "/work") /\
  GitCloneService.prepareGitCommand (Demo.host Demo.root [] []) Demo.repo_b
    {| targetPath := lit "/work"; cloneToRoot := true; message := [] |}
    (lit "/work/sub/b") =
  ([lit "clone"; lit "https://github.com/a/b.git"; lit "b"], lit "/work/sub").
Proof. split; vm_compute; reflexivity. Qed.

End Runs.

(* ================================================================== *)
(** * The properties of the specification *)
(* ================================================================== *)

Import GitUrlValidator.

(** C1, as stated, fails: [normalize] is not idempotent on every input.
    The recognised URL [https://git.example.com/a//] loses one slash at
    each pass. *)
Lemma normalize_not_idempotent :
  isValid (lit "https://git.example.com/a//") = true /\
  normalize (lit "https://git.example.com/a//") = lit "https://git.example.com/a/" /\
  normalize (normalize (lit "https://git.example.com/a//"))
    <> normalize (lit "https://git.example.com/a//").
Proof.
  split; [vm_compute; reflexivity|].
  split; [vm_compute; reflexivity|].
  vm_compute. discriminate.
Qed.

(** C1 (amended): for an owner and a repository name made of word
    characters, dots and hyphens, [normalize] maps
    [https://github.com/{owner}/{repo}] (no [.git] suffix) to the same
    URL with [.git] appended, and a second pass changes nothing; for an
    arbitrary input [x], [normalize (normalize x) = normalize x] holds
    exactly when [normalize x] is not an [http] or [https] URL that ends
    in a slash or in white space. *)
Theorem normalize_github_and_twice (owner repo x : str) :
  word_run owner -> word_run repo ->
  endsWith (github_url owner repo) (lit ".git") = false ->
  normalize (github_url owner repo) = github_url owner repo ++ lit ".git" /\
  normalize (normalize (github_url owner repo)) = normalize (github_url owner repo) /\
  (normalize (normalize x) = normalize x <->
   is_http (normalize x)
   && last_is (fun c => is_slash c || is_ws c) (normalize x) = false).
Proof.
  intros Ho Hr Hg.
  pose proof (normalize_github_url Ho Hr Hg) as E.
  split; [exact E|]. split.
  - apply normalize_twice. rewrite E, last_is_dot_git. apply andb_false_r.
  - split; [|apply normalize_twice].
    intros Hfix.
    destruct (is_http (normalize x)) eqn:Hh; [|reflexivity].
    destruct (last_is (fun c => is_slash c || is_ws c) (normalize x)) eqn:Hl;
      [|reflexivity].
    exfalso. exact (@normalize_moves (normalize x) Hh Hl Hfix).
Qed.

Lemma normalize_github_and_twice_witness :
  normalize (github_url (lit "a") (lit "b")) = lit "https://github.com/a/b.git" /\
  normalize (normalize (github_url (lit "a") (lit "b")))
    = normalize (github_url (lit "a") (lit "b")) /\
  (normalize (normalize (lit " git://h.example/a/b/ "))
     = normalize (lit " git://h.example/a/b/ ") <->
   is_http (normalize (lit " git://h.example/a/b/ "))
   && last_is (fun c => is_slash c || is_ws c)
        (normalize (lit " git://h.example/a/b/ ")) = false).
Proof.
  apply (@normalize_github_and_twice (lit "a") (lit "b")
           (lit " git://h.example/a/b/ ")).
  - split; [discriminate | reflexivity].
  - split; [discriminate | reflexivity].
  - reflexivity.
Defined.

(** C2, as stated, fails: a path of three segments is a path of two or
    more segments, and [normalize] leaves the URL without [.git]. *)
Lemma normalize_three_segments :
  is_http (lit "https://example.com/a/b/c") = true /\
  endsWith (lit "https://example.com/a/b/c") (lit ".git") = false /\
  normalize (lit "https://example.com/a/b/c") = lit "https://example.com/a/b/c" /\
  normalize (lit "https://example.com/a/b/c")
    <> lit "https://example.com/a/b/c" ++ lit ".git".
Proof.
  split; [reflexivity|]. split; [reflexivity|].
  split; [vm_compute; reflexivity | vm_compute; discriminate].
Qed.

(** C2 (amended): for an HTTP(S) URL whose text, trimmed and with one
    trailing slash removed, does not end in [.git]: [normalize] appends
    [.git] to that text when it is [scheme://host/a/b] with exactly two
    path segments (host and segments non-empty runs of word characters,
    dots and hyphens; the shapes [/git/x], [/repo/x], [/repos/x],
    [/scm/x] and [/projects/x] are instances), whatever the host, and
    returns that text unchanged otherwise. *)
Theorem normalize_http_two_segments (x : str) :
  is_http (trim x) = true ->
  endsWith (chop (trim x)) (lit ".git") = false ->
  (TwoSegment (chop (trim x)) /\ normalize x = chop (trim x) ++ lit ".git") \/
  (~ TwoSegment (chop (trim x)) /\ normalize x = chop (trim x)).
Proof.
  intros Hh Hg. rewrite normalize_unfold. cbv zeta.
  destruct (is_http_head _ Hh) as [r Ht].
  assert (Hs : is_ssh_or_git (trim x) = false)
    by (rewrite Ht; apply head_h_not_ssh).
  rewrite Hs, Hh, Hg.
  destruct (isKnownProvider (chop (trim x))) eqn:Ek.
  { left. split; [apply isKnownProvider_TwoSegment; exact Ek | reflexivity]. }
  destruct (looksLikeRepositoryUrl (chop (trim x))) eqn:El.
  { left. split; [apply looksLike_iff; exact El | reflexivity]. }
  right. split; [|reflexivity].
  intros T. apply looksLike_iff in T. congruence.
Qed.

Lemma normalize_http_two_segments_witness :
  (TwoSegment (chop (trim (lit "https://example.com/a/b/"))) /\
   normalize (lit "https://example.com/a/b/")
     = chop (trim (lit "https://example.com/a/b/")) ++ lit ".git") \/
  (~ TwoSegment (chop (trim (lit "https://example.com/a/b/"))) /\
   normalize (lit "https://example.com/a/b/")
     = chop (trim (lit "https://example.com/a/b/"))).
Proof.
  apply (normalize_http_two_segments (lit "https://example.com/a/b/"));
    reflexivity.
Defined.

(** C3: in a workspace root with project markers, [resolve] answers with
    a new subfolder whose path is the first that does not exist among
    [{root}/{name}], [{root}/{name}-1], [{root}/{name}-2], ...: with
    [{root}/foo] present it is [{root}/foo-1], with that present too it is
    [{root}/foo-2]. The loop ends after testing [k + 1] paths. *)
Theorem resolve_first_free_subfolder (host : Host) (fuel : nat)
    (repository : GitRepository) (root : str) (others : list str)
    (detection : ProjectFileDetectionResult) (k : nat) :
  ProjectFileDetector.detect host root = Ok detection ->
  hasCommonFiles detection = true ->
  (forall i, i < k ->
             existsSync host (candidate host root repository i) = true) ->
  existsSync host (candidate host root repository k) = false ->
  k < fuel ->
  CloneLocationResolver.resolve host fuel repository (Some (root :: others)) =
  Some (Ok {| targetPath := candidate host root repository k;
              cloneToRoot := false;
              message := lit "Cloning " ++ name repository
                           ++ lit " to new folder (avoiding conflicts)" |}).
Proof.
  intros Hd Hm Hex Hfree Hfuel. unfold CloneLocationResolver.resolve.
  rewrite Hd, Hm.
  rewrite (@resolveForExistingProject_first_free host repository root k fuel);
    auto.
Qed.

Lemma resolve_first_free_subfolder_witness :
  CloneLocationResolver.resolve
    (Demo.host Demo.root [(lit "package.json", false); (lit "foo", true)] [])
    5 Demo.repo_foo (Some [Demo.root]) =
  Some (Ok {| targetPath := lit "/work/foo-1";
              cloneToRoot := false;
              message := lit "Cloning foo to new folder (avoiding conflicts)" |}).
Proof.
  apply (@resolve_first_free_subfolder
           (Demo.host Demo.root [(lit "package.json", false); (lit "foo", true)] [])
           5 Demo.repo_foo Demo.root []
           {| hasCommonFiles := true; detectedFiles := [lit "package.json"] |} 1).
  - reflexivity.
  - reflexivity.
  - intros i Hi. destruct i; [reflexivity | lia].
  - reflexivity.
  - lia.
Defined.

(** C4: when the directory cannot be listed (missing directory,
    permission error), [detect] does not throw: it returns
    [hasCommonFiles = true] with no marker. On no path at all does
    [detect] throw. *)
Theorem detect_fails_safe (host : Host) (workspacePath e : str) :
  readdirSync host workspacePath = Throw e ->
  ProjectFileDetector.detect host workspacePath =
  Ok {| hasCommonFiles := true; detectedFiles := [] |} /\
  (forall anyPath, exists r, ProjectFileDetector.detect host anyPath = Ok r).
Proof.
  intros H. split.
  - unfold ProjectFileDetector.detect. rewrite H. reflexivity.
  - intros anyPath. apply detect_returns.
Qed.

Lemma detect_fails_safe_witness :
  ProjectFileDetector.detect (Demo.host Demo.root [] []) (lit "/missing") =
  Ok {| hasCommonFiles := true; detectedFiles := [] |} /\
  (forall anyPath,
     exists r,
       ProjectFileDetector.detect (Demo.host Demo.root [] []) anyPath = Ok r).
Proof.
  apply (@detect_fails_safe (Demo.host Demo.root [] []) (lit "/missing")
           (lit "ENOENT: no such file or directory")).
  reflexivity.
Defined.

(** C5: a git process that exits with a code other than 0 fulfils the
    promise of [clone] with [success = false] and a message made of the
    text captured from standard error, or of [Unknown error] when none
    was captured; a process that reports through its [error] event that
    it could not be started fulfils it with [success = false] and a
    different message, made of the text of the error. The claim fails
    where [spawn] itself throws: nothing catches that in the executor,
    and the promise is rejected with the error. It is rejected in that
    case only. *)
Theorem clone_failure_reported (host : Host) (repository : GitRepository)
    (location : CloneLocation) (confirmedPath : str) :
  (forall e,
     GitCloneService.clone host repository location confirmedPath
       = GitCloneService.Rejected e <->
     spawn host (lit "git")
       (fst (GitCloneService.prepareGitCommand host repository location
               confirmedPath))
       (snd (GitCloneService.prepareGitCommand host repository location
               confirmedPath))
     = Throw e) /\
  (forall (output : list ProcEvent) (ending : ProcEvent)
          (later : list ProcEvent),
     spawn host (lit "git")
       (fst (GitCloneService.prepareGitCommand host repository location
               confirmedPath))
       (snd (GitCloneService.prepareGitCommand host repository location
               confirmedPath))
     = Ok (output ++ ending :: later) ->
     forallb is_data output = true ->
     is_failure ending = true ->
     exists msg,
       GitCloneService.clone host repository location confirmedPath =
       GitCloneService.Fulfilled
         {| success := false; resultMessage := msg; resultTargetPath := None |} /\
       match ending with
       | Close _ =>
           let captured := stderr_of output in
           let shown := if falsy captured then lit "Unknown error" else captured in
           msg = lit "Failed to clone repository: " ++ shown /\
           Contains msg shown /\
           startsWith msg (lit "Failed to start git process: ") = false
       | ProcError errMessage =>
           msg = lit "Failed to start git process: " ++ errMessage /\
           Contains msg errMessage /\
           startsWith msg (lit "Failed to clone repository: ") = false
       | _ => False
       end).
Proof.
  split.
  - intros e. rewrite clone_unfold.
    destruct (spawn host (lit "git") _ _) as [events|e'] eqn:Hspawn.
    + split; [|discriminate]. intros H. exfalso. revert H.
      apply never_rejected. discriminate.
    + split; intros H; injection H as ->; reflexivity.
  - intros output ending later Hspawn Hdata Hfail.
    rewrite (clone_spawned _ _ _ _ Hspawn), fold_left_app, fold_data
      by assumption.
    cbn [fold_left app].
    destruct ending as [d|d|code|errMessage]; try discriminate.
    + eexists. split.
      * apply settled_sticky. cbn [GitCloneService.handle GitCloneService.settled
          GitCloneService.errorOutput GitCloneService.settle].
        destruct code as [[| |]|]; try discriminate; reflexivity.
      * cbv zeta. unfold GitCloneService.orUnknown.
        split; [reflexivity|]. split; [apply Contains_suffix | reflexivity].
    + eexists. split.
      * apply settled_sticky. reflexivity.
      * split; [reflexivity|]. split; [apply Contains_suffix | reflexivity].
Qed.

Lemma clone_failure_reported_witness :
  GitCloneService.clone
    (Demo.no_spawn (Demo.host Demo.root [(lit "notes.txt", false)] [])
       (lit "spawn ENOTDIR"))
    Demo.repo_b
    {| targetPath := lit "/work/b"; cloneToRoot := false; message := [] |}
    (lit "/work/notes.txt/b")
  = GitCloneService.Rejected (lit "spawn ENOTDIR").
Proof.
  destruct (@clone_failure_reported
              (Demo.no_spawn (Demo.host Demo.root [(lit "notes.txt", false)] [])
                 (lit "spawn ENOTDIR"))
              Demo.repo_b
              {| targetPath := lit "/work/b"; cloneToRoot := false;
                 message := [] |}
              (lit "/work/notes.txt/b")) as [Hrejected _].
  apply Hrejected. reflexivity.
Defined.

(** C6, as stated, fails: with a detection callback that throws, the
    [catch] block notifies "no repository" after each detection, and the
    three ticks give five notifications. The callbacks write them down
    themselves. *)
Lemma watcher_sequence_with_failing_callback :
  ClipboardMonitor.start (Demo.log_detected true) (Demo.log_none false)
    [Ok (lit "https://github.com/a/b"); Ok (lit "garbage");
     Ok (lit "https://github.com/a/b")] [] =
  ([RepositoryDetected Demo.repo_b; NoRepository; NoRepository;
    RepositoryDetected Demo.repo_b; NoRepository],
   [RepositoryDetected Demo.repo_b; NoRepository; NoRepository;
    RepositoryDetected Demo.repo_b; NoRepository]) /\
  fst (ClipboardMonitor.start (Demo.log_detected true) (Demo.log_none false)
         [Ok (lit "https://github.com/a/b"); Ok (lit "garbage");
          Ok (lit "https://github.com/a/b")] [])
  <> [RepositoryDetected Demo.repo_b; NoRepository; RepositoryDetected Demo.repo_b].
Proof. split; [vm_compute; reflexivity | vm_compute; discriminate]. Qed.

(** C6 (amended): fed the clipboard texts [https://github.com/a/b],
    [garbage], [https://github.com/a/b], the watcher notifies
    "detected b", "no repository", "detected b" exactly when the three
    callbacks it invokes return, and it then leaves the state those three
    invocations produce; and on every tick whose text is recognised it
    invokes the detection callback, on the current state, with the
    repository made from that text, also when the text is the one of the
    tick before. A detection callback that throws is followed by
    [onNoRepository] in the same tick. *)
Theorem watcher_sequence (St : Type)
    (onRepositoryDetected : GitRepository -> St -> St * result unit)
    (onNoRepository : St -> St * result unit)
    (clipboardText : str) (st : St) :
  falsy clipboardText = false ->
  isValid clipboardText = true ->
  (fst (ClipboardMonitor.start onRepositoryDetected onNoRepository
          [Ok (lit "https://github.com/a/b"); Ok (lit "garbage");
           Ok (lit "https://github.com/a/b")] st) =
   [RepositoryDetected Demo.repo_b; NoRepository; RepositoryDetected Demo.repo_b]
   <->
   returns (onRepositoryDetected Demo.repo_b st)
   && returns (onNoRepository (fst (onRepositoryDetected Demo.repo_b st)))
   && returns (onRepositoryDetected Demo.repo_b
                 (fst (onNoRepository
                         (fst (onRepositoryDetected Demo.repo_b st)))))
   = true) /\
  (returns (onRepositoryDetected Demo.repo_b st)
   && returns (onNoRepository (fst (onRepositoryDetected Demo.repo_b st)))
   && returns (onRepositoryDetected Demo.repo_b
                 (fst (onNoRepository
                         (fst (onRepositoryDetected Demo.repo_b st)))))
   = true ->
   snd (ClipboardMonitor.start onRepositoryDetected onNoRepository
          [Ok (lit "https://github.com/a/b"); Ok (lit "garbage");
           Ok (lit "https://github.com/a/b")] st) =
   fst (onRepositoryDetected Demo.repo_b
          (fst (onNoRepository (fst (onRepositoryDetected Demo.repo_b st)))))) /\
  ClipboardMonitor.checkClipboard onRepositoryDetected onNoRepository
    (Ok clipboardText) st =
  (if returns (onRepositoryDetected (createRepository clipboardText) st)
   then ([RepositoryDetected (createRepository clipboardText)],
         fst (onRepositoryDetected (createRepository clipboardText) st),
         Ok tt)
   else ([RepositoryDetected (createRepository clipboardText); NoRepository],
         fst (onNoRepository
                (fst (onRepositoryDetected (createRepository clipboardText) st))),
         snd (onNoRepository
                (fst (onRepositoryDetected (createRepository clipboardText) st)))))
  /\
  (returns (onRepositoryDetected (createRepository clipboardText) st)
   && returns (onRepositoryDetected (createRepository clipboardText)
                 (fst (onRepositoryDetected (createRepository clipboardText) st)))
   = true ->
   ClipboardMonitor.start onRepositoryDetected onNoRepository
     [Ok clipboardText; Ok clipboardText] st =
   ([RepositoryDetected (createRepository clipboardText);
     RepositoryDetected (createRepository clipboardText)],
    fst (onRepositoryDetected (createRepository clipboardText)
           (fst (onRepositoryDetected (createRepository clipboardText) st))))).
Proof.
  intros Hf Hv.
  assert (Hrec : negb (falsy clipboardText) && isValid clipboardText = true)
    by (rewrite Hf, Hv; reflexivity).
  assert (Hb : negb (falsy (lit "https://github.com/a/b"))
               && isValid (lit "https://github.com/a/b") = true)
    by (vm_compute; reflexivity).
  assert (Hg : negb (falsy (lit "garbage")) && isValid (lit "garbage") = false)
    by (vm_compute; reflexivity).
  assert (Eb : createRepository (lit "https://github.com/a/b") = Demo.repo_b)
    by (vm_compute; reflexivity).
  rewrite !start_cons, !tick_run, Hb, Hg, Hrec, Eb.
  unfold calls, returns. cbn [ClipboardMonitor.start].
  split; [|split; [|split]].
  - destruct (onRepositoryDetected Demo.repo_b st) as [s1 [u1|e1]];
      cbn [fst snd].
    + destruct (onNoRepository s1) as [s2 [u2|e2]]; cbn [fst snd].
      * destruct (onRepositoryDetected Demo.repo_b s2) as [s3 [u3|e3]];
          cbn [fst snd app andb]; split; intros H;
          first [reflexivity | discriminate H].
      * destruct (onNoRepository s2) as [s3 r3].
        cbn [fst snd app andb]. split; intros H; discriminate H.
    + destruct (onNoRepository s1) as [s2 r2]. cbn [fst snd app andb].
      split; [|intros H; discriminate H].
      destruct (match snd (onNoRepository s2) with Ok _ => true | _ => false end);
        cbn [fst snd app]; intros H; discriminate H.
  - destruct (onRepositoryDetected Demo.repo_b st) as [s1 [u1|e1]];
      cbn [fst snd andb]; [|intros H; discriminate H].
    destruct (onNoRepository s1) as [s2 [u2|e2]];
      cbn [fst snd andb]; [|intros H; discriminate H].
    destruct (onRepositoryDetected Demo.repo_b s2) as [s3 [u3|e3]];
      cbn [fst snd andb]; [reflexivity | intros H; discriminate H].
  - reflexivity.
  - destruct (onRepositoryDetected (createRepository clipboardText) st)
      as [s1 [u1|e1]]; cbn [fst snd andb]; [|intros H; discriminate H].
    destruct (onRepositoryDetected (createRepository clipboardText) s1)
      as [s2 [u2|e2]]; cbn [fst snd andb app];
      [reflexivity | intros H; discriminate H].
Qed.

Lemma watcher_sequence_witness :
  fst (ClipboardMonitor.start (Demo.log_detected false) (Demo.log_none false)
         [Ok (lit "https://github.com/a/b"); Ok (lit "garbage");
          Ok (lit "https://github.com/a/b")] []) =
  [RepositoryDetected Demo.repo_b; NoRepository; RepositoryDetected Demo.repo_b] /\
  snd (ClipboardMonitor.start (Demo.log_detected false) (Demo.log_none false)
         [Ok (lit "https://github.com/a/b"); Ok (lit "garbage");
          Ok (lit "https://github.com/a/b")] []) =
  [RepositoryDetected Demo.repo_b; NoRepository; RepositoryDetected Demo.repo_b] /\
  ClipboardMonitor.start (Demo.log_detected false) (Demo.log_none false)
    [Ok (lit "git@github.com:a/b.git"); Ok (lit "git@github.com:a/b.git")] [] =
  ([RepositoryDetected (createRepository (lit "git@github.com:a/b.git"));
    RepositoryDetected (createRepository (lit "git@github.com:a/b.git"))],
   [RepositoryDetected (createRepository (lit "git@github.com:a/b.git"));
    RepositoryDetected (createRepository (lit "git@github.com:a/b.git"))]).
Proof.
  assert (Hv : isValid (lit "git@github.com:a/b.git") = true)
    by (vm_compute; reflexivity).
  destruct (@watcher_sequence (list Notification) (Demo.log_detected false)
              (Demo.log_none false) (lit "git@github.com:a/b.git") []
              eq_refl Hv) as (Hseq & Hstate & _ & Htwice).
  split; [apply Hseq; reflexivity|].
  split; [rewrite Hstate by reflexivity; reflexivity|].
  rewrite Htwice by reflexivity. reflexivity.
Defined.

(** C7, as stated, fails: for the bare host [https://github.com] the
    name is the host, not the fallback. *)
Lemma bare_host_not_fallback :
  extractRepositoryName (lit "https://github.com") = lit "github.com" /\
  extractRepositoryName (lit "https://github.com") <> lit "repository".
Proof.
  split; [vm_compute; reflexivity | vm_compute; discriminate].
Qed.

(** C7 (amended): [extractRepositoryName] returns a name for every input
    and the name contains no slash; for a bare host [{scheme}://{host}],
    [host] not empty, without slash and not ending in [.git], the name is
    [host] itself; the fallback [repository] is the name of the empty
    input. *)
Theorem extractRepositoryName_bare_host (url scheme host : str) :
  host <> [] -> ~ In (ch "/") host -> endsWith host (lit ".git") = false ->
  ~ In (ch "/") (extractRepositoryName url) /\
  extractRepositoryName (scheme ++ lit "://" ++ host) = host /\
  extractRepositoryName [] = lit "repository".
Proof.
  intros Hne Hsf Hg. split; [apply extractRepositoryName_no_slash|].
  split; [apply bare_host_name; assumption | reflexivity].
Qed.

Lemma extractRepositoryName_bare_host_witness :
  ~ In (ch "/") (extractRepositoryName (lit "https://gitlab.com/group/project/")) /\
  extractRepositoryName (lit "https" ++ lit "://" ++ lit "github.com")
    = lit "github.com" /\
  extractRepositoryName [] = lit "repository".
Proof.
  apply (@extractRepositoryName_bare_host
           (lit "https://gitlab.com/group/project/") (lit "https")
           (lit "github.com")).
  - discriminate.
  - simpl. intuition discriminate.
  - reflexivity.
Defined.

(** C8, as stated, fails: a directory listed under the name of a marker
    file is collected as a file marker. *)
Lemma directory_named_like_marker_file :
  is_directory (Demo.host Demo.root [(lit "package.json", true)] [])
    (Demo.join Demo.root (lit "package.json")) = true /\
  ProjectFileDetector.detect
    (Demo.host Demo.root [(lit "package.json", true)] []) Demo.root =
  Ok {| hasCommonFiles := true; detectedFiles := [lit "package.json"] |}.
Proof. split; vm_compute; reflexivity. Qed.

(** C8 (amended): for a directory it could list, [detect] collects a
    marker file name exactly when an entry of that name is listed,
    whatever the kind of the entry, and a marker directory name, with a
    slash appended, exactly when an entry of that name is listed and
    [statSync] reports a directory. *)
Theorem detect_markers (host : Host) (workspacePath : str) (items : list str)
    (marker : str) :
  readdirSync host workspacePath = Ok items ->
  exists r,
    ProjectFileDetector.detect host workspacePath = Ok r /\
    (In marker (detectedFiles r) <->
     (In marker ProjectFilePatterns.COMMON_FILES /\ In marker items) \/
     (exists dir,
        marker = dir ++ lit "/" /\
        In dir ProjectFilePatterns.COMMON_DIRECTORIES /\ In dir items /\
        is_directory host (path_join host workspacePath dir) = true)).
Proof.
  intros H. eexists. split; [apply detect_listed; exact H|].
  cbv zeta. cbn [detectedFiles].
  rewrite in_app_iff, filter_In, in_map_iff, array_includes_In.
  split; (intros [Hf | (dir & Hd)]; [left; exact Hf | right; exists dir]).
  - destruct Hd as [<- Hd]. apply filter_In in Hd as [Hin Hd].
    apply andb_true_iff in Hd as [Hi Hdir]. apply array_includes_In in Hi.
    auto.
  - destruct Hd as (-> & Hin & Hi & Hdir). split; [reflexivity|].
    apply filter_In. split; [assumption|].
    apply andb_true_iff. split; [apply array_includes_In|]; assumption.
Qed.

Lemma detect_markers_witness :
  exists r,
    ProjectFileDetector.detect
      (Demo.host Demo.root
         [(lit "package.json", false); (lit "src", true); (lit "docs", false)] [])
      Demo.root = Ok r /\
    (In (lit "src/") (detectedFiles r) <->
     (In (lit "src/") ProjectFilePatterns.COMMON_FILES /\
      In (lit "src/") [lit "package.json"; lit "src"; lit "docs"]) \/
     (exists dir,
        lit "src/" = dir ++ lit "/" /\
        In dir ProjectFilePatterns.COMMON_DIRECTORIES /\
        In dir [lit "package.json"; lit "src"; lit "docs"] /\
        is_directory
          (Demo.host Demo.root
             [(lit "package.json", false); (lit "src", true); (lit "docs", false)] [])
          (Demo.join Demo.root dir) = true)).
Proof.
  apply (@detect_markers
           (Demo.host Demo.root
              [(lit "package.json", false); (lit "src", true); (lit "docs", false)] [])
           Demo.root [lit "package.json"; lit "src"; lit "docs"] (lit "src/")).
  reflexivity.
Defined.

(** C9, as stated, fails: a recognised text with a leading space is
    stored as it is, white space included. *)
Lemma rawUrl_not_trimmed :
  isValid (lit " https://github.com/a/b") = true /\
  url (createRepository (lit " https://github.com/a/b"))
    <> trim (lit " https://github.com/a/b").
Proof. split; [vm_compute; reflexivity | vm_compute; discriminate]. Qed.

(** C9 (amended): the [url] field of the repository made from an input
    is the input itself, not trimmed; it is the trimmed input exactly when
    the input has no white space at either end. *)
Theorem rawUrl_is_input (x : str) :
  url (createRepository x) = x /\
  (url (createRepository x) = trim x <-> clean x = true).
Proof.
  split; [reflexivity|]. cbn [createRepository url]. split.
  - intros E. rewrite E. apply trim_clean.
  - intros H. symmetry. apply trim_fix. exact H.
Qed.

(** C10, as stated, fails: when the detection callback throws, the
    [catch] block invokes [onNoRepository] in the same tick, so that both
    callbacks are invoked; the callbacks write the invocations down
    themselves. *)
Lemma two_callbacks_in_one_tick :
  recognized (Ok (lit "https://github.com/a/b")) = true /\
  ClipboardMonitor.checkClipboard (Demo.log_detected true) (Demo.log_none false)
    (Ok (lit "https://github.com/a/b")) [] =
  ([RepositoryDetected Demo.repo_b; NoRepository],
   [RepositoryDetected Demo.repo_b; NoRepository], Ok tt).
Proof. split; vm_compute; reflexivity. Qed.

(** C10 (amended): on every tick the watcher invokes, on the current
    state, the callback the clipboard calls for: [onRepositoryDetected]
    when the text is not empty and is recognised, [onNoRepository]
    otherwise (empty or unrecognised text, failed read). When that
    callback returns it is the only one invoked in the tick. When it was
    invoked for a text that was read and it throws, [onNoRepository] is
    invoked after it in the same tick; after a failed read nothing
    follows. Over consecutive ticks without a recognised text only
    [onNoRepository] is invoked, at each of them: once per tick when it
    returns, and never more than twice. *)
Theorem watcher_one_callback_per_tick (St : Type)
    (onRepositoryDetected : GitRepository -> St -> St * result unit)
    (onNoRepository : St -> St * result unit)
    (clipboard : result str) (st : St) (idle : list (result str)) :
  forallb (fun clipboard => negb (recognized clipboard)) idle = true ->
  ClipboardMonitor.checkClipboard onRepositoryDetected onNoRepository
    clipboard st =
  match clipboard with
  | Ok clipboardText =>
      if negb (falsy clipboardText) && isValid clipboardText then
        if returns (onRepositoryDetected (createRepository clipboardText) st)
        then ([RepositoryDetected (createRepository clipboardText)],
              fst (onRepositoryDetected (createRepository clipboardText) st),
              Ok tt)
        else ([RepositoryDetected (createRepository clipboardText); NoRepository],
              fst (onNoRepository
                     (fst (onRepositoryDetected
                             (createRepository clipboardText) st))),
              snd (onNoRepository
                     (fst (onRepositoryDetected
                             (createRepository clipboardText) st))))
      else
        if returns (onNoRepository st)
        then ([NoRepository], fst (onNoRepository st), Ok tt)
        else ([NoRepository; NoRepository],
              fst (onNoRepository (fst (onNoRepository st))),
              snd (onNoRepository (fst (onNoRepository st))))
  | Throw _ =>
      ([NoRepository], fst (onNoRepository st), snd (onNoRepository st))
  end /\
  (exists n,
     length idle <= n <= 2 * length idle /\
     fst (ClipboardMonitor.start onRepositoryDetected onNoRepository idle st)
     = repeat NoRepository n) /\
  ((forall s, returns (onNoRepository s) = true) ->
   ClipboardMonitor.start onRepositoryDetected onNoRepository idle st =
   (repeat NoRepository (length idle),
    Nat.iter (length idle) (fun s => fst (onNoRepository s)) st)).
Proof.
  intros Hidle. split; [apply tick_run|]. split.
  - apply idle_run. exact Hidle.
  - intros Hret. apply idle_run_once; assumption.
Qed.

Lemma watcher_one_callback_per_tick_witness :
  ClipboardMonitor.checkClipboard GitCloneExtension.onRepositoryDetected
    GitCloneExtension.onNoRepository (Ok (lit "garbage")) GitCloneExtension.init
  = ([NoRepository], GitCloneExtension.init, Ok tt) /\
  ClipboardMonitor.start (Demo.log_detected false) (Demo.log_none false)
    [Ok []; Throw (lit "clipboard unavailable"); Ok (lit "garbage")] []
  = ([NoRepository; NoRepository; NoRepository],
     [NoRepository; NoRepository; NoRepository]).
Proof.
  split.
  - destruct (@watcher_one_callback_per_tick GitCloneExtension.State
                GitCloneExtension.onRepositoryDetected
                GitCloneExtension.onNoRepository
                (Ok (lit "garbage")) GitCloneExtension.init [] eq_refl)
      as (Htick & _).
    rewrite Htick. vm_compute. reflexivity.
  - destruct (@watcher_one_callback_per_tick (list Notification)
                (Demo.log_detected false) (Demo.log_none false)
                (Ok (lit "garbage")) []
                [Ok []; Throw (lit "clipboard unavailable"); Ok (lit "garbage")])
      as (_ & _ & Hidle); [vm_compute; reflexivity|].
    rewrite Hidle; [reflexivity | intros s; reflexivity].
Defined.

(* ================================================================== *)
(** * The order in which the matcher tries *)
(* ================================================================== *)

Module PriorityFacts.

(** A greedy run that takes all of [x] and then succeeds is the first
    success. *)
Lemma star_greedy_run cs x s' c k v :
  forallb (cset_mem cs) x = true ->
  match s' with [] => True | a :: _ => cset_mem cs a = false end ->
  k s' c = Some v ->
  star_greedy cs (x ++ s') c k = Some v.
Proof.
  intros Hx Hs Hk. induction x as [|a x IH]; simpl.
  - destruct s' as [|b s']; simpl; [assumption|]. rewrite Hs. assumption.
  - simpl in Hx. apply andb_true_iff in Hx as [Ha Hx]. rewrite Ha.
    rewrite (IH Hx). reflexivity.
Qed.

(** A lazy run stops at the first place where what follows succeeds. *)
Lemma star_lazy_first cs : forall x s' c k v,
  forallb (cset_mem cs) x = true ->
  (forall y z, x = y ++ z -> z <> [] -> k (z ++ s') c = None) ->
  k s' c = Some v ->
  star_lazy cs (x ++ s') c k = Some v.
Proof.
  induction x as [|a x IH]; intros s' c k v Hx Hnone Hk.
  - simpl. destruct s'; simpl; rewrite Hk; reflexivity.
  - simpl in Hx. apply andb_true_iff in Hx as [Ha Hx].
    pose proof (Hnone [] (a :: x) eq_refl) as H0.
    cbn [app] in *. cbn [star_lazy].
    rewrite H0 by discriminate.
    rewrite Ha. apply IH; auto.
    intros y z E Hz. apply (Hnone (a :: y) z); [rewrite E; reflexivity | assumption].
Qed.

(** Where [exec_from] finds its match, the matcher itself succeeds with
    the captures reported. *)
Lemma exec_from_found n r : forall s mr,
  exec_from n r s = Some mr ->
  exists p t,
    s = p ++ t /\ m n r t no_caps (whole t) = Some (groups mr) /\
    index mr = n - length t.
Proof.
  induction s as [|a s IH]; intros mr.
  - simpl. destruct (m n r [] no_caps (whole [])) eqn:E; [|discriminate].
    intros [= <-]. exists [], []. auto.
  - rewrite exec_from_cons.
    destruct (m n r (a :: s) no_caps (whole (a :: s))) eqn:E.
    + intros [= <-]. exists [], (a :: s). auto.
    + intros H. apply IH in H as (p & t & -> & Hm & Hi).
      exists (a :: p), t. auto.
Qed.

End PriorityFacts.
Import PriorityFacts.

(* ================================================================== *)
(** * The name is the last path segment *)
(* ================================================================== *)

Module SegmentFacts.
Import GitUrlValidator.

(** [(?:\.git)?(?:\/)?$] and [(?:\.git)?$], what follows the name in
    [url_name] and in [ssh_name]. *)
Lemma url_name_eq :
  url_name =
  Seq (L "/") (Seq (Group 1 (Plus Lazy not_slash))
                 (Seq (Opt (L ".git")) (Seq (Opt (L "/")) Eos))).
Proof. reflexivity. Qed.

Lemma ssh_name_eq :
  ssh_name =
  Seq (L ":")
    (Seq (Opt (Group 1 (Seq (Plus Greedy not_slash) (L "/"))))
       (Seq (Group 2 (Plus Lazy not_slash)) (Seq (Opt (L ".git")) Eos))).
Proof. reflexivity. Qed.

Ltac rev_eq E :=
  apply (f_equal (@rev _)) in E; rewrite ?rev_app_distr in E; simpl in E.

Ltac unrev R :=
  apply (f_equal (@rev _)) in R; rewrite rev_involutive in R; simpl in R.

(** From [z ++ w = w'], [w] and [w'] literal: [z] is the literal text
    left, or there is none. *)
Ltac solve_for_z H :=
  rev_eq H;
  first
    [ discriminate H
    | unrev H
    | injection H; clear H; intros;
      match goal with R : rev _ = _ |- _ => unrev R end ].

Ltac slash_inside Hsf :=
  apply Hsf; simpl; repeat (first [left; reflexivity | right]).

(** After a piece [z] of the name, the rest of [url_name] does not match:
    the lazy run goes on. *)
Lemma url_tail_fails n z g sl c k :
  z <> [] -> ~ In (ch "/") z ->
  g = lit ".git" \/ (g = [] /\ z <> lit ".git") ->
  sl = [] \/ sl = lit "/" ->
  m n (Seq (Opt (L ".git")) (Seq (Opt (L "/")) Eos)) (z ++ g ++ sl) c k = None.
Proof.
  intros Hz Hsf Hg Hsl.
  destruct (m n _ (z ++ g ++ sl) c k) eqn:E; [exfalso | reflexivity].
  apply m_sound in E as (s' & c' & D & _).
  destruct Hg as [-> | [-> Hg]]; destruct Hsl as [-> | ->];
    simpl in D; break; subst;
    match goal with H : _ ++ _ = _ |- _ => solve_for_z H end;
    subst; first [congruence | solve [apply Hg; reflexivity] | solve [slash_inside Hsf]].
Qed.

Lemma ssh_tail_fails n z g c k :
  z <> [] -> ~ In (ch "/") z ->
  g = lit ".git" \/ (g = [] /\ z <> lit ".git") ->
  m n (Seq (Opt (L ".git")) Eos) (z ++ g) c k = None.
Proof.
  intros Hz Hsf Hg.
  destruct (m n _ (z ++ g) c k) eqn:E; [exfalso | reflexivity].
  apply m_sound in E as (s' & c' & D & _).
  destruct Hg as [-> | [-> Hg]];
    simpl in D; break; subst;
    match goal with H : _ ++ _ = _ |- _ => solve_for_z H end;
    subst; first [congruence | solve [apply Hg; reflexivity] | solve [slash_inside Hsf]].
Qed.

Lemma url_tail_matches n g sl c k :
  g = [] \/ g = lit ".git" -> sl = [] \/ sl = lit "/" ->
  m n (Seq (Opt (L ".git")) (Seq (Opt (L "/")) Eos)) (g ++ sl) c k = k [] c.
Proof.
  intros [-> | ->] [-> | ->]; simpl; destruct (k [] c); reflexivity.
Qed.

Lemma ssh_tail_matches n g c k :
  g = [] \/ g = lit ".git" ->
  m n (Seq (Opt (L ".git")) Eos) g c k = k [] c.
Proof.
  intros [-> | ->]; simpl; destruct (k [] c); reflexivity.
Qed.

Lemma firstn_whole (s : str) : firstn (length s - length (@nil char)) s = s.
Proof. simpl. rewrite Nat.sub_0_r. apply firstn_all. Qed.

Lemma suffix_not_git (seg y z : str) :
  endsWith seg (lit ".git") = false -> seg = y ++ z -> z <> lit ".git".
Proof.
  intros H -> ->. assert (endsWith (y ++ lit ".git") (lit ".git") = true)
    by (apply endsWith_iff; eauto). congruence.
Qed.

(** [url_name] started at the slash before the last segment captures
    that segment. *)
Lemma url_name_at n seg g sl :
  seg <> [] -> ~ In (ch "/") seg ->
  g = lit ".git" \/ (g = [] /\ endsWith seg (lit ".git") = false) ->
  sl = [] \/ sl = lit "/" ->
  m n url_name (lit "/" ++ seg ++ g ++ sl) no_caps
    (whole (lit "/" ++ seg ++ g ++ sl)) =
  Some (set_cap 0 (lit "/" ++ seg ++ g ++ sl) (set_cap 1 seg no_caps)).
Proof.
  intros Hne Hsf Hg Hsl. rewrite url_name_eq.
  set (t := lit "/" ++ seg ++ g ++ sl).
  remember (Seq (Opt (L ".git")) (Seq (Opt (L "/")) Eos)) as tail eqn:Etail.
  cbn [m L]. unfold t at 1. rewrite lit_match_app.
  destruct seg as [|a seg]; [contradiction|].
  assert (Ha : cset_mem not_slash a = true)
    by (apply not_slash_iff; intros ->; apply Hsf; left; reflexivity).
  cbn [app]. rewrite Ha.
  apply star_lazy_first.
  - apply slash_free_iff. intros I. apply Hsf. right. assumption.
  - intros y z E Hz. cbv beta. rewrite Etail. apply url_tail_fails; auto.
    + intros I. apply Hsf. right. rewrite E. apply in_or_app. auto.
    + destruct Hg as [Hg | [Hg He]]; [left; assumption | right].
      split; [assumption|].
      apply (@suffix_not_git (a :: seg) (a :: y) z He). rewrite E. reflexivity.
  - cbv beta. rewrite Etail, url_tail_matches.
    + unfold whole. rewrite firstn_whole.
      change (a :: seg ++ g ++ sl) with ((a :: seg) ++ g ++ sl).
      rewrite firstn_consumed. reflexivity.
    + destruct Hg as [Hg | [Hg _]]; auto.
    + assumption.
Qed.

(** [ssh_name] started at a colon followed by one directory and the
    last segment captures that segment. *)
Lemma ssh_name_at n dir seg g :
  dir <> [] -> ~ In (ch "/") dir ->
  seg <> [] -> ~ In (ch "/") seg ->
  g = lit ".git" \/ (g = [] /\ endsWith seg (lit ".git") = false) ->
  m n ssh_name (lit ":" ++ dir ++ lit "/" ++ seg ++ g) no_caps
    (whole (lit ":" ++ dir ++ lit "/" ++ seg ++ g)) =
  Some (set_cap 0 (lit ":" ++ dir ++ lit "/" ++ seg ++ g)
          (set_cap 2 seg (set_cap 1 (dir ++ lit "/") no_caps))).
Proof.
  intros Hd Hdsf Hne Hsf Hg. rewrite ssh_name_eq.
  set (t := lit ":" ++ dir ++ lit "/" ++ seg ++ g).
  remember (Seq (Opt (L ".git")) Eos) as tail eqn:Etail.
  cbn [m L]. unfold t at 1 2. rewrite lit_match_app.
  destruct dir as [|b dir]; [contradiction|].
  assert (Hb : cset_mem not_slash b = true)
    by (apply not_slash_iff; intros ->; apply Hdsf; left; reflexivity).
  cbn [app]. rewrite Hb.
  erewrite star_greedy_run; [reflexivity | | reflexivity |].
  - apply slash_free_iff. intros I. apply Hdsf. right. assumption.
  - cbv beta. rewrite lit_match_app.
    destruct seg as [|a seg]; [contradiction|].
    assert (Ha : cset_mem not_slash a = true)
      by (apply not_slash_iff; intros ->; apply Hsf; left; reflexivity).
    cbn [app]. rewrite Ha.
    apply star_lazy_first.
    + apply slash_free_iff. intros I. apply Hsf. right. assumption.
    + intros y z E Hz. cbv beta. rewrite Etail. apply ssh_tail_fails; auto.
      * intros I. apply Hsf. right. rewrite E. apply in_or_app. auto.
      * destruct Hg as [Hg | [Hg He]]; [left; assumption | right].
        split; [assumption|].
        apply (@suffix_not_git (a :: seg) (a :: y) z He). rewrite E. reflexivity.
    + cbv beta. rewrite Etail, ssh_tail_matches.
      * unfold whole. rewrite firstn_whole.
        change (a :: seg ++ g) with ((a :: seg) ++ g).
        rewrite firstn_consumed.
        replace (b :: dir ++ lit "/" ++ (a :: seg) ++ g)
          with ((b :: dir ++ lit "/") ++ (a :: seg) ++ g)
          by (simpl; rewrite <- app_assoc; reflexivity).
        rewrite firstn_consumed. unfold t. cbn [app].
        rewrite <- (app_assoc dir). reflexivity.
      * destruct Hg as [Hg | [Hg _]]; auto.
Qed.

Lemma exec_from_hit n r t c : forall p,
  m n r t no_caps (whole t) = Some c -> exec_from n r (p ++ t) <> None.
Proof.
  intros p H. induction p as [|a p IH].
  - destruct t; simpl in *; rewrite H; discriminate.
  - cbn [app]. rewrite exec_from_cons.
    destruct (m n r (a :: p ++ t) no_caps _); [discriminate | exact IH].
Qed.

Lemma prefix_before (c : char) : forall w x l l',
  ~ In c w -> x ++ c :: l = w ++ l' -> exists q, x = w ++ q.
Proof.
  induction w as [|a w IH]; intros x l l' Hw E.
  - exists x. reflexivity.
  - destruct x as [|b x]; simpl in E.
    + injection E as -> _. exfalso. apply Hw. left. reflexivity.
    + injection E as -> E. apply IH in E as [q ->].
      * exists q. reflexivity.
      * intros I. apply Hw. right. assumption.
Qed.

(** A suffix without [c] lies after the last [c]. *)
Lemma suffix_after (c : char) pre s p w :
  ~ In c w -> pre ++ c :: s = p ++ w -> exists q, s = q ++ w.
Proof.
  intros Hw E. apply (f_equal (@rev _)) in E.
  rewrite !rev_app_distr in E. simpl in E. rewrite <- app_assoc in E.
  simpl in E. apply prefix_before in E as [q E].
  - exists (rev q). rewrite <- (rev_involutive s), E, rev_app_distr,
      rev_involutive. reflexivity.
  - rewrite <- in_rev. assumption.
Qed.

Lemma last_split_both (c : char) a b a' b' :
  ~ In c b -> ~ In c b' -> a ++ c :: b = a' ++ c :: b' -> a = a' /\ b = b'.
Proof.
  intros Hb Hb' E. pose proof (@last_split c a b a' b' Hb Hb' E) as ->.
  split; [|reflexivity].
  change (a ++ [c] ++ b' = a' ++ [c] ++ b') in E. rewrite !app_assoc in E.
  apply app_inv_tail in E. apply app_inv_tail in E. assumption.
Qed.

Lemma git_slash_free x g :
  ~ In (ch "/") x -> g = [] \/ g = lit ".git" -> ~ In (ch "/") (x ++ g).
Proof.
  intros Hx Hg I. apply in_app_or in I as [I | I]; [contradiction|].
  destruct Hg as [-> | ->]; simpl in I; intuition discriminate.
Qed.

Lemma git_colon_free x g :
  ~ In (ch ":") x -> g = [] \/ g = lit ".git" -> ~ In (ch ":") (x ++ g).
Proof.
  intros Hx Hg I. apply in_app_or in I as [I | I]; [contradiction|].
  destruct Hg as [-> | ->]; simpl in I; intuition discriminate.
Qed.

(** Whether the text ends in a slash is decided by its last piece. *)
Lemma ends_in_slash pre x g sl :
  x <> [] -> ~ In (ch "/") x -> g = [] \/ g = lit ".git" ->
  sl = [] \/ sl = lit "/" ->
  last_is is_slash (pre ++ x ++ g ++ sl) = negb (falsy sl).
Proof.
  intros Hx Hsf Hg [-> | ->].
  - rewrite app_nil_r. rewrite last_is_app2.
    + apply last_is_slash_free, git_slash_free; assumption.
    + destruct x; [contradiction | discriminate].
  - rewrite !app_assoc. apply (last_is_app is_slash _ (ch "/")).
Qed.

Lemma url_name_match_shape n t c k v :
  m n url_name t c k = Some v ->
  exists x g sl,
    t = lit "/" ++ x ++ g ++ sl /\
    x <> [] /\ ~ In (ch "/") x /\
    (g = [] \/ g = lit ".git") /\ (sl = [] \/ sl = lit "/").
Proof.
  intros H. apply m_sound in H as (s' & c' & D & _).
  simpl in D. break; subst;
    match goal with
    | Hn : ?x <> [], Hf : forallb _ ?x = true |- _ =>
        apply slash_free_iff in Hf;
        first [ solve [exists x, (lit ".git"), (lit "/"); repeat split; auto]
              | solve [exists x, [], (lit "/"); repeat split; auto]
              | solve [exists x, (lit ".git"), []; repeat split; auto]
              | solve [exists x, [], []; repeat split; auto] ]
    end.
Qed.

Lemma ssh_name_match_shape n t c k v :
  m n ssh_name t c k = Some v ->
  exists d x g,
    t = lit ":" ++ d ++ x ++ g /\
    (d = [] \/ exists y, d = y ++ lit "/" /\ y <> [] /\ ~ In (ch "/") y) /\
    x <> [] /\ ~ In (ch "/") x /\ (g = [] \/ g = lit ".git").
Proof.
  intros H. apply m_sound in H as (s' & c' & D & _).
  simpl in D. break; subst;
    repeat match goal with
           | Hf : forallb (cset_mem not_slash) _ = true |- _ =>
               apply slash_free_iff in Hf
           end;
    match goal with
    | |- exists d0 x0 g0, _ :: ?yy ++ _ :: ?xx ++ ?ww = _ /\ _ =>
        exists (yy ++ lit "/"), xx, ww;
        split; [simpl; rewrite <- app_assoc; reflexivity|];
        split; [right; exists yy; auto|]; auto
    | |- exists d0 x0 g0, _ :: ?xx ++ ?ww = _ /\ _ =>
        exists [], xx, ww;
        split; [reflexivity|]; split; [left; reflexivity|]; auto
    end.
Qed.

Section LastSegment.
Variables pre seg g sl : str.
Hypothesis seg_not_empty : seg <> [].
Hypothesis seg_no_slash : ~ In (ch "/") seg.
Hypothesis git_suffix :
  g = lit ".git" \/ (g = [] /\ endsWith seg (lit ".git") = false).
Hypothesis slash_suffix : sl = [] \/ sl = lit "/".

Lemma git_suffix_cases : g = [] \/ g = lit ".git".
Proof. destruct git_suffix as [H | [H _]]; auto. Qed.

(** [url_name] matches in the text only at the slash before [seg]. *)
Lemma url_name_only_there n p t c k v :
  pre ++ lit "/" ++ seg ++ g ++ sl = p ++ t -> m n url_name t c k = Some v ->
  t = lit "/" ++ seg ++ g ++ sl.
Proof.
  intros E H. pose proof git_suffix_cases as Hg.
  apply url_name_match_shape in H
    as (x & g' & sl' & -> & Hx & Hxs & Hg' & Hsl').
  assert (Esl : sl' = sl).
  { pose proof (ends_in_slash (pre ++ lit "/") seg_not_empty seg_no_slash
                  Hg slash_suffix) as L1.
    pose proof (ends_in_slash (p ++ lit "/") Hx Hxs Hg' Hsl') as L2.
    rewrite <- !app_assoc in L1, L2. rewrite E in L1.
    rewrite L1 in L2.
    destruct slash_suffix as [-> | ->]; destruct Hsl' as [-> | ->];
      simpl in L2; congruence. }
  subst sl'.
  assert (E' : pre ++ ch "/" :: (seg ++ g) = p ++ ch "/" :: (x ++ g')).
  { apply (app_inv_tail sl). rewrite <- !app_assoc. cbn [app].
    rewrite <- !app_assoc. exact E. }
  apply last_split_both in E' as [_ E'];
    try (apply git_slash_free; assumption).
  rewrite (app_assoc x), <- E', <- app_assoc. reflexivity.
Qed.

Lemma exec_url_name_segment :
  exists mr, exec url_name (pre ++ lit "/" ++ seg ++ g ++ sl) = Some mr /\ group mr 1 = seg.
Proof.
  pose proof (url_name_at (length (pre ++ lit "/" ++ seg ++ g ++ sl)) seg_not_empty seg_no_slash git_suffix
                slash_suffix) as Hat.
  destruct (exec url_name (pre ++ lit "/" ++ seg ++ g ++ sl)) as [mr|] eqn:E.
  - exists mr. split; [reflexivity|].
    unfold exec in E. apply exec_from_found in E as (p & t & Eu & Hm & _).
    pose proof (@url_name_only_there _ p t _ _ _ Eu Hm) as ->.
    rewrite Hat in Hm. injection Hm as Hm. unfold group. rewrite <- Hm.
    reflexivity.
  - exfalso. revert E. unfold exec. eapply exec_from_hit. exact Hat.
Qed.

Hypothesis seg_no_colon : ~ In (ch ":") seg.

(** When [ssh_name] matches in the text, it captures [seg]. *)
Lemma exec_ssh_name_segment mr :
  exec ssh_name (pre ++ lit "/" ++ seg ++ g ++ sl) = Some mr ->
  group mr 2 = seg.
Proof.
  intros E. pose proof git_suffix_cases as Hg.
  unfold exec in E. apply exec_from_found in E as (p & t & Eu & Hm & _).
  pose proof Hm as Hshape.
  apply ssh_name_match_shape in Hshape
    as (d & x & g' & -> & Hd & Hx & Hxs & Hg').
  (* the text does not end in a slash *)
  assert (Esl : sl = []).
  { pose proof (ends_in_slash (pre ++ lit "/") seg_not_empty seg_no_slash
                  Hg slash_suffix) as L1.
    pose proof (ends_in_slash (p ++ lit ":" ++ d) Hx Hxs Hg'
                  (or_introl eq_refl)) as L2.
    rewrite <- !app_assoc in L1. rewrite <- !app_assoc in L2.
    rewrite app_nil_r in L2. rewrite Eu, L2 in L1.
    destruct slash_suffix as [-> | ->]; [reflexivity | discriminate]. }
  subst sl. rewrite !app_nil_r in *.
  destruct Hd as [-> | (y & -> & Hy & Hys)].
  - (* no directory: the colon would be in the last segment *)
    exfalso. cbn [app] in Eu.
    assert (Hw : ~ In (ch "/") (ch ":" :: x ++ g')).
    { intros [I | I]; [discriminate|].
      revert I. apply git_slash_free; assumption. }
    apply (@suffix_after (ch "/") pre (seg ++ g) p _ Hw) in Eu as [q Eq].
    apply (@git_colon_free seg g seg_no_colon Hg). rewrite Eq.
    apply in_or_app. right. left. reflexivity.
  - assert (E' : pre ++ ch "/" :: (seg ++ g)
                 = (p ++ lit ":" ++ y) ++ ch "/" :: (x ++ g')).
    { rewrite <- !app_assoc in Eu. rewrite <- !app_assoc. exact Eu. }
    apply last_split_both in E' as [_ E'];
      try (apply git_slash_free; assumption).
    rewrite <- (app_assoc y), <- E' in Hm.
    rewrite (@ssh_name_at _ y seg g Hy Hys seg_not_empty seg_no_slash git_suffix) in Hm.
    injection Hm as Hm. unfold group. rewrite <- Hm. reflexivity.
Qed.

End LastSegment.


End SegmentFacts.
Import SegmentFacts.



(* ================================================================== *)
(** * What the validator recognises *)
(* ================================================================== *)

Module ValidFacts.
Import GitUrlValidator.

Lemma wdd_url_char x :
  forallb (cset_mem wdd) x = true -> forallb url_char x = true.
Proof.
  rewrite !forallb_forall. intros H c I. specialize (H c I).
  apply wdd_cases in H. unfold url_char, cset_mem, wdds.
  cbn [negated items existsb item_mem xorb]. unfold is_word.
  change (ch "-") with 45%N. change (ch ".") with 46%N.
  change (ch "/") with 47%N. change (ch ":") with 58%N.
  change (ch "@") with 64%N.
  rewrite !orb_true_iff, !andb_true_iff, !N.leb_le, !N.eqb_eq. lia.
Qed.

Lemma wdds_url_char x :
  forallb (cset_mem wdds) x = true -> forallb url_char x = true.
Proof.
  rewrite !forallb_forall. intros H c I. specialize (H c I).
  unfold url_char. rewrite H. reflexivity.
Qed.

Ltac url_chars :=
  repeat match goal with
         | H : forallb (cset_mem wdd) _ = true |- _ => apply wdd_url_char in H
         | H : forallb (cset_mem wdds) _ = true |- _ => apply wdds_url_char in H
         end;
  repeat (first [progress cbn [forallb] | rewrite forallb_app]);
  repeat match goal with
         | H : forallb url_char _ = true |- _ => rewrite H; clear H
         end;
  reflexivity.

(** Every pattern of the validator accepts only texts made of word
    characters, [-], [.], [/], [:] and [@]. *)
Lemma pattern_chars r t :
  In r PATTERNS -> test r t = true -> forallb url_char t = true.
Proof.
  intros Hr T. simpl in Hr.
  repeat (destruct Hr as [<- | Hr];
          [apply test_anchored in T as (s' & c' & D); simpl in D; break; subst;
           url_chars|]).
  contradiction.
Qed.

Lemma isValid_chars x :
  isValid x = true -> trim x <> [] /\ forallb url_char (trim x) = true.
Proof.
  unfold isValid. destruct (trim x) as [|a t] eqn:E; [discriminate|].
  cbn [falsy]. intros H. split; [discriminate|].
  apply existsb_exists in H as (r & Hr & T).
  eapply pattern_chars; eassumption.
Qed.

Lemma isValid_trim x : isValid (trim x) = isValid x.
Proof. unfold isValid. rewrite trim_idem. reflexivity. Qed.

Lemma chop_chars p s : forallb p s = true -> forallb p (chop s) = true.
Proof.
  intros H. destruct (chop_cases s) as [-> | E]; [assumption|].
  rewrite E, forallb_app in H. apply andb_true_iff in H as [H _]. assumption.
Qed.

(** [normalize] trims, removes at most one slash from the end and
    appends at most one [.git]. *)
Lemma normalize_shape x :
  exists c,
    (c = trim x \/ trim x = c ++ lit "/") /\
    (normalize x = c \/
     (normalize x = c ++ lit ".git" /\ endsWith c (lit ".git") = false)).
Proof.
  rewrite normalize_unfold. cbv zeta.
  destruct (is_ssh_or_git (trim x)); [exists (trim x); auto|].
  destruct (is_http (trim x)); [|exists (trim x); auto].
  exists (chop (trim x)). split.
  - destruct (chop_cases (trim x)) as [E | E]; [left | right]; auto.
  - destruct (endsWith (chop (trim x)) (lit ".git")); [auto|].
    destruct (isKnownProvider (chop (trim x))); [auto|].
    destruct (looksLikeRepositoryUrl (chop (trim x))); auto.
Qed.

Lemma normalize_chars x :
  isValid x = true -> forallb url_char (normalize x) = true.
Proof.
  intros H. apply isValid_chars in H as [_ H].
  destruct (normalize_shape x) as (c & Hc & Hn).
  assert (Hcc : forallb url_char c = true).
  { destruct Hc as [-> | E]; [assumption|].
    rewrite E, forallb_app in H. apply andb_true_iff in H as [H _].
    assumption. }
  destruct Hn as [-> | [-> _]]; [assumption|].
  rewrite forallb_app, Hcc. reflexivity.
Qed.

End ValidFacts.
Import ValidFacts.

(* ================================================================== *)
(** * Where the name comes from *)
(* ================================================================== *)

Module CaptureFacts.
Import GitUrlValidator.

Lemma Contains_head (x b : str) : Contains (x ++ b) x.
Proof. exists [], b. reflexivity. Qed.

Lemma Contains_cons (c : char) (s x : str) : Contains s x -> Contains (c :: s) x.
Proof. intros (a & b & ->). exists (c :: a), b. reflexivity. Qed.

Lemma Contains_skip (p s x : str) : Contains s x -> Contains (p ++ s) x.
Proof.
  intros (a & b & ->). exists (p ++ a), b. rewrite <- app_assoc. reflexivity.
Qed.

Lemma Contains_chars p (s x : str) :
  Contains s x -> forallb p s = true -> forallb p x = true.
Proof.
  intros (a & b & ->). rewrite !forallb_app.
  intros H. apply andb_true_iff in H as [_ H].
  apply andb_true_iff in H as [H _]. assumption.
Qed.

Ltac contained :=
  repeat first [apply Contains_head | apply Contains_cons | apply Contains_skip].

(** What a pattern of [extractRepositoryName] captures as the name is a
    non-empty piece of the text. *)
Lemma name_capture url mr :
  (exec ssh_name url = Some mr ->
   group mr 2 <> [] /\ Contains url (group mr 2)) /\
  (exec url_name url = Some mr ->
   group mr 1 <> [] /\ Contains url (group mr 1)) /\
  (exec path_name url = Some mr ->
   group mr 1 <> [] /\ Contains url (group mr 1)).
Proof.
  unfold exec. split; [|split]; intros H;
    apply exec_from_sound in H as (p & t & s' & c' & -> & D & Hi & Hg);
    unfold group; rewrite Hg; clear Hg Hi; simpl in D; break; subst;
    cbn [set_cap Nat.eqb]; rewrite firstn_consumed;
    (split; [assumption | contained]).
Qed.

Lemma extractRepositoryName_source url :
  extractRepositoryName url <> [] /\
  (Contains url (extractRepositoryName url) \/
   extractRepositoryName url = lit "repository").
Proof.
  unfold extractRepositoryName.
  set (sshMatch := if includes url (lit "@") && includes url (lit ":")
                      && negb (includes url (lit "://"))
                   then exec ssh_name url else None).
  assert (Hs : forall mr, sshMatch = Some mr ->
               group mr 2 <> [] /\ Contains url (group mr 2)).
  { intros mr. unfold sshMatch.
    destruct (_ && _ && _); [|discriminate].
    intros E. apply (proj1 (@name_capture url mr) E). }
  destruct sshMatch as [mr|].
  { destruct (Hs mr eq_refl). auto. }
  destruct (exec url_name url) as [mr|] eqn:E2.
  { destruct (proj1 (proj2 (@name_capture url mr)) E2). auto. }
  destruct (exec path_name url) as [mr|] eqn:E3.
  { destruct (proj2 (proj2 (@name_capture url mr)) E3). auto. }
  split; [discriminate | right; reflexivity].
Qed.

End CaptureFacts.
Import CaptureFacts.

(* ================================================================== *)
(** * The normal form of a hosted provider URL *)
(* ================================================================== *)

Module HostedFacts.
Import GitUrlValidator.

Lemma hosted_shape host t :
  In host providers -> test (hosted host) t = true ->
  exists sch a b g sl,
    is_scheme sch /\ word_run a /\ word_run b /\
    (g = [] \/ g = lit ".git") /\ (sl = [] \/ sl = lit "/") /\
    t = sch ++ lit "://" ++ lit host ++ lit "/" ++ a ++ lit "/" ++ b ++ g ++ sl.
Proof.
  intros Hh T. simpl in Hh.
  repeat (destruct Hh as [<- | Hh];
          [apply test_anchored in T as (s' & c' & D); simpl in D; break; subst;
           match goal with
           | Ha : ?a <> [], Hb : ?b <> [] |- context [?a ++ _ :: ?b ++ ?w] =>
               first
                 [ solve [exists (lit "https"), a, b, (lit ".git"), (lit "/");
                          repeat split; auto; try (left; reflexivity);
                          try (right; reflexivity)]
                 | solve [exists (lit "https"), a, b, [], (lit "/");
                          repeat split; auto; try (left; reflexivity);
                          try (right; reflexivity)]
                 | solve [exists (lit "https"), a, b, (lit ".git"), [];
                          repeat split; auto; try (left; reflexivity);
                          try (right; reflexivity)]
                 | solve [exists (lit "https"), a, b, [], [];
                          repeat split; auto; try (left; reflexivity);
                          try (right; reflexivity)]
                 | solve [exists (lit "http"), a, b, (lit ".git"), (lit "/");
                          repeat split; auto; try (left; reflexivity);
                          try (right; reflexivity)]
                 | solve [exists (lit "http"), a, b, [], (lit "/");
                          repeat split; auto; try (left; reflexivity);
                          try (right; reflexivity)]
                 | solve [exists (lit "http"), a, b, (lit ".git"), [];
                          repeat split; auto; try (left; reflexivity);
                          try (right; reflexivity)]
                 | solve [exists (lit "http"), a, b, [], [];
                          repeat split; auto; try (left; reflexivity);
                          try (right; reflexivity)] ]
           end|]).
  contradiction.
Qed.

Lemma isKnownProvider_hosted sch host a b :
  is_scheme sch -> In host providers -> word_run a -> word_run b ->
  isKnownProvider (sch ++ lit "://" ++ lit host ++ lit "/" ++ a ++ lit "/" ++ b)
  = true.
Proof.
  intros Hs Hh (Na & Fa) (Nb & Fb).
  unfold isKnownProvider. apply existsb_exists.
  exists (provider host). split.
  - simpl in Hh. unfold knownProviders.
    repeat (destruct Hh as [<- | Hh]; [simpl; auto|]). contradiction.
  - apply test_anchored. exists [], no_caps.
    rewrite <- (app_nil_r b).
    match goal with |- den _ _ ?u _ _ _ => set (input := u) end.
    cbv [provider https cat app L tl]. subst input.
    destruct Hs as [-> | ->].
    + apply den_lit, den_opt_skip, den_lit, den_lit, den_lit, den_plus, den_lit,
        den_plus, den_eos; assumption.
    + change (lit "https") with (lit "http" ++ lit "s"). rewrite <- app_assoc.
      apply den_lit, den_opt_lit, den_lit, den_lit, den_lit, den_plus, den_lit,
        den_plus, den_eos; assumption.
Qed.

Lemma chop_snoc s : chop (s ++ [ch "/"]) = s.
Proof.
  induction s as [|a s IH]; [reflexivity|].
  cbn [app]. destruct (s ++ [ch "/"]) as [|b r] eqn:E.
  - destruct s; discriminate.
  - change (chop (a :: b :: r)) with (a :: chop (b :: r)). rewrite IH.
    reflexivity.
Qed.

(** Whether a text ends in [.git] is decided after its last slash. *)
Lemma endsWith_segment p b :
  endsWith (p ++ ch "/" :: b) (lit ".git") = endsWith b (lit ".git").
Proof.
  unfold endsWith. rewrite rev_app_distr. cbn [rev]. rewrite <- app_assoc.
  destruct (rev b) as [|c1 [|c2 [|c3 [|c4 r]]]]; reflexivity.
Qed.

Lemma word_run_git b : word_run b -> word_run (b ++ lit ".git").
Proof.
  intros [N F]. split.
  - destruct b; [contradiction | discriminate].
  - rewrite forallb_app, F. reflexivity.
Qed.

Lemma scheme_is_http sch r :
  is_scheme sch -> is_http (sch ++ lit "://" ++ r) = true.
Proof. intros [-> | ->]; reflexivity. Qed.


End HostedFacts.
Import HostedFacts.

(* ================================================================== *)
(** * More on the detector and the resolver *)
(* ================================================================== *)

Module PlacementFacts.
Import ProjectFilePatterns ProjectFileDetector CloneLocationResolver.

Lemma distinct_NoDup l : distinct l = true -> NoDup l.
Proof.
  induction l as [|x l IH]; simpl; intros H; constructor;
    apply andb_true_iff in H as [Hx Hl].
  - intros I. apply array_includes_In in I. rewrite I in Hx. discriminate.
  - apply IH. assumption.
Qed.

Lemma NoDup_filter {A} (f : A -> bool) l : NoDup l -> NoDup (filter f l).
Proof.
  induction 1 as [|x l Hx Hl IH]; simpl; [constructor|].
  destruct (f x); [|assumption]. constructor; [|assumption].
  intros I. apply filter_In in I as [I _]. contradiction.
Qed.

Lemma NoDup_map_slash l :
  NoDup l -> NoDup (List.map (fun d : str => d ++ lit "/") l).
Proof.
  induction 1 as [|x l Hx Hl IH]; simpl; constructor; [|assumption].
  intros I. apply in_map_iff in I as (y & E & I).
  apply app_inv_tail in E. subst. contradiction.
Qed.

Lemma filter_same {A} (f g : A -> bool) l :
  (forall x, f x = g x) -> filter f l = filter g l.
Proof.
  intros E. induction l as [|x l IH]; simpl; [reflexivity|].
  rewrite E, IH. reflexivity.
Qed.

Lemma array_includes_same items items' x :
  (forall n, In n items <-> In n items') ->
  array_includes items x = array_includes items' x.
Proof.
  intros H. destruct (array_includes items x) eqn:E1;
    destruct (array_includes items' x) eqn:E2; try reflexivity.
  - apply array_includes_In, H, array_includes_In in E1. congruence.
  - apply array_includes_In, H, array_includes_In in E2. congruence.
Qed.

Lemma filter_nil {A} (f : A -> bool) l :
  filter f l = [] -> forall x, In x l -> f x = false.
Proof.
  intros E x I. destruct (f x) eqn:Fx; [|reflexivity].
  assert (In x (filter f l)) by (apply filter_In; auto).
  rewrite E in H. contradiction.
Qed.

(** What the loop returns is a candidate that does not exist, all the
    candidates before it existing. *)
Lemma probe_returns host repository root : forall fuel j target,
  probe host fuel repository root (candidate host root repository j) (S j)
    = Some target ->
  exists k,
    target = candidate host root repository (j + k) /\
    existsSync host target = false /\
    forall i, j <= i < j + k ->
              existsSync host (candidate host root repository i) = true.
Proof.
  induction fuel as [|fuel IH]; intros j target H; [discriminate|].
  cbn [probe] in H.
  destruct (existsSync host (candidate host root repository j)) eqn:E.
  - change (path_join host root (name repository ++ lit "-" ++ decimal (S j)))
      with (candidate host root repository (S j)) in H.
    apply IH in H as (k & -> & Hfree & Hex).
    exists (S k). replace (j + S k) with (S j + k) by lia.
    split; [reflexivity|]. split; [assumption|].
    intros i Hi. destruct (Nat.eq_dec i j) as [-> | Hne]; [assumption|].
    apply Hex. lia.
  - injection H as <-. exists 0. rewrite Nat.add_0_r.
    split; [reflexivity|]. split; [assumption|]. intros i Hi. lia.
Qed.

(** With every candidate present the loop does not end. *)
Lemma probe_runs_on host repository root :
  (forall k, existsSync host (candidate host root repository k) = true) ->
  forall fuel j,
    probe host fuel repository root (candidate host root repository j) (S j)
    = None.
Proof.
  intros Hall. induction fuel as [|fuel IH]; intros j; [reflexivity|].
  cbn [probe]. rewrite Hall.
  change (path_join host root (name repository ++ lit "-" ++ decimal (S j)))
    with (candidate host root repository (S j)).
  apply IH.
Qed.

Lemma hasCommonFiles_mk a b :
  hasCommonFiles {| hasCommonFiles := a; detectedFiles := b |} = a.
Proof. reflexivity. Qed.

Lemma Ok_inj (A : Type) (a b : A) : @Ok A a = Ok b -> a = b.
Proof. intros H. injection H as ->. reflexivity. Qed.

Lemma Some_Ok_inj (A : Type) (a b : A) : Some (@Ok A a) = Some (Ok b) -> a = b.
Proof. intros H. injection H as ->. reflexivity. Qed.

(** A location for an existing project is never the root. *)
Lemma resolveForExistingProject_subfolder host fuel repository root l :
  CloneLocationResolver.resolveForExistingProject host fuel repository root
    = Some l ->
  cloneToRoot l = false.
Proof.
  unfold CloneLocationResolver.resolveForExistingProject.
  destruct (CloneLocationResolver.probe _ _ _ _ _ _); [|discriminate].
  intros H. injection H as <-. reflexivity.
Qed.

(** When nothing was detected, no marker file is listed and no listed
    marker directory is a directory. *)
Lemma unmarked host root items :
  (0 <? length
     (filter (array_includes items) ProjectFilePatterns.COMMON_FILES ++
      List.map (fun d => d ++ lit "/")
        (filter (fun d => array_includes items d
                          && is_directory host (path_join host root d))
           ProjectFilePatterns.COMMON_DIRECTORIES))) = false ->
  (forall f, In f ProjectFilePatterns.COMMON_FILES -> ~ In f items) /\
  (forall d, In d ProjectFilePatterns.COMMON_DIRECTORIES -> In d items ->
             is_directory host (path_join host root d) = false).
Proof.
  intros El. apply Nat.ltb_ge in El.
  match type of El with length ?F <= 0 => assert (Hnil : F = [])
    by (apply length_zero_iff_nil; lia) end.
  apply app_eq_nil in Hnil as [Hf Hd]. apply map_eq_nil in Hd. split.
  - intros f Hin I. apply (filter_nil _ _ Hf) in Hin.
    apply array_includes_In in I. congruence.
  - intros d Hin I. apply (filter_nil _ _ Hd) in Hin.
    apply array_includes_In in I. rewrite I in Hin. exact Hin.
Qed.

End PlacementFacts.
Import PlacementFacts.

(* ================================================================== *)
(** * The state the watcher leaves *)
(* ================================================================== *)

Module StateFacts.
Import GitUrlValidator.

Lemma tick_state clipboard st :
  snd (fst (GitCloneExtension.checkClipboard clipboard st)) =
  match notification_of clipboard with
  | RepositoryDetected repository =>
      fst (GitCloneExtension.onRepositoryDetected repository st)
  | NoRepository => fst (GitCloneExtension.onNoRepository st)
  end.
Proof.
  unfold GitCloneExtension.checkClipboard, ClipboardMonitor.checkClipboard,
    notification_of.
  destruct clipboard as [clipboardText|e]; [|reflexivity].
  destruct (negb (falsy clipboardText) && isValid clipboardText); reflexivity.
Qed.

Lemma monitor_state_cons clipboard ticks st :
  snd (GitCloneExtension.clipboardMonitor (clipboard :: ticks) st) =
  snd (GitCloneExtension.clipboardMonitor ticks
         (snd (fst (GitCloneExtension.checkClipboard clipboard st)))).
Proof.
  unfold GitCloneExtension.clipboardMonitor. cbn [ClipboardMonitor.start].
  fold GitCloneExtension.checkClipboard.
  destruct (GitCloneExtension.checkClipboard clipboard st) as [[cs st1] r].
  cbn [fst snd].
  destruct (ClipboardMonitor.start GitCloneExtension.onRepositoryDetected
              GitCloneExtension.onNoRepository ticks st1).
  reflexivity.
Qed.

Lemma monitor_state_app ticks : forall ticks' st,
  snd (GitCloneExtension.clipboardMonitor (ticks ++ ticks') st) =
  snd (GitCloneExtension.clipboardMonitor ticks'
         (snd (GitCloneExtension.clipboardMonitor ticks st))).
Proof.
  induction ticks as [|c ticks IH]; intros ticks' st; [reflexivity|].
  cbn [app]. rewrite !monitor_state_cons. apply IH.
Qed.

Lemma tick_consistent clipboard st :
  consistent (snd (fst (GitCloneExtension.checkClipboard clipboard st))).
Proof.
  rewrite tick_state. destruct (notification_of clipboard); cbn; auto.
Qed.

Lemma tick_command clipboard st :
  command (GitCloneExtension.statusBarManager
             (snd (fst (GitCloneExtension.checkClipboard clipboard st)))) =
  command (GitCloneExtension.statusBarManager st).
Proof. rewrite tick_state. destruct (notification_of clipboard); reflexivity. Qed.

End StateFacts.
Import StateFacts.

(* ================================================================== *)
(** * The clone command *)
(* ================================================================== *)

Module CommandFacts.
Import GitUrlValidator.

Lemma showCloneResult_no_spawn editor r location gitArgs workingDir :
  ~ In (Spawn gitArgs workingDir)
      (UserInteractionService.showCloneResult editor r location).
Proof.
  unfold UserInteractionService.showCloneResult.
  destruct (negb (success r)); [simpl; intuition discriminate|].
  destruct (showInformationMessage editor _ _);
    [|simpl; intuition discriminate].
  destruct (resultTargetPath r) as [path|];
    repeat match goal with
           | |- context [if ?b then _ else _] => destruct b
           end; simpl; intuition discriminate.
Qed.

(** The [try] block once a path is confirmed. *)
Lemma tryClone_confirmed host editor fuel clipboardText workspaceFolders
    location box confirmedPath :
  falsy clipboardText = false ->
  isValid clipboardText = true ->
  CloneLocationResolver.resolve host fuel (createRepository clipboardText)
    workspaceFolders = Some (Ok location) ->
  UserInteractionService.confirmCloneLocation host editor workspaceFolders
    location (createRepository clipboardText) = Ok (box, Some confirmedPath) ->
  falsy confirmedPath = false ->
  GitCloneExtension.tryClone host editor fuel (Ok clipboardText) workspaceFolders =
  let started :=
    [box;
     Progress (lit "Cloning " ++ extractRepositoryName clipboardText ++ lit "...");
     Spawn
       (fst (GitCloneService.prepareGitCommand host
               (createRepository clipboardText) location confirmedPath))
       (snd (GitCloneService.prepareGitCommand host
               (createRepository clipboardText) location confirmedPath))] in
  match GitCloneService.clone host (createRepository clipboardText) location
          confirmedPath with
  | GitCloneService.Pending => (started, GitCloneExtension.Waiting)
  | GitCloneService.Rejected e => (started, GitCloneExtension.Thrown e)
  | GitCloneService.Fulfilled r =>
      (started ++ UserInteractionService.showCloneResult editor r location,
       GitCloneExtension.Returned)
  end.
Proof.
  intros Hf Hv Hr Hc Hp. unfold GitCloneExtension.tryClone.
  rewrite Hf, Hv, Hr, Hc, Hp. cbn [negb orb].
  destruct (GitCloneService.prepareGitCommand host
              (createRepository clipboardText) location confirmedPath).
  reflexivity.
Qed.

(** The first event that is not output decides the promise. *)
Lemma clone_decided host repository location confirmedPath output ev later :
  spawn host (lit "git")
    (fst (GitCloneService.prepareGitCommand host repository location confirmedPath))
    (snd (GitCloneService.prepareGitCommand host repository location confirmedPath))
  = Ok (output ++ ev :: later) ->
  forallb is_data output = true ->
  is_data ev = false ->
  GitCloneService.clone host repository location confirmedPath =
  GitCloneService.settled
    (GitCloneService.handle repository location confirmedPath
       {| GitCloneService.errorOutput := stderr_of output;
          GitCloneService.settled := GitCloneService.Pending |} ev).
Proof.
  intros Hspawn Hdata Hev.
  rewrite (clone_spawned _ _ _ _ Hspawn), fold_left_app, fold_data by assumption.
  cbn [fold_left app].
  destruct ev as [d|d|code|e]; try discriminate;
    apply settled_sticky; reflexivity.
Qed.

Lemma executeClone_of_try host editor fuel clipboard workspaceFolders actions :
  GitCloneExtension.tryClone host editor fuel clipboard workspaceFolders
    = (actions, GitCloneExtension.Returned) ->
  GitCloneExtension.executeClone host editor fuel clipboard workspaceFolders
    = (actions, GitCloneExtension.Returned).
Proof. unfold GitCloneExtension.executeClone. intros ->. reflexivity. Qed.

Lemma str_eqb_refl s : str_eqb s s = true.
Proof. apply str_eqb_eq. reflexivity. Qed.

Lemma falsy_false (s : str) : s <> [] -> falsy s = false.
Proof. destruct s; [contradiction | reflexivity]. Qed.

End CommandFacts.
Import CommandFacts.

(* ================================================================== *)
(** * Further properties of the code *)
(* ================================================================== *)

(** X1: a text the validator recognises is, once trimmed, not empty and
    made only of word characters, [-], [.], [/], [:] and [@] (no white
    space inside, no query or fragment); the trimmed text is recognised
    as well. *)
Theorem isValid_text (x : str) :
  isValid x = true ->
  trim x <> [] /\ forallb url_char (trim x) = true /\ isValid (trim x) = true.
Proof.
  intros H. destruct (isValid_chars x H) as [Hne Hc].
  rewrite isValid_trim. auto.
Qed.

Lemma isValid_text_witness :
  trim (lit "  git@github.com:a/b.git ") <> [] /\
  forallb url_char (trim (lit "  git@github.com:a/b.git ")) = true /\
  isValid (trim (lit "  git@github.com:a/b.git ")) = true.
Proof.
  apply (@isValid_text (lit "  git@github.com:a/b.git ")).
  vm_compute. reflexivity.
Defined.

(** X2: [normalize] only touches the ends of its input: the result is
    the trimmed input, or the trimmed input without its last slash,
    followed or not by [.git]; [.git] is appended only to a text that
    does not already end in [.git]. *)
Theorem normalize_ends_only (x : str) :
  exists c,
    (c = trim x \/ trim x = c ++ lit "/") /\
    (normalize x = c \/
     (normalize x = c ++ lit ".git" /\ endsWith c (lit ".git") = false)).
Proof. apply normalize_shape. Qed.

(** X3: for a recognised text the URL handed to git, [normalizedUrl],
    is made only of word characters, [-], [.], [/], [:] and [@]. *)
Theorem normalizedUrl_chars (x : str) :
  isValid x = true ->
  forallb url_char (normalizedUrl (createRepository x)) = true.
Proof. intros H. cbn [createRepository normalizedUrl]. apply normalize_chars, H. Qed.

Lemma normalizedUrl_chars_witness :
  forallb url_char
    (normalizedUrl (createRepository (lit " https://gitlab.com/group/project/ ")))
  = true.
Proof.
  apply (@normalizedUrl_chars (lit " https://gitlab.com/group/project/ ")).
  vm_compute. reflexivity.
Defined.

(** X4: for a text that the pattern of github.com, gitlab.com or
    bitbucket.org accepts (http or https, with or without [.git], with
    or without a final slash), [normalize] gives
    [scheme://host/owner/repo] with [repo] ending in [.git]. *)
Theorem normalize_hosted (host : string) (x : str) :
  In host providers ->
  test (hosted host) (trim x) = true ->
  exists sch owner repo,
    is_scheme sch /\ word_run owner /\ word_run repo /\
    endsWith repo (lit ".git") = true /\
    normalize x =
      sch ++ lit "://" ++ lit host ++ lit "/" ++ owner ++ lit "/" ++ repo.
Proof.
  intros Hh T.
  destruct (@hosted_shape host (trim x) Hh T)
    as (sch & a & b & g & sl & Hs & Ha & Hb & Hg & Hsl & Et).
  set (P := sch ++ lit "://" ++ lit host ++ lit "/" ++ a).
  assert (Ec : chop (trim x) = P ++ lit "/" ++ b ++ g).
  { rewrite Et. unfold P. rewrite <- !app_assoc.
    destruct Hsl as [-> | ->].
    - rewrite !app_nil_r. apply chop_last.
      rewrite !app_assoc. rewrite <- (app_assoc _ b g).
      rewrite last_is_app2 by (destruct Hb as [N _]; destruct b;
                                 [contradiction | discriminate]).
      destruct Hg as [-> | ->].
      + rewrite app_nil_r. apply word_run_last; [assumption | apply wdd_not_slash].
      + apply last_is_dot_git.
    - change (lit "/") with [ch "/"] at 3.
      rewrite !app_assoc. apply chop_snoc. }
  assert (Hhttp : is_http (trim x) = true)
    by (rewrite Et; apply scheme_is_http; assumption).
  assert (Hssh : is_ssh_or_git (trim x) = false).
  { destruct (is_http_head _ Hhttp) as [r ->]. apply head_h_not_ssh. }
  rewrite normalize_unfold. cbv zeta. rewrite Hssh, Hhttp, Ec.
  change (P ++ lit "/" ++ b ++ g) with (P ++ ch "/" :: (b ++ g)).
  rewrite endsWith_segment.
  destruct Hg as [-> | ->].
  - rewrite app_nil_r. destruct (endsWith b (lit ".git")) eqn:Eb.
    + exists sch, a, b. unfold P. rewrite <- !app_assoc. auto.
    + unfold P. rewrite <- !app_assoc.
      change (ch "/" :: b) with (lit "/" ++ b).
      rewrite isKnownProvider_hosted by assumption.
      exists sch, a, (b ++ lit ".git"). rewrite <- !app_assoc.
      repeat split; try assumption; try apply word_run_git; try assumption;
        try apply Ha; try apply Hb.
      apply endsWith_iff. eauto.
  - assert (Eg : endsWith (b ++ lit ".git") (lit ".git") = true)
      by (apply endsWith_iff; eauto).
    rewrite Eg. exists sch, a, (b ++ lit ".git"). unfold P.
    rewrite <- !app_assoc.
    repeat split; try assumption; try apply word_run_git; try assumption;
      try apply Ha; try apply Hb.
Qed.

Lemma normalize_hosted_witness :
  exists sch owner repo,
    is_scheme sch /\ word_run owner /\ word_run repo /\
    endsWith repo (lit ".git") = true /\
    normalize (lit " http://bitbucket.org/team/tool/ ") =
      sch ++ lit "://" ++ lit "bitbucket.org" ++ lit "/" ++ owner ++ lit "/" ++ repo.
Proof.
  apply (@normalize_hosted "bitbucket.org" (lit " http://bitbucket.org/team/tool/ ")).
  - right. right. left. reflexivity.
  - vm_compute. reflexivity.
Defined.

(** X5: for a text [{pre}/{seg}], [{pre}/{seg}.git], [{pre}/{seg}/] or
    [{pre}/{seg}.git/], with [seg] not empty and without slash or colon
    (and, when no [.git] follows, not itself ending in [.git]),
    [extractRepositoryName] returns [seg]: the last path segment, for the
    SSH shorthand [user@host:owner/repo.git] as for the URL forms. *)
Theorem extractRepositoryName_last (pre seg g sl : str) :
  seg <> [] -> ~ In (ch "/") seg -> ~ In (ch ":") seg ->
  g = lit ".git" \/ (g = [] /\ endsWith seg (lit ".git") = false) ->
  sl = [] \/ sl = lit "/" ->
  extractRepositoryName (pre ++ lit "/" ++ seg ++ g ++ sl) = seg.
Proof.
  intros Hne Hsf Hcf Hg Hsl. unfold extractRepositoryName.
  destruct (@exec_url_name_segment pre seg g sl Hne Hsf Hg Hsl) as (mr & -> & Hmr).
  destruct (includes _ (lit "@") && includes _ (lit ":")
            && negb (includes _ (lit "://"))); [|exact Hmr].
  destruct (exec ssh_name _) as [sshMatch|] eqn:E; [|exact Hmr].
  eapply exec_ssh_name_segment; eassumption.
Qed.

Lemma extractRepositoryName_last_witness :
  extractRepositoryName
    (lit "git@github.com:owner" ++ lit "/" ++ lit "repo" ++ lit ".git" ++ [])
  = lit "repo".
Proof.
  apply (@extractRepositoryName_last (lit "git@github.com:owner") (lit "repo")
           (lit ".git") []).
  - discriminate.
  - simpl. intuition discriminate.
  - simpl. intuition discriminate.
  - left. reflexivity.
  - left. reflexivity.
Defined.

(** X6: the name is never empty, and it is a piece of the input text or
    the fallback [repository]. *)
Theorem extractRepositoryName_from_text (url : str) :
  extractRepositoryName url <> [] /\
  (Contains url (extractRepositoryName url) \/
   extractRepositoryName url = lit "repository").
Proof. apply extractRepositoryName_source. Qed.

(** X7: for a recognised text without white space at its ends, the name
    of the repository made from it is made only of word characters, [-],
    [.], [:] and [@]: it can serve as a folder name. *)
Theorem repository_name_chars (x : str) :
  isValid x = true -> trim x = x ->
  forallb url_char (name (createRepository x)) = true /\
  ~ In (ch "/") (name (createRepository x)).
Proof.
  intros Hv Ht. cbn [createRepository name].
  split; [|apply extractRepositoryName_no_slash].
  destruct (isValid_chars x Hv) as [_ Hc]. rewrite Ht in Hc.
  destruct (extractRepositoryName_source x) as [_ [Hin | ->]].
  - eapply Contains_chars; eassumption.
  - reflexivity.
Qed.

Lemma repository_name_chars_witness :
  forallb url_char (name (createRepository (lit "ssh://git@host.example/a/b.git")))
  = true /\
  ~ In (ch "/") (name (createRepository (lit "ssh://git@host.example/a/b.git"))).
Proof.
  apply (@repository_name_chars (lit "ssh://git@host.example/a/b.git")).
  - vm_compute. reflexivity.
  - reflexivity.
Defined.

(** X8: [detect] depends on which names the directory lists, not on
    their order or repetition: two listings with the same names give the
    same result. *)
Theorem detect_listing_order (host : Host)
    (listing listing' : str -> result (list str))
    (workspacePath : str) (items items' : list str) :
  listing workspacePath = Ok items ->
  listing' workspacePath = Ok items' ->
  (forall n, In n items <-> In n items') ->
  ProjectFileDetector.detect (with_listing host listing) workspacePath =
  ProjectFileDetector.detect (with_listing host listing') workspacePath.
Proof.
  intros H H' Hsame.
  rewrite (@detect_listed (with_listing host listing) workspacePath items H).
  rewrite (@detect_listed (with_listing host listing') workspacePath items' H').
  cbv zeta.
  assert (E1 : filter (array_includes items) ProjectFilePatterns.COMMON_FILES
               = filter (array_includes items') ProjectFilePatterns.COMMON_FILES)
    by (apply filter_same; intros f; apply array_includes_same; assumption).
  assert (E2 :
    filter (fun d => array_includes items d &&
                     is_directory (with_listing host listing)
                       (path_join (with_listing host listing) workspacePath d))
      ProjectFilePatterns.COMMON_DIRECTORIES =
    filter (fun d => array_includes items' d &&
                     is_directory (with_listing host listing')
                       (path_join (with_listing host listing') workspacePath d))
      ProjectFilePatterns.COMMON_DIRECTORIES).
  { apply filter_same. intros d.
    rewrite (array_includes_same items items' d Hsame). reflexivity. }
  rewrite E1, E2. reflexivity.
Qed.

Lemma detect_listing_order_witness :
  ProjectFileDetector.detect
    (with_listing (Demo.host Demo.root [(lit "src", true)] [])
       (fun _ => Ok [lit "src"; lit "go.mod"; lit "notes"]))
    Demo.root =
  ProjectFileDetector.detect
    (with_listing (Demo.host Demo.root [(lit "src", true)] [])
       (fun _ => Ok [lit "notes"; lit "go.mod"; lit "src"; lit "go.mod"]))
    Demo.root.
Proof.
  apply (@detect_listing_order (Demo.host Demo.root [(lit "src", true)] [])
           (fun _ => Ok [lit "src"; lit "go.mod"; lit "notes"])
           (fun _ => Ok [lit "notes"; lit "go.mod"; lit "src"; lit "go.mod"])
           Demo.root
           [lit "src"; lit "go.mod"; lit "notes"]
           [lit "notes"; lit "go.mod"; lit "src"; lit "go.mod"]).
  - reflexivity.
  - reflexivity.
  - intros n. simpl. tauto.
Defined.

(** X9: [detect] reports each marker once: the list it returns has no
    repetition, whatever the directory lists. *)
Theorem detect_markers_distinct (host : Host) (workspacePath : str) :
  exists r,
    ProjectFileDetector.detect host workspacePath = Ok r /\
    NoDup (detectedFiles r).
Proof.
  destruct (readdirSync host workspacePath) as [items|e] eqn:E.
  - eexists. split; [eapply detect_listed; exact E|].
    cbv zeta. cbn [detectedFiles]. apply NoDup_app.
    + apply NoDup_filter, distinct_NoDup. vm_compute. reflexivity.
    + apply NoDup_map_slash, NoDup_filter, distinct_NoDup. vm_compute.
      reflexivity.
    + intros m Hf Hd. apply filter_In in Hf as [Hf _].
      apply in_map_iff in Hd as (d & <- & _).
      assert (Hall : forallb (fun f => negb (last_is is_slash f))
                       ProjectFilePatterns.COMMON_FILES = true)
        by (vm_compute; reflexivity).
      rewrite forallb_forall in Hall. specialize (Hall _ Hf).
      change (lit "/") with [ch "/"] in Hall.
      rewrite (last_is_app is_slash) in Hall. discriminate.
  - eexists. split; [eapply detect_unlisted; exact E|]. constructor.
Qed.

(** X10: [resolve] proposes the workspace root itself only for a first
    workspace folder that could be listed and in which no marker file
    name is listed and no listed marker directory name is a directory;
    the target is then that folder. *)
Theorem resolve_into_root (host : Host) (fuel : nat) (repository : GitRepository)
    (workspaceFolders : option (list str)) (location : CloneLocation) :
  CloneLocationResolver.resolve host fuel repository workspaceFolders
    = Some (Ok location) ->
  cloneToRoot location = true ->
  exists root others items,
    workspaceFolders = Some (root :: others) /\
    targetPath location = root /\
    readdirSync host root = Ok items /\
    (forall f, In f ProjectFilePatterns.COMMON_FILES -> ~ In f items) /\
    (forall d, In d ProjectFilePatterns.COMMON_DIRECTORIES -> In d items ->
               is_directory host (path_join host root d) = false).
Proof.
  unfold CloneLocationResolver.resolve. intros H Hroot.
  destruct workspaceFolders as [[|root others]|].
  - apply Some_Ok_inj in H. subst location. discriminate Hroot.
  - destruct (ProjectFileDetector.detect host root) as [d|e] eqn:Ed;
      [|discriminate H].
    destruct (hasCommonFiles d) eqn:Em.
    + destruct (CloneLocationResolver.resolveForExistingProject host fuel
                  repository root) as [l|] eqn:Ep; [|discriminate H].
      apply Some_Ok_inj in H. subst l.
      rewrite (resolveForExistingProject_subfolder _ _ _ _ Ep) in Hroot.
      discriminate Hroot.
    + apply Some_Ok_inj in H. subst location.
      destruct (readdirSync host root) as [items|e] eqn:E.
      * exists root, others, items.
        rewrite (@detect_listed host root items E) in Ed.
        apply Ok_inj in Ed. subst d. cbv zeta in Em. rewrite hasCommonFiles_mk in Em.
        apply unmarked in Em. destruct Em as [Hf Hd].
        split; [reflexivity|]. split; [reflexivity|]. split; [exact E|].
        split; assumption.
      * rewrite (@detect_unlisted host root e E) in Ed.
        apply Ok_inj in Ed. subst d. rewrite hasCommonFiles_mk in Em.
        discriminate Em.
  - apply Some_Ok_inj in H. subst location. discriminate Hroot.
Qed.

Lemma resolve_into_root_witness :
  exists root others items,
    Some [Demo.root] = Some (root :: others) /\
    targetPath (CloneLocationResolver.resolveForCleanWorkspace Demo.repo_b Demo.root)
      = root /\
    readdirSync (Demo.host Demo.root [(lit "src", false)] []) root = Ok items /\
    (forall f, In f ProjectFilePatterns.COMMON_FILES -> ~ In f items) /\
    (forall d, In d ProjectFilePatterns.COMMON_DIRECTORIES -> In d items ->
               is_directory (Demo.host Demo.root [(lit "src", false)] [])
                 (path_join (Demo.host Demo.root [(lit "src", false)] []) root d)
               = false).
Proof.
  apply (@resolve_into_root (Demo.host Demo.root [(lit "src", false)] []) 1
           Demo.repo_b (Some [Demo.root])
           (CloneLocationResolver.resolveForCleanWorkspace Demo.repo_b Demo.root)).
  - vm_compute. reflexivity.
  - reflexivity.
Defined.

(** X11: the path [resolve] proposes for a new subfolder of a workspace
    folder does not exist: it is [{root}/{name}] or [{root}/{name}-k],
    every candidate before it existing. *)
Theorem resolve_subfolder_is_free (host : Host) (fuel : nat)
    (repository : GitRepository) (root : str) (others : list str)
    (location : CloneLocation) :
  CloneLocationResolver.resolve host fuel repository (Some (root :: others))
    = Some (Ok location) ->
  cloneToRoot location = false ->
  exists k,
    targetPath location = candidate host root repository k /\
    existsSync host (targetPath location) = false /\
    forall i, i < k -> existsSync host (candidate host root repository i) = true.
Proof.
  unfold CloneLocationResolver.resolve. intros H Hsub.
  destruct (ProjectFileDetector.detect host root) as [d|e]; [|discriminate].
  destruct (hasCommonFiles d).
  - unfold CloneLocationResolver.resolveForExistingProject in H.
    destruct (CloneLocationResolver.probe host fuel repository root _ 1)
      as [target|] eqn:Ep; [|discriminate].
    injection H as <-. cbn [targetPath].
    change (path_join host root (name repository))
      with (candidate host root repository 0) in Ep.
    apply probe_returns in Ep as (k & -> & Hfree & Hex).
    exists k. cbn [Nat.add] in *. repeat split; auto.
    intros i Hi. apply Hex. lia.
  - injection H as <-. discriminate.
Qed.

Lemma resolve_subfolder_is_free_witness :
  exists k,
    lit "/work/foo-2" =
      candidate
        (Demo.host Demo.root
           [(lit "Makefile", false); (lit "foo", true); (lit "foo-1", true)] [])
        Demo.root Demo.repo_foo k /\
    existsSync
      (Demo.host Demo.root
         [(lit "Makefile", false); (lit "foo", true); (lit "foo-1", true)] [])
      (lit "/work/foo-2") = false /\
    forall i, i < k ->
      existsSync
        (Demo.host Demo.root
           [(lit "Makefile", false); (lit "foo", true); (lit "foo-1", true)] [])
        (candidate
           (Demo.host Demo.root
              [(lit "Makefile", false); (lit "foo", true); (lit "foo-1", true)] [])
           Demo.root Demo.repo_foo i) = true.
Proof.
  apply (@resolve_subfolder_is_free
           (Demo.host Demo.root
              [(lit "Makefile", false); (lit "foo", true); (lit "foo-1", true)] [])
           4 Demo.repo_foo Demo.root []
           {| targetPath := lit "/work/foo-2"; cloneToRoot := false;
              message := lit "Cloning foo to new folder (avoiding conflicts)" |}).
  - vm_compute. reflexivity.
  - reflexivity.
Defined.

(** X12: when the workspace folder has markers and every candidate
    [{root}/{name}], [{root}/{name}-1], ... exists, the loop of [resolve]
    does not end: no amount of fuel gives a result. *)
Theorem resolve_never_ends (host : Host) (fuel : nat) (repository : GitRepository)
    (root : str) (others : list str) (detection : ProjectFileDetectionResult) :
  ProjectFileDetector.detect host root = Ok detection ->
  hasCommonFiles detection = true ->
  (forall k, existsSync host (candidate host root repository k) = true) ->
  CloneLocationResolver.resolve host fuel repository (Some (root :: others))
    = None.
Proof.
  intros Hd Hm Hall. unfold CloneLocationResolver.resolve. rewrite Hd, Hm.
  unfold CloneLocationResolver.resolveForExistingProject.
  change (path_join host root (name repository))
    with (candidate host root repository 0).
  rewrite (@probe_runs_on host repository root Hall fuel 0). reflexivity.
Qed.

Lemma resolve_never_ends_witness :
  CloneLocationResolver.resolve
    (with_listing
       {| readdirSync := fun _ => Throw [];
          statSync := fun _ => Throw [];
          existsSync := fun _ => true;
          path_join := Demo.join;
          path_basename := Demo.basename;
          path_dirname := Demo.dirname;
          homedir := lit "/home/user";
          spawn := fun _ _ _ => Ok [] |}
       (fun _ => Ok [lit "package.json"]))
    1000 Demo.repo_foo (Some [Demo.root]) = None.
Proof.
  apply (@resolve_never_ends _ 1000 Demo.repo_foo Demo.root []
           {| hasCommonFiles := true; detectedFiles := [lit "package.json"] |}).
  - reflexivity.
  - reflexivity.
  - intros k. reflexivity.
Defined.

(** X13: [clone] succeeds when the first event that is not output is an
    exit with code 0: the promise is fulfilled with [success = true], the
    confirmed path, and a message that depends on the mode only; what the
    process emits afterwards changes nothing. *)
Theorem clone_success (host : Host) (repository : GitRepository)
    (location : CloneLocation) (confirmedPath : str)
    (output later : list ProcEvent) :
  spawn host (lit "git")
    (fst (GitCloneService.prepareGitCommand host repository location confirmedPath))
    (snd (GitCloneService.prepareGitCommand host repository location confirmedPath))
  = Ok (output ++ Close (Some 0%Z) :: later) ->
  forallb is_data output = true ->
  GitCloneService.clone host repository location confirmedPath =
  GitCloneService.Fulfilled
    {| success := true;
       resultMessage :=
         if cloneToRoot location
         then lit "Successfully cloned " ++ name repository
                ++ lit " to workspace root (no conflicts detected)"
         else lit "Successfully cloned " ++ name repository
                ++ lit " to new folder";
       resultTargetPath := Some confirmedPath |}.
Proof.
  intros Hspawn Hdata.
  rewrite (clone_spawned _ _ _ _ Hspawn), fold_left_app, fold_data by assumption.
  cbn [fold_left]. apply settled_sticky. reflexivity.
Qed.

Lemma clone_success_witness :
  GitCloneService.clone
    (Demo.host Demo.root []
       [StdoutData (lit "done"); Close (Some 0%Z); ProcError (lit "late")])
    Demo.repo_b
    {| targetPath := lit "/work"; cloneToRoot := true; message := [] |}
    (lit "/work") =
  GitCloneService.Fulfilled
    {| success := true;
       resultMessage :=
         lit "Successfully cloned b to workspace root (no conflicts detected)";
       resultTargetPath := Some (lit "/work") |}.
Proof.
  apply (@clone_success
           (Demo.host Demo.root []
              [StdoutData (lit "done"); Close (Some 0%Z); ProcError (lit "late")])
           Demo.repo_b
           {| targetPath := lit "/work"; cloneToRoot := true; message := [] |}
           (lit "/work") [StdoutData (lit "done")] [ProcError (lit "late")]);
    reflexivity.
Defined.

(** X14: [clone] sets no time limit: as long as the process has only
    written output, and has neither exited nor failed to start, the
    promise is pending. *)
Theorem clone_pending (host : Host) (repository : GitRepository)
    (location : CloneLocation) (confirmedPath : str) (output : list ProcEvent) :
  spawn host (lit "git")
    (fst (GitCloneService.prepareGitCommand host repository location
            confirmedPath))
    (snd (GitCloneService.prepareGitCommand host repository location
            confirmedPath))
  = Ok output ->
  forallb is_data output = true ->
  GitCloneService.clone host repository location confirmedPath =
  GitCloneService.Pending.
Proof.
  intros Hspawn Hdata.
  rewrite (clone_spawned _ _ _ _ Hspawn), fold_data by assumption.
  reflexivity.
Qed.

Lemma clone_pending_witness :
  GitCloneService.clone
    (Demo.host Demo.root []
       [StderrData (lit "Cloning into 'b'..."); StdoutData (lit "...")])
    Demo.repo_b
    {| targetPath := lit "/work/b"; cloneToRoot := false; message := [] |}
    (lit "/work/b") =
  GitCloneService.Pending.
Proof.
  apply (@clone_pending
           (Demo.host Demo.root []
              [StderrData (lit "Cloning into 'b'..."); StdoutData (lit "...")])
           Demo.repo_b
           {| targetPath := lit "/work/b"; cloneToRoot := false; message := [] |}
           (lit "/work/b")
           [StderrData (lit "Cloning into 'b'..."); StdoutData (lit "...")]);
    reflexivity.
Defined.

(** X15: when the proposal was the workspace root and the confirmed path
    is another one, git is asked to create the last component of the
    confirmed path inside its parent, yet on success the message still
    says "to workspace root". *)
Theorem clone_edited_root_path (host : Host) (repository : GitRepository)
    (location : CloneLocation) (confirmedPath : str)
    (output later : list ProcEvent) :
  cloneToRoot location = true ->
  confirmedPath <> targetPath location ->
  spawn host (lit "git")
    [lit "clone"; normalizedUrl repository; path_basename host confirmedPath]
    (path_dirname host confirmedPath)
  = Ok (output ++ Close (Some 0%Z) :: later) ->
  forallb is_data output = true ->
  GitCloneService.prepareGitCommand host repository location confirmedPath =
  ([lit "clone"; normalizedUrl repository; path_basename host confirmedPath],
   path_dirname host confirmedPath) /\
  GitCloneService.clone host repository location confirmedPath =
  GitCloneService.Fulfilled
    {| success := true;
       resultMessage :=
         lit "Successfully cloned " ++ name repository
           ++ lit " to workspace root (no conflicts detected)";
       resultTargetPath := Some confirmedPath |}.
Proof.
  intros Hroot Hedit Hspawn Hdata.
  assert (Hcmd :
    GitCloneService.prepareGitCommand host repository location confirmedPath =
    ([lit "clone"; normalizedUrl repository; path_basename host confirmedPath],
     path_dirname host confirmedPath)).
  { unfold GitCloneService.prepareGitCommand. rewrite Hroot.
    destruct (str_eqb confirmedPath (targetPath location)) eqn:E;
      [apply str_eqb_eq in E; contradiction | reflexivity]. }
  split; [exact Hcmd|].
  rewrite clone_unfold, Hcmd. cbn [fst snd].
  rewrite Hspawn. rewrite fold_left_app, fold_data by assumption.
  cbn [fold_left]. apply settled_sticky.
  cbn [GitCloneService.handle GitCloneService.settled GitCloneService.settle].
  unfold GitCloneService.createSuccessResult. rewrite Hroot. reflexivity.
Qed.

Lemma clone_edited_root_path_witness :
  GitCloneService.prepareGitCommand
    (Demo.host Demo.root [] [Close (Some 0%Z)]) Demo.repo_b
    {| targetPath := lit "/work"; cloneToRoot := true; message := [] |}
    (lit "/work/sub/b") =
  ([lit "clone"; lit "https://github.com/a/b.git"; lit "b"], lit "/work/sub") /\
  GitCloneService.clone
    (Demo.host Demo.root [] [Close (Some 0%Z)]) Demo.repo_b
    {| targetPath := lit "/work"; cloneToRoot := true; message := [] |}
    (lit "/work/sub/b") =
  GitCloneService.Fulfilled
    {| success := true;
       resultMessage :=
         lit "Successfully cloned b to workspace root (no conflicts detected)";
       resultTargetPath := Some (lit "/work/sub/b") |}.
Proof.
  apply (@clone_edited_root_path
           (Demo.host Demo.root [] [Close (Some 0%Z)]) Demo.repo_b
           {| targetPath := lit "/work"; cloneToRoot := true; message := [] |}
           (lit "/work/sub/b") [] []).
  - reflexivity.
  - discriminate.
  - reflexivity.
  - reflexivity.
Defined.

(** X16: after any sequence of ticks from the initial state, the status
    bar is consistent with the repository the extension holds: hidden
    when it holds none, visible with the name and the URL of the one it
    holds otherwise; its command is the clone command. *)
Theorem status_bar_consistent (ticks : list (result str)) :
  consistent (snd (GitCloneExtension.clipboardMonitor ticks GitCloneExtension.init))
  /\
  command (GitCloneExtension.statusBarManager
             (snd (GitCloneExtension.clipboardMonitor ticks GitCloneExtension.init)))
  = lit "glone.cloneFromClipboard".
Proof.
  assert (H : forall st,
             consistent st ->
             command (GitCloneExtension.statusBarManager st)
               = lit "glone.cloneFromClipboard" ->
             consistent (snd (GitCloneExtension.clipboardMonitor ticks st)) /\
             command (GitCloneExtension.statusBarManager
                        (snd (GitCloneExtension.clipboardMonitor ticks st)))
               = lit "glone.cloneFromClipboard").
  { induction ticks as [|c ticks IH]; intros st Hc Hcmd; [auto|].
    rewrite monitor_state_cons. apply IH.
    - apply tick_consistent.
    - rewrite tick_command. exact Hcmd. }
  apply H; reflexivity.
Qed.

(** X17: what the extension holds after a tick is decided by that tick
    alone: the repository made from the clipboard text when it is
    recognised, nothing otherwise, whatever the ticks before. *)
Theorem last_tick_decides (ticks : list (result str)) (clipboard : result str)
    (st : GitCloneExtension.State) :
  GitCloneExtension.currentRepository
    (snd (GitCloneExtension.clipboardMonitor (ticks ++ [clipboard]) st)) =
  repository_of (notification_of clipboard).
Proof.
  rewrite monitor_state_app, monitor_state_cons, tick_state.
  destruct (notification_of clipboard); reflexivity.
Qed.

(** X18: [executeClone] starts git only for a recognised clipboard text,
    after the resolver has answered and a non-empty path has been
    entered in the input box; the command is [clone], the normalised
    form of the text and one destination. *)
Theorem executeClone_spawn_guard (host : Host) (editor : Editor) (fuel : nat)
    (clipboard : result str) (workspaceFolders : option (list str))
    (gitArgs : list str) (workingDir : str) :
  In (Spawn gitArgs workingDir)
     (fst (GitCloneExtension.executeClone host editor fuel clipboard
             workspaceFolders)) ->
  exists clipboardText location confirmedPath destination,
    clipboard = Ok clipboardText /\
    isValid clipboardText = true /\
    CloneLocationResolver.resolve host fuel (createRepository clipboardText)
      workspaceFolders = Some (Ok location) /\
    (exists selection,
       showInputBox editor (message location) (targetPath location) selection
       = Some confirmedPath) /\
    confirmedPath <> [] /\
    gitArgs = [lit "clone"; normalize clipboardText; destination].
Proof.
  intros Hin.
  assert (Htry : In (Spawn gitArgs workingDir)
                   (fst (GitCloneExtension.tryClone host editor fuel clipboard
                           workspaceFolders))).
  { unfold GitCloneExtension.executeClone in Hin.
    destruct (GitCloneExtension.tryClone host editor fuel clipboard
                workspaceFolders) as [actions [| e |]];
      cbn [fst] in *; try assumption.
    apply in_app_or in Hin as [Hin | [Hin | []]];
      [assumption | discriminate Hin]. }
  clear Hin. unfold GitCloneExtension.tryClone in Htry.
  destruct clipboard as [clipboardText|e]; [|contradiction Htry].
  destruct (falsy clipboardText) eqn:Ef;
    [destruct Htry as [Htry | []]; discriminate Htry|].
  destruct (isValid clipboardText) eqn:Ev;
    [|destruct Htry as [Htry | []]; discriminate Htry].
  cbn [negb orb] in Htry.
  destruct (CloneLocationResolver.resolve host fuel
              (createRepository clipboardText) workspaceFolders)
    as [[location|e]|] eqn:Er; try contradiction Htry.
  destruct (UserInteractionService.confirmCloneLocation host editor
              workspaceFolders location (createRepository clipboardText))
    as [[box [confirmedPath|]]|e] eqn:Ec; try contradiction Htry;
    [|destruct Htry as [Htry | []]; subst box;
      unfold UserInteractionService.confirmCloneLocation in Ec;
      destruct (UserInteractionService.defaultPath host editor workspaceFolders);
      discriminate Ec].
  unfold UserInteractionService.confirmCloneLocation in Ec.
  destruct (UserInteractionService.defaultPath host editor workspaceFolders)
    as [d|e]; [|discriminate Ec].
  cbn [bind] in Ec. apply Ok_inj in Ec.
  apply pair_equal_spec in Ec as [Ebox Ea].
  destruct (falsy confirmedPath) eqn:Ep;
    [destruct Htry as [Htry | []]; subst box; discriminate Htry|].
  assert (Hcmd : exists destination wd,
    GitCloneService.prepareGitCommand host (createRepository clipboardText)
      location confirmedPath =
    ([lit "clone"; normalize clipboardText; destination], wd)).
  { unfold GitCloneService.prepareGitCommand.
    destruct (_ && _); eexists; eexists; reflexivity. }
  destruct Hcmd as (destination & wd & Hcmd).
  exists clipboardText, location, confirmedPath, destination.
  split; [reflexivity|]. split; [exact Ev|]. split; [exact Er|].
  split; [eexists; exact Ea|].
  split; [intros ->; discriminate Ep|].
  rewrite Hcmd in Htry.
  assert (Hstarted :
    In (Spawn gitArgs workingDir)
       [box;
        Progress (lit "Cloning " ++ name (createRepository clipboardText)
                    ++ lit "...");
        Spawn [lit "clone"; normalize clipboardText; destination] wd] ->
    gitArgs = [lit "clone"; normalize clipboardText; destination]).
  { intros [H | [H | [H | []]]].
    - subst box. discriminate H.
    - discriminate H.
    - injection H as <- _. reflexivity. }
  destruct (GitCloneService.clone host (createRepository clipboardText)
              location confirmedPath) as [|r|e]; cbn [fst] in Htry.
  - apply Hstarted, Htry.
  - apply in_app_or in Htry as [Htry | Htry]; [apply Hstarted, Htry|].
    exfalso. revert Htry. apply showCloneResult_no_spawn.
  - apply Hstarted, Htry.
Qed.

Lemma executeClone_spawn_guard_witness :
  exists clipboardText location confirmedPath destination,
    Ok (lit "https://github.com/a/b") = Ok clipboardText /\
    isValid clipboardText = true /\
    CloneLocationResolver.resolve
      (Demo.host Demo.root [(lit "package.json", false)] [Close (Some 0%Z)])
      3 (createRepository clipboardText) (Some [Demo.root])
      = Some (Ok location) /\
    (exists selection,
       showInputBox (Demo.editor (Some (lit "/work/b")) false)
         (message location) (targetPath location) selection
       = Some confirmedPath) /\
    confirmedPath <> [] /\
    [lit "clone"; lit "https://github.com/a/b.git"; lit "b"]
    = [lit "clone"; normalize clipboardText; destination].
Proof.
  apply (@executeClone_spawn_guard
           (Demo.host Demo.root [(lit "package.json", false)] [Close (Some 0%Z)])
           (Demo.editor (Some (lit "/work/b")) false) 3
           (Ok (lit "https://github.com/a/b")) (Some [Demo.root])
           [lit "clone"; lit "https://github.com/a/b.git"; lit "b"]
           (lit "/work")).
  vm_compute. right. right. left. reflexivity.
Defined.

(** X19: the whole command in a workspace folder with markers. For a
    recognised clipboard text, the input box proposes the first free
    candidate, with a selection that starts one past the length of the
    folder path and has the length of the repository name; once a
    non-empty path is entered, git is asked to create its last component
    inside its parent; when git exits with code 0 the success is
    announced with the button [Open Folder], and pressing it opens the
    path that was entered. *)
Theorem executeClone_into_subfolder (host : Host) (editor : Editor) (fuel : nat)
    (clipboardText root : str) (others : list str)
    (detection : ProjectFileDetectionResult) (k : nat) (confirmedPath : str)
    (output later : list ProcEvent) :
  falsy clipboardText = false ->
  isValid clipboardText = true ->
  ProjectFileDetector.detect host root = Ok detection ->
  hasCommonFiles detection = true ->
  (forall i, i < k ->
     existsSync host (candidate host root (createRepository clipboardText) i)
     = true) ->
  existsSync host (candidate host root (createRepository clipboardText) k)
    = false ->
  k < fuel ->
  showInputBox editor
    (lit "Cloning " ++ extractRepositoryName clipboardText
       ++ lit " to new folder (avoiding conflicts)")
    (candidate host root (createRepository clipboardText) k)
    (Some (length root + 1,
           length root + 1 + length (extractRepositoryName clipboardText)))
    = Some confirmedPath ->
  confirmedPath <> [] ->
  spawn host (lit "git")
    [lit "clone"; normalize clipboardText; path_basename host confirmedPath]
    (path_dirname host confirmedPath)
    = Ok (output ++ Close (Some 0%Z) :: later) ->
  forallb is_data output = true ->
  GitCloneExtension.executeClone host editor fuel (Ok clipboardText)
    (Some (root :: others)) =
  ([InputBox
      (lit "Cloning " ++ extractRepositoryName clipboardText
         ++ lit " to new folder (avoiding conflicts)")
      (candidate host root (createRepository clipboardText) k)
      (Some (length root + 1,
             length root + 1 + length (extractRepositoryName clipboardText)));
    Progress (lit "Cloning " ++ extractRepositoryName clipboardText ++ lit "...");
    Spawn
      [lit "clone"; normalize clipboardText; path_basename host confirmedPath]
      (path_dirname host confirmedPath);
    InformationMessage
      (lit "Successfully cloned " ++ extractRepositoryName clipboardText
         ++ lit " to new folder")
      (lit "Open Folder")]
   ++ (if showInformationMessage editor
            (lit "Successfully cloned " ++ extractRepositoryName clipboardText
               ++ lit " to new folder")
            (lit "Open Folder")
       then [Command (lit "vscode.openFolder") (Some confirmedPath)]
       else []),
   GitCloneExtension.Returned).
Proof.
  intros Hf Hv Hd Hm Hex Hfree Hfuel Hbox Hne Hspawn Hdata.
  apply executeClone_of_try.
  set (repository := createRepository clipboardText) in *.
  set (location :=
         {| targetPath := candidate host root repository k;
            cloneToRoot := false;
            message := lit "Cloning " ++ name repository
                         ++ lit " to new folder (avoiding conflicts)" |}).
  assert (Hr : CloneLocationResolver.resolve host fuel repository
                 (Some (root :: others)) = Some (Ok location)).
  { unfold CloneLocationResolver.resolve. rewrite Hd, Hm.
    rewrite (@resolveForExistingProject_first_free host repository root k fuel);
      auto. }
  assert (Hcmd :
    GitCloneService.prepareGitCommand host repository location confirmedPath =
    ([lit "clone"; normalize clipboardText; path_basename host confirmedPath],
     path_dirname host confirmedPath)) by reflexivity.
  rewrite (@tryClone_confirmed host editor fuel clipboardText
             (Some (root :: others)) location
             (InputBox (message location) (targetPath location)
                (Some (length root + 1,
                       length root + 1 + length (name repository))))
             confirmedPath Hf Hv Hr);
    [| unfold UserInteractionService.confirmCloneLocation; cbn; fold repository;
       cbn in Hbox; rewrite Hbox; reflexivity
     | apply falsy_false; assumption ].
  cbv zeta. fold repository. rewrite Hcmd. cbn [fst snd].
  rewrite (@clone_decided host repository location confirmedPath output
             (Close (Some 0%Z)) later)
    by (first [rewrite Hcmd; exact Hspawn | assumption | reflexivity]).
  cbn [GitCloneService.handle GitCloneService.settled GitCloneService.settle].
  unfold UserInteractionService.showCloneResult,
    GitCloneService.createSuccessResult.
  subst location repository.
  cbn [success negb resultMessage resultTargetPath cloneToRoot message
       targetPath name createRepository app].
  destruct (showInformationMessage editor _ _).
  - rewrite str_eqb_refl, (falsy_false Hne). reflexivity.
  - reflexivity.
Qed.

Lemma executeClone_into_subfolder_witness :
  GitCloneExtension.executeClone
    (Demo.host Demo.root [(lit "package.json", false); (lit "b", true)]
       [StderrData (lit "Cloning into 'b-1'..."); Close (Some 0%Z)])
    (Demo.editor (Some (lit "/work/b-1")) true) 3
    (Ok (lit "https://github.com/a/b")) (Some [Demo.root]) =
  ([InputBox (lit "Cloning b to new folder (avoiding conflicts)")
      (lit "/work/b-1") (Some (6, 7));
    Progress (lit "Cloning b...");
    Spawn [lit "clone"; lit "https://github.com/a/b.git"; lit "b-1"]
      (lit "/work");
    InformationMessage (lit "Successfully cloned b to new folder")
      (lit "Open Folder");
    Command (lit "vscode.openFolder") (Some (lit "/work/b-1"))],
   GitCloneExtension.Returned).
Proof.
  pose proof (@executeClone_into_subfolder
    (Demo.host Demo.root [(lit "package.json", false); (lit "b", true)]
       [StderrData (lit "Cloning into 'b-1'..."); Close (Some 0%Z)])
    (Demo.editor (Some (lit "/work/b-1")) true) 3
    (lit "https://github.com/a/b") Demo.root []
    {| hasCommonFiles := true; detectedFiles := [lit "package.json"] |}
    1 (lit "/work/b-1")
    [StderrData (lit "Cloning into 'b-1'...")] []) as W.
  assert (Hbelow : forall i, i < 1 ->
            existsSync
              (Demo.host Demo.root [(lit "package.json", false); (lit "b", true)]
                 [StderrData (lit "Cloning into 'b-1'..."); Close (Some 0%Z)])
              (candidate
                 (Demo.host Demo.root
                    [(lit "package.json", false); (lit "b", true)]
                    [StderrData (lit "Cloning into 'b-1'..."); Close (Some 0%Z)])
                 Demo.root (createRepository (lit "https://github.com/a/b")) i)
            = true).
  { intros i Hi. assert (i = 0) as -> by lia. vm_compute. reflexivity. }
  specialize (W eq_refl eq_refl eq_refl eq_refl Hbelow eq_refl).
  assert (Hfuel : 1 < 3) by lia.
  specialize (W Hfuel eq_refl).
  assert (Hne : lit "/work/b-1" <> []) by discriminate.
  specialize (W Hne eq_refl eq_refl).
  vm_compute in W. vm_compute. exact W.
Defined.

(** X20: the whole command in a workspace folder without markers. The
    input box proposes the folder itself with nothing preselected; when
    that path is accepted unchanged, git is run inside the folder with
    the destination [.]; after exit code 0 the success is announced with
    the button [Reload Window], and pressing it reloads the window. *)
Theorem executeClone_into_root (host : Host) (editor : Editor) (fuel : nat)
    (clipboardText root : str) (others : list str)
    (detection : ProjectFileDetectionResult)
    (output later : list ProcEvent) :
  falsy clipboardText = false ->
  isValid clipboardText = true ->
  ProjectFileDetector.detect host root = Ok detection ->
  hasCommonFiles detection = false ->
  showInputBox editor
    (lit "Clone " ++ extractRepositoryName clipboardText
       ++ lit " contents to current workspace root? (No project files detected)")
    root None
    = Some root ->
  root <> [] ->
  spawn host (lit "git") [lit "clone"; normalize clipboardText; lit "."] root
    = Ok (output ++ Close (Some 0%Z) :: later) ->
  forallb is_data output = true ->
  GitCloneExtension.executeClone host editor fuel (Ok clipboardText)
    (Some (root :: others)) =
  ([InputBox
      (lit "Clone " ++ extractRepositoryName clipboardText
         ++ lit " contents to current workspace root? (No project files detected)")
      root None;
    Progress (lit "Cloning " ++ extractRepositoryName clipboardText ++ lit "...");
    Spawn [lit "clone"; normalize clipboardText; lit "."] root;
    InformationMessage
      (lit "Successfully cloned " ++ extractRepositoryName clipboardText
         ++ lit " to workspace root (no conflicts detected)")
      (lit "Reload Window")]
   ++ (if showInformationMessage editor
            (lit "Successfully cloned " ++ extractRepositoryName clipboardText
               ++ lit " to workspace root (no conflicts detected)")
            (lit "Reload Window")
       then [Command (lit "workbench.action.reloadWindow") None]
       else []),
   GitCloneExtension.Returned).
Proof.
  intros Hf Hv Hd Hm Hbox Hne Hspawn Hdata.
  apply executeClone_of_try.
  set (repository := createRepository clipboardText) in *.
  set (location := CloneLocationResolver.resolveForCleanWorkspace repository root).
  assert (Hr : CloneLocationResolver.resolve host fuel repository
                 (Some (root :: others)) = Some (Ok location)).
  { unfold CloneLocationResolver.resolve. rewrite Hd, Hm. reflexivity. }
  assert (Hcmd :
    GitCloneService.prepareGitCommand host repository location root =
    ([lit "clone"; normalize clipboardText; lit "."], root)).
  { unfold GitCloneService.prepareGitCommand, location.
    cbn [cloneToRoot targetPath CloneLocationResolver.resolveForCleanWorkspace
         andb].
    rewrite str_eqb_refl. reflexivity. }
  rewrite (@tryClone_confirmed host editor fuel clipboardText
             (Some (root :: others)) location
             (InputBox (message location) (targetPath location) None)
             root Hf Hv Hr);
    [| unfold UserInteractionService.confirmCloneLocation; cbn; fold repository;
       cbn in Hbox; rewrite Hbox; reflexivity
     | apply falsy_false; assumption ].
  cbv zeta. fold repository. rewrite Hcmd. cbn [fst snd].
  rewrite (@clone_decided host repository location root output
             (Close (Some 0%Z)) later)
    by (first [rewrite Hcmd; exact Hspawn | assumption | reflexivity]).
  cbn [GitCloneService.handle GitCloneService.settled GitCloneService.settle].
  unfold UserInteractionService.showCloneResult,
    GitCloneService.createSuccessResult.
  subst location repository.
  cbn [success negb resultMessage resultTargetPath cloneToRoot message
       targetPath name createRepository app
       CloneLocationResolver.resolveForCleanWorkspace].
  destruct (showInformationMessage editor _ _); reflexivity.
Qed.

Lemma executeClone_into_root_witness :
  GitCloneExtension.executeClone
    (Demo.host Demo.root [(lit "notes.txt", false)] [Close (Some 0%Z)])
    (Demo.editor (Some Demo.root) true) 3
    (Ok (lit "git@github.com:a/b.git")) (Some [Demo.root]) =
  ([InputBox
      (lit "Clone b contents to current workspace root? (No project files detected)")
      (lit "/work") None;
    Progress (lit "Cloning b...");
    Spawn [lit "clone"; lit "git@github.com:a/b.git"; lit "."] (lit "/work");
    InformationMessage
      (lit "Successfully cloned b to workspace root (no conflicts detected)")
      (lit "Reload Window");
    Command (lit "workbench.action.reloadWindow") None],
   GitCloneExtension.Returned).
Proof.
  pose proof (@executeClone_into_root
    (Demo.host Demo.root [(lit "notes.txt", false)] [Close (Some 0%Z)])
    (Demo.editor (Some Demo.root) true) 3
    (lit "git@github.com:a/b.git") Demo.root []
    {| hasCommonFiles := false; detectedFiles := [] |} [] []) as W.
  assert (Hne : Demo.root <> []) by discriminate.
  specialize (W eq_refl eq_refl eq_refl eq_refl eq_refl Hne eq_refl eq_refl).
  vm_compute in W. vm_compute. exact W.
Defined.

(** X21: a clone that git ends with a code other than 0 (or by a signal)
    is reported once, as an error message carrying what git wrote to its
    standard error; no folder is opened and the window is not
    reloaded. *)
Theorem executeClone_reports_failure (host : Host) (editor : Editor)
    (fuel : nat) (clipboardText : str) (workspaceFolders : option (list str))
    (location : CloneLocation) (box : UiAction) (confirmedPath : str)
    (output later : list ProcEvent) (code : option Z) :
  falsy clipboardText = false ->
  isValid clipboardText = true ->
  CloneLocationResolver.resolve host fuel (createRepository clipboardText)
    workspaceFolders = Some (Ok location) ->
  UserInteractionService.confirmCloneLocation host editor workspaceFolders
    location (createRepository clipboardText) = Ok (box, Some confirmedPath) ->
  confirmedPath <> [] ->
  spawn host (lit "git")
    (fst (GitCloneService.prepareGitCommand host
            (createRepository clipboardText) location confirmedPath))
    (snd (GitCloneService.prepareGitCommand host
            (createRepository clipboardText) location confirmedPath))
    = Ok (output ++ Close code :: later) ->
  forallb is_data output = true ->
  code <> Some 0%Z ->
  GitCloneExtension.executeClone host editor fuel (Ok clipboardText)
    workspaceFolders =
  ([box;
    Progress (lit "Cloning " ++ extractRepositoryName clipboardText ++ lit "...");
    Spawn
      (fst (GitCloneService.prepareGitCommand host
              (createRepository clipboardText) location confirmedPath))
      (snd (GitCloneService.prepareGitCommand host
              (createRepository clipboardText) location confirmedPath));
    ErrorMessage
      (lit "Failed to clone repository: "
         ++ (if falsy (stderr_of output) then lit "Unknown error"
             else stderr_of output))],
   GitCloneExtension.Returned).
Proof.
  intros Hf Hv Hr Hc Hne Hspawn Hdata Hcode.
  apply executeClone_of_try.
  rewrite (@tryClone_confirmed host editor fuel clipboardText workspaceFolders
             location box confirmedPath Hf Hv Hr Hc (falsy_false Hne)).
  cbv zeta.
  rewrite (@clone_decided host (createRepository clipboardText) location
             confirmedPath output (Close code) later Hspawn Hdata eq_refl).
  cbn [GitCloneService.handle GitCloneService.settled GitCloneService.settle
       GitCloneService.errorOutput].
  destruct code as [[|p|p]|]; try (exfalso; apply Hcode; reflexivity);
    reflexivity.
Qed.

Lemma executeClone_reports_failure_witness :
  GitCloneExtension.executeClone
    (Demo.host Demo.root []
       [StderrData (lit "fatal: repository not found"); Close (Some 128%Z)])
    (Demo.editor (Some (lit "/home/user/b")) true) 3
    (Ok (lit "https://github.com/a/b")) None =
  ([InputBox (lit "Clone b to new folder in home directory?")
      (lit "/home/user/b") (Some (11, 12));
    Progress (lit "Cloning b...");
    Spawn [lit "clone"; lit "https://github.com/a/b.git"; lit "b"]
      (lit "/home/user");
    ErrorMessage (lit "Failed to clone repository: fatal: repository not found")],
   GitCloneExtension.Returned).
Proof.
  pose proof (@executeClone_reports_failure
    (Demo.host Demo.root []
       [StderrData (lit "fatal: repository not found"); Close (Some 128%Z)])
    (Demo.editor (Some (lit "/home/user/b")) true) 3
    (lit "https://github.com/a/b") None
    (CloneLocationResolver.resolveForNoWorkspace
       (Demo.host Demo.root []
          [StderrData (lit "fatal: repository not found"); Close (Some 128%Z)])
       Demo.repo_b)
    (InputBox (lit "Clone b to new folder in home directory?")
       (lit "/home/user/b") (Some (11, 12)))
    (lit "/home/user/b")
    [StderrData (lit "fatal: repository not found")] [] (Some 128%Z)) as W.
  assert (Hne : lit "/home/user/b" <> []) by discriminate.
  assert (Hcode : Some 128%Z <> Some 0%Z) by discriminate.
  specialize (W eq_refl eq_refl eq_refl eq_refl Hne eq_refl eq_refl Hcode).
  vm_compute in W. vm_compute. exact W.
Defined.

(** X22: an empty list of workspace folders is treated in two ways.
    [resolve] takes it for no workspace and proposes a folder in the home
    directory, but [confirmCloneLocation] reads the path of its first
    element, which throws; the command then shows only
    [Clone failed: ...] with the message of that error: no input box, no
    git. *)
Theorem executeClone_empty_folder_list (host : Host) (editor : Editor)
    (fuel : nat) (clipboardText : str) :
  falsy clipboardText = false ->
  isValid clipboardText = true ->
  CloneLocationResolver.resolve host fuel (createRepository clipboardText)
    (Some []) =
  Some (Ok (CloneLocationResolver.resolveForNoWorkspace host
              (createRepository clipboardText))) /\
  GitCloneExtension.executeClone host editor fuel (Ok clipboardText) (Some []) =
  ([ErrorMessage (lit "Clone failed: " ++ typeErrorMessage editor)],
   GitCloneExtension.Returned).
Proof.
  intros Hf Hv. split; [reflexivity|].
  unfold GitCloneExtension.executeClone, GitCloneExtension.tryClone.
  rewrite Hf, Hv. reflexivity.
Qed.

Lemma executeClone_empty_folder_list_witness :
  CloneLocationResolver.resolve (Demo.host Demo.root [] []) 3
    (createRepository (lit "https://github.com/a/b")) (Some []) =
  Some (Ok (CloneLocationResolver.resolveForNoWorkspace
              (Demo.host Demo.root [] [])
              (createRepository (lit "https://github.com/a/b")))) /\
  GitCloneExtension.executeClone (Demo.host Demo.root [] [])
    (Demo.editor (Some (lit "/home/user/b")) true) 3
    (Ok (lit "https://github.com/a/b")) (Some []) =
  ([ErrorMessage
      (lit "Clone failed: "
         ++ typeErrorMessage (Demo.editor (Some (lit "/home/user/b")) true))],
   GitCloneExtension.Returned).
Proof.
  apply (@executeClone_empty_folder_list (Demo.host Demo.root [] [])
           (Demo.editor (Some (lit "/home/user/b")) true) 3
           (lit "https://github.com/a/b")).
  - reflexivity.
  - vm_compute. reflexivity.
Defined.

(** X23: where joining the default path and a candidate name only puts a
    separator between them, the selection that [confirmCloneLocation]
    passes to the input box for a location outside the root covers
    exactly the repository name inside the proposed path. *)
Theorem confirmCloneLocation_selects_name (host : Host) (editor : Editor)
    (fuel : nat) (repository : GitRepository)
    (workspaceFolders : option (list str)) (location : CloneLocation)
    (defaultPath : str) :
  CloneLocationResolver.resolve host fuel repository workspaceFolders
    = Some (Ok location) ->
  cloneToRoot location = false ->
  UserInteractionService.defaultPath host editor workspaceFolders
    = Ok defaultPath ->
  (forall k, exists suffix,
     candidate host defaultPath repository k
     = defaultPath ++ ch "/" :: name repository ++ suffix) ->
  exists first last answer,
    UserInteractionService.confirmCloneLocation host editor workspaceFolders
      location repository
    = Ok (InputBox (message location) (targetPath location) (Some (first, last)),
          answer) /\
    substring (targetPath location) first last = name repository.
Proof.
  intros Hr Hsub Hd Hjoin.
  assert (Htarget : exists suffix,
            targetPath location
            = defaultPath ++ ch "/" :: name repository ++ suffix).
  { unfold CloneLocationResolver.resolve in Hr.
    destruct workspaceFolders as [[|root others]|].
    - discriminate Hd.
    - apply Ok_inj in Hd. subst root.
      destruct (ProjectFileDetector.detect host defaultPath) as [d|e];
        [|discriminate Hr].
      destruct (hasCommonFiles d).
      + unfold CloneLocationResolver.resolveForExistingProject in Hr.
        change (path_join host defaultPath (name repository))
          with (candidate host defaultPath repository 0) in Hr.
        destruct (CloneLocationResolver.probe host fuel repository defaultPath
                    (candidate host defaultPath repository 0) 1)
          as [target|] eqn:Ep; [|discriminate Hr].
        apply Some_Ok_inj in Hr. subst location.
        apply probe_returns in Ep as (k & -> & _).
        apply Hjoin.
      + apply Some_Ok_inj in Hr. subst location. discriminate Hsub.
    - apply Ok_inj in Hd. subst defaultPath.
      apply Some_Ok_inj in Hr. subst location. apply (Hjoin 0). }
  destruct Htarget as [suffix Htarget].
  exists (length defaultPath + 1),
    (length defaultPath + 1 + length (name repository)),
    (showInputBox editor (message location) (targetPath location)
       (Some (length defaultPath + 1,
              length defaultPath + 1 + length (name repository)))).
  split.
  - unfold UserInteractionService.confirmCloneLocation.
    rewrite Hd, Hsub. reflexivity.
  - unfold substring. rewrite Htarget.
    replace (length defaultPath + 1 + length (name repository)
             - (length defaultPath + 1)) with (length (name repository)) by lia.
    replace (defaultPath ++ ch "/" :: name repository ++ suffix)
      with ((defaultPath ++ [ch "/"]) ++ name repository ++ suffix)
      by (rewrite <- app_assoc; reflexivity).
    rewrite skipn_app, skipn_all2 by (rewrite length_app; simpl; lia).
    rewrite length_app. cbn [length].
    replace (length defaultPath + 1 - (length defaultPath + 1)) with 0 by lia.
    cbn [skipn app]. rewrite firstn_app, firstn_all, Nat.sub_diag.
    cbn [firstn]. apply app_nil_r.
Qed.

Lemma confirmCloneLocation_selects_name_witness :
  exists first last answer,
    UserInteractionService.confirmCloneLocation
      (Demo.host Demo.root [(lit "package.json", false); (lit "b", true)] [])
      (Demo.editor None false) (Some [Demo.root])
      {| targetPath := lit "/work/b-1"; cloneToRoot := false;
         message := lit "Cloning b to new folder (avoiding conflicts)" |}
      Demo.repo_b
    = Ok (InputBox
            (message
               {| targetPath := lit "/work/b-1"; cloneToRoot := false;
                  message := lit "Cloning b to new folder (avoiding conflicts)" |})
            (targetPath
               {| targetPath := lit "/work/b-1"; cloneToRoot := false;
                  message := lit "Cloning b to new folder (avoiding conflicts)" |})
            (Some (first, last)),
          answer) /\
    substring
      (targetPath
         {| targetPath := lit "/work/b-1"; cloneToRoot := false;
            message := lit "Cloning b to new folder (avoiding conflicts)" |})
      first last
    = name Demo.repo_b.
Proof.
  apply (@confirmCloneLocation_selects_name
           (Demo.host Demo.root [(lit "package.json", false); (lit "b", true)] [])
           (Demo.editor None false) 3 Demo.repo_b (Some [Demo.root])
           {| targetPath := lit "/work/b-1"; cloneToRoot := false;
              message := lit "Cloning b to new folder (avoiding conflicts)" |}
           Demo.root).
  - vm_compute. reflexivity.
  - reflexivity.
  - reflexivity.
  - intros [|k].
    + exists []. vm_compute. reflexivity.
    + exists (lit "-" ++ decimal (S k)). reflexivity.
Defined.

(** X24: when [spawn] throws, the rejected promise of [clone] is caught
    by [executeClone]: after the input box and the progress title it
    shows [Clone failed: ...] with the message of the error, not the
    message [clone] gives to a start failure it is told of by an [error]
    event; nothing is opened or reloaded. *)
Theorem executeClone_spawn_throws (host : Host) (editor : Editor)
    (fuel : nat) (clipboardText : str) (workspaceFolders : option (list str))
    (location : CloneLocation) (box : UiAction) (confirmedPath e : str) :
  falsy clipboardText = false ->
  isValid clipboardText = true ->
  CloneLocationResolver.resolve host fuel (createRepository clipboardText)
    workspaceFolders = Some (Ok location) ->
  UserInteractionService.confirmCloneLocation host editor workspaceFolders
    location (createRepository clipboardText) = Ok (box, Some confirmedPath) ->
  confirmedPath <> [] ->
  spawn host (lit "git")
    (fst (GitCloneService.prepareGitCommand host
            (createRepository clipboardText) location confirmedPath))
    (snd (GitCloneService.prepareGitCommand host
            (createRepository clipboardText) location confirmedPath))
    = Throw e ->
  GitCloneExtension.executeClone host editor fuel (Ok clipboardText)
    workspaceFolders =
  ([box;
    Progress (lit "Cloning " ++ extractRepositoryName clipboardText ++ lit "...");
    Spawn
      (fst (GitCloneService.prepareGitCommand host
              (createRepository clipboardText) location confirmedPath))
      (snd (GitCloneService.prepareGitCommand host
              (createRepository clipboardText) location confirmedPath));
    ErrorMessage (lit "Clone failed: " ++ e)],
   GitCloneExtension.Returned).
Proof.
  intros Hf Hv Hr Hc Hne Hspawn.
  unfold GitCloneExtension.executeClone.
  rewrite (@tryClone_confirmed host editor fuel clipboardText workspaceFolders
             location box confirmedPath Hf Hv Hr Hc (falsy_false Hne)).
  cbv zeta. rewrite clone_unfold, Hspawn. reflexivity.
Qed.

Lemma executeClone_spawn_throws_witness :
  GitCloneExtension.executeClone
    (Demo.no_spawn (Demo.host Demo.root [(lit "notes.txt", false)] [])
       (lit "spawn ENOTDIR"))
    (Demo.editor (Some (lit "/work/notes.txt/b")) true) 3
    (Ok (lit "https://github.com/a/b")) (Some [Demo.root]) =
  ([InputBox
      (lit "Clone b contents to current workspace root? (No project files detected)")
      (lit "/work") None;
    Progress (lit "Cloning b...");
    Spawn [lit "clone"; lit "https://github.com/a/b.git"; lit "b"]
      (lit "/work/notes.txt");
    ErrorMessage (lit "Clone failed: spawn ENOTDIR")],
   GitCloneExtension.Returned).
Proof.
  pose proof (@executeClone_spawn_throws
    (Demo.no_spawn (Demo.host Demo.root [(lit "notes.txt", false)] [])
       (lit "spawn ENOTDIR"))
    (Demo.editor (Some (lit "/work/notes.txt/b")) true) 3
    (lit "https://github.com/a/b") (Some [Demo.root])
    (CloneLocationResolver.resolveForCleanWorkspace Demo.repo_b Demo.root)
    (InputBox
       (lit "Clone b contents to current workspace root? (No project files detected)")
       (lit "/work") None)
    (lit "/work/notes.txt/b") (lit "spawn ENOTDIR")) as W.
  assert (Hne : lit "/work/notes.txt/b" <> []) by discriminate.
  specialize (W eq_refl eq_refl eq_refl eq_refl Hne eq_refl).
  vm_compute in W. vm_compute. exact W.
Defined.
